(** * The NGSIM trajectory transformation (posts/transform/transform.py)

    A shallow embedding of the dataframe script and the properties its
    specification states about it.

    The script is one straight line of pandas and polars calls on a single
    table [data_py].  A table is embedded as its ordered column labels and its
    rows; a row maps a column label to a cell.  What the script itself writes
    (which calls, on which columns, in which order, and the body of
    [calculate_time_elapsed]) is embedded as it is written; what pandas and
    polars do inside a call is written out next to the call that uses it; the
    float arithmetic, the rounding and the timestamp functions of the
    libraries are the fields of the class [Lib].

    The embedding starts from [data_py] as it stands after line 27
    ([clean_names]): the file reader and the label cleaner produce the table
    the script works on and are not part of it. *)

From Stdlib Require Import ZArith String List Floats.PrimFloat Floats.SpecFloat
  Floats.FloatOps Numbers.Cyclic.Int63.Uint63 Sorting.Sorted.
From stdpp Require Import gmap strings list fin_maps pretty sorting.

Local Open Scope string_scope.
Local Open Scope Z_scope.
Local Open Scope list_scope.

(** ** Library operations *)

(** The numeric and timestamp primitives of numpy, pandas and polars the
    script calls.  Statements are made for every implementation of them. *)
Class Lib := {
  (** float64 *)
  float : Type;
  (** a timezone-aware timestamp *)
  datetime : Type;
  (** int64 to float64, as in [i / 10.0] for an integer [i] *)
  float_of_int : Z → float;
  (** float64 division and multiplication *)
  fdiv : float → float → float;
  fmul : float → float → float;
  (** polars [Expr.round(decimals)] on a float *)
  fround : nat → float → float;
  (** the order of float64 used by sorting, grouping and joining *)
  fcompare : float → float → comparison;
  (** the literals [10.0] and [.3048] *)
  float_10 : float;
  float_0_3048 : float;
  (** [pd.to_datetime(x, unit='s', origin='1970-01-01', utc=True)] *)
  to_datetime : float → datetime;
  (** [Series.dt.tz_convert(zone)] on one timestamp *)
  tz_convert : string → datetime → datetime;
  (** the order of timestamps *)
  tcompare : datetime → datetime → comparison;
  (** polars [cast(pl.String)] on a float and on a timestamp *)
  float_to_string : float → string;
  datetime_to_string : datetime → string;
}.

(** ** Errors *)

(** The exceptions the calls raise.  The script catches none of them, so the
    first one ends the run: a step returns a table or an error, never both. *)
Inductive error :=
  | KeyError (label : string)             (* pandas: label not in the table *)
  | TypeError (label : string)            (* pandas: operand of the wrong dtype *)
  | DuplicateError (label : string)       (* polars: two columns of one name *)
  | ColumnNotFoundError (label : string)  (* polars: no column of that name *)
  | InvalidOperationError (label : string) (* polars: operand of the wrong dtype *).

Inductive result (A : Type) :=
  | Ok (a : A)
  | Err (e : error).
Arguments Ok {A} a.
Arguments Err {A} e.

Global Instance result_ret : MRet result := λ A a, Ok a.
Global Instance result_bind : MBind result := λ A B f m,
  match m with
  | Ok a => f a
  | Err e => Err e
  end.

Definition is_ok {A} (m : result A) : bool :=
  match m with Ok _ => true | Err _ => false end.

(** The first label of [wanted] that [have] lacks. *)
Definition first_missing (wanted have : list string) : option string :=
  head (filter (λ c, c ∉ have) wanted).

Section Transform.
Context {L : Lib}.

(** ** Data model *)

(** A cell.  [VNull] is a missing value: NaN, None or NaT in pandas, null in
    polars ([pl.from_pandas] turns the former into the latter). *)
Inductive value :=
  | VNull
  | VInt (z : Z)
  | VFloat (x : float)
  | VStr (s : string)
  | VTime (t : datetime)
  | VCat (s : string).

Definition is_null (v : value) : bool :=
  match v with VNull => true | _ => false end.

(** The position of a dtype in the order [value_compare] uses between cells of
    different dtypes.  pandas raises on such a comparison; a column read from a
    parquet file has one dtype, so that order is not observed. *)
Definition dtype_rank (v : value) : Z :=
  match v with
  | VInt _ => 0
  | VFloat _ => 1
  | VStr _ => 2
  | VTime _ => 3
  | VCat _ => 4
  | VNull => 5
  end.

(** The order of cells: the order of the dtype, missing values last
    ([na_position='last']). *)
Definition value_compare (a b : value) : comparison :=
  match a, b with
  | VInt x, VInt y => Z.compare x y
  | VFloat x, VFloat y => fcompare x y
  | VStr s, VStr t => String.compare s t
  | VTime s, VTime t => tcompare s t
  | VCat s, VCat t => String.compare s t
  | _, _ => Z.compare (dtype_rank a) (dtype_rank b)
  end.

(** Equality of keys in [groupby] and [merge]; two missing keys are equal. *)
Definition value_eqb (a b : value) : bool :=
  match value_compare a b with Eq => true | _ => false end.

Record DataFrame := mkDataFrame {
  columns : list string;
  rows : list (gmap string value);
}.

(** The cell of row [r] in column [c]. *)
Definition cell (c : string) (r : gmap string value) : value :=
  default VNull (r !! c).

(** [df[c] = ...]: a new label goes last, an old one keeps its place. *)
Definition add_label (c : string) (cols : list string) : list string :=
  if bool_decide (c ∈ cols) then cols else cols ++ [c].

(** Monadic map over the rows, stopping at the first error. *)
Fixpoint map_rows {A B} (f : A → result B) (l : list A) : result (list B) :=
  match l with
  | [] => Ok []
  | x :: l' =>
      y ← f x;
      k ← map_rows f l';
      Ok (y :: k)
  end.

(** ** Lines 30-32: the [actual_time] column *)

(** [data_py['global_time'] / 1000]: true division of one cell. *)
Definition truediv_1000 (v : value) : result value :=
  match v with
  | VNull => Ok VNull
  | VInt z => Ok (VFloat (fdiv (float_of_int z) (float_of_int 1000)))
  | VFloat x => Ok (VFloat (fdiv x (float_of_int 1000)))
  | VStr _ | VTime _ | VCat _ => Err (TypeError "global_time")
  end.

(** [pd.to_datetime(..., unit='s', origin='1970-01-01', utc=True)] on one
    cell: a number of seconds since the epoch becomes a UTC timestamp. *)
Definition pd_to_datetime (v : value) : result value :=
  match v with
  | VNull => Ok VNull
  | VInt z => Ok (VTime (to_datetime (float_of_int z)))
  | VFloat x => Ok (VTime (to_datetime x))
  | VStr _ | VTime _ | VCat _ => Err (TypeError "global_time")
  end.

(** [.dt.tz_convert(zone)] on one cell. *)
Definition dt_tz_convert (zone : string) (v : value) : result value :=
  match v with
  | VNull => Ok VNull
  | VTime t => Ok (VTime (tz_convert zone t))
  | VInt _ | VFloat _ | VStr _ | VCat _ => Err (TypeError "actual_time")
  end.

(** [df[dst] = f(df[src])], cell by cell. *)
Definition assign (dst src : string) (f : value → result value)
    (df : DataFrame) : result DataFrame :=
  if bool_decide (src ∈ columns df) then
    rs ← map_rows (λ r, v ← f (cell src r); Ok (<[dst := v]> r)) (rows df);
    Ok (mkDataFrame (add_label dst (columns df)) rs)
  else Err (KeyError src).

Definition add_actual_time (data_py : DataFrame) : result DataFrame :=
  data_py ← assign "actual_time" "global_time"
              (λ v, s ← truediv_1000 v; pd_to_datetime s) data_py;
  assign "actual_time" "actual_time"
    (dt_tz_convert "America/Los_Angeles") data_py.

(** ** Line 35: [sort_values] *)

(** Rows compared on the labels [keys], the first label first. *)
Fixpoint row_compare (keys : list string) (r1 r2 : gmap string value)
    : comparison :=
  match keys with
  | [] => Eq
  | c :: keys' =>
      match value_compare (cell c r1) (cell c r2) with
      | Eq => row_compare keys' r1 r2
      | o => o
      end
  end.

(** A stable sort: a row goes in front of the rows it does not exceed. *)
Fixpoint insert_row (keys : list string) (r : gmap string value)
    (l : list (gmap string value)) : list (gmap string value) :=
  match l with
  | [] => [r]
  | x :: l' =>
      match row_compare keys r x with
      | Gt => x :: insert_row keys r l'
      | _ => r :: l
      end
  end.

Definition sort_rows (keys : list string) (l : list (gmap string value))
    : list (gmap string value) :=
  foldr (insert_row keys) [] l.

Definition sort_values (keys : list string) (df : DataFrame)
    : result DataFrame :=
  match first_missing keys (columns df) with
  | Some c => Err (KeyError c)
  | None => Ok (mkDataFrame (columns df) (sort_rows keys (rows df)))
  end.

(** ** Lines 37-43: elapsed time per vehicle *)

(** [group_df[c] = vals]: the i-th row gets the i-th value.  (pandas raises
    when the lengths differ; at its one use they are equal.) *)
Definition setitem (c : string) (vals : list value) (df : DataFrame)
    : DataFrame :=
  mkDataFrame (add_label c (columns df))
    (zip_with (λ r v, <[c := v]> r) (rows df) vals).

Definition calculate_time_elapsed (group_df : DataFrame) : DataFrame :=
  let num_rows := length (rows group_df) in
  setitem "time"
    (map (λ i : nat, VFloat (fdiv (float_of_int (Z.of_nat i)) float_10))
       (seq 0 num_rows))
    group_df.

(** The rows of [rs] whose key in column [key] equals [k], in their order. *)
Definition group_rows (key : string) (k : value)
    (rs : list (gmap string value)) : list (gmap string value) :=
  filter (λ r, value_eqb (cell key r) k) rs.

(** The rows of [groupby(key, group_keys=False).apply(f)] when [f] returns its
    group with the index unchanged: the result is aligned with the index of the
    table, so each row of a group is replaced, where it stands, by the row of
    the same position in [f] of its group; the rows whose key is missing are
    left out ([dropna=True]).  [seen] are the rows before [todo]. *)
Fixpoint realign (key : string)
    (applied : value → list (gmap string value))
    (seen todo : list (gmap string value)) : list (gmap string value) :=
  match todo with
  | [] => []
  | r :: todo' =>
      let k := cell key r in
      let rest := realign key applied (seen ++ [r]) todo' in
      if is_null k then rest
      else
        match applied k !! length (group_rows key k seen) with
        | Some r' => r' :: rest
        | None => rest
        end
  end.

(** The labels of the result are those [f] returns; with no group at all the
    table keeps its own. *)
Definition groupby_apply (key : string) (f : DataFrame → DataFrame)
    (df : DataFrame) : result DataFrame :=
  if bool_decide (key ∈ columns df) then
    let group k := mkDataFrame (columns df) (group_rows key k (rows df)) in
    let cols :=
      match filter (λ r, negb (is_null (cell key r))) (rows df) with
      | [] => columns df
      | r :: _ => columns (f (group (cell key r)))
      end in
    Ok (mkDataFrame cols (realign key (λ k, rows (f (group k))) [] (rows df)))
  else Err (KeyError key).

Definition time_indexer (data_py : DataFrame) : result DataFrame :=
  data_py ← sort_values ["vehicle_id"; "frame_id"] data_py;
  groupby_apply "vehicle_id" calculate_time_elapsed data_py.

(** ** Lines 50-57: the preceding vehicle *)

(** [df.loc[:, labels]]: the table restricted to [labels], in that order. *)
Definition loc_columns (labels : list string) (df : DataFrame)
    : result DataFrame :=
  match first_missing labels (columns df) with
  | Some c => Err (KeyError c)
  | None =>
      Ok (mkDataFrame labels
            (map (λ r : gmap string value,
                    filter (λ kv, kv.1 ∈ labels) r) (rows df)))
  end.

(** Row [l] of the left table and row [r] of the right one agree on every
    pair of key columns. *)
Definition keys_match (left_on right_on : list string)
    (l r : gmap string value) : bool :=
  forallb (λ lr, value_eqb (cell lr.1 l) (cell lr.2 r))
    (zip left_on right_on).

(** The columns the right table adds to the result: all but a key column
    that has the name of the left key it is joined to, which the result holds
    once. *)
Definition right_labels (left_on right_on : list string)
    (right : DataFrame) : list string :=
  filter (λ c, (c, c) ∉ zip left_on right_on) (columns right).

(** A label of the right table in the result: suffixed when the left table
    has the label too (the suffix of the left table is empty here). *)
Definition suffixed (left : DataFrame) (suffix c : string) : string :=
  if bool_decide (c ∈ columns left) then c +:+ suffix else c.

(** A right-hand cell taken for a left row.  When some left row has no match
    the right columns are filled with missing values, and pandas stores an
    int64 column that gets a missing value as float64. *)
Definition na_upcast (fill : bool) (v : value) : value :=
  match v with
  | VInt z => if fill then VFloat (float_of_int z) else v
  | _ => v
  end.

(** The left row [l] extended with the cells of the right row [m], or with
    missing values when there is no [m]. *)
Definition merge_row (out : list (string * string)) (fill : bool)
    (l : gmap string value) (m : option (gmap string value))
    : gmap string value :=
  foldr (λ cn acc,
           <[cn.2 := match m with
                     | Some r => na_upcast fill (cell cn.1 r)
                     | None => VNull
                     end]> acc)
    l out.

(** [left.merge(right, left_on, right_on, how='left', suffixes=['', suffix])]:
    the left rows in their order, each once per matching right row (in the
    order of the right table), or once with missing values. *)
Definition merge_left (left right : DataFrame)
    (left_on right_on : list string) (suffix : string) : result DataFrame :=
  match first_missing left_on (columns left),
        first_missing right_on (columns right) with
  | Some c, _ | None, Some c => Err (KeyError c)
  | None, None =>
      let out := map (λ c, (c, suffixed left suffix c))
                   (right_labels left_on right_on right) in
      let matches l :=
        filter (λ m, keys_match left_on right_on l m) (rows right) in
      let fill :=
        existsb (λ l, bool_decide (matches l = [])) (rows left) in
      Ok (mkDataFrame (columns left ++ out.*2)
            (flat_map (λ l,
                 match matches l with
                 | [] => [merge_row out fill l None]
                 | ms => map (λ m, merge_row out fill l (Some m)) ms
                 end) (rows left)))
  end.

(** [df.drop(labels, axis='columns')] of pandas. *)
Definition pd_drop (labels : list string) (df : DataFrame)
    : result DataFrame :=
  match first_missing labels (columns df) with
  | Some c => Err (KeyError c)
  | None =>
      Ok (mkDataFrame
            (filter (λ c, c ∉ labels) (columns df))
            (map (λ r : gmap string value,
                    filter (λ kv, kv.1 ∉ labels) r) (rows df)))
  end.

(** The labels of line 51. *)
Definition right_columns : list string :=
  ["frame_id"; "vehicle_id"; "local_x"; "local_y"; "v_length"; "v_width";
   "v_class"; "v_vel"; "v_acc"].

Definition preceding_joiner (data_py : DataFrame) : result DataFrame :=
  right ← loc_columns right_columns data_py;
  data_py ← merge_left data_py right
              ["frame_id"; "preceding"] ["frame_id"; "vehicle_id"]
              "_preceding";
  pd_drop ["vehicle_id_preceding"] data_py.

(** ** Line 61: [pl.from_pandas] *)

(** The first label of [l] that occurs again further on. *)
Fixpoint first_duplicate (l : list string) : option string :=
  match l with
  | [] => None
  | c :: l' => if bool_decide (c ∈ l') then Some c else first_duplicate l'
  end.

(** A pandas table may hold two columns of one label, a polars table may
    not.  Missing values become nulls, which are both [VNull] here. *)
Definition from_pandas (df : DataFrame) : result DataFrame :=
  match first_duplicate (columns df) with
  | Some c => Err (DuplicateError c)
  | None => Ok df
  end.

(** ** Lines 65-81: renaming and pruning *)

(** The new label of [c] under [mapping] ([c] itself when it is not a key). *)
Definition rename_label (mapping : list (string * string)) (c : string)
    : string :=
  match List.find (λ on, bool_decide (on.1 = c)) mapping with
  | Some on => on.2
  | None => c
  end.

(** The row whose cell at the new label of [c] is the cell of [r] at [c], for
    the labels [c] of the table. *)
Definition rename_row (mapping : list (string * string))
    (cols : list string) (r : gmap string value) : gmap string value :=
  foldr (λ c acc, <[rename_label mapping c := cell c r]> acc) ∅ cols.

(** [df.rename(mapping)] of polars: every old label must exist, and the new
    labels must not clash. *)
Definition pl_rename (mapping : list (string * string)) (df : DataFrame)
    : result DataFrame :=
  match first_missing mapping.*1 (columns df) with
  | Some c => Err (ColumnNotFoundError c)
  | None =>
      let cols := map (rename_label mapping) (columns df) in
      match first_duplicate cols with
      | Some c => Err (DuplicateError c)
      | None =>
          Ok (mkDataFrame cols
                (map (rename_row mapping (columns df)) (rows df)))
      end
  end.

(** [df.drop(labels)] of polars. *)
Definition pl_drop (labels : list string) (df : DataFrame)
    : result DataFrame :=
  match first_missing labels (columns df) with
  | Some c => Err (ColumnNotFoundError c)
  | None =>
      Ok (mkDataFrame
            (filter (λ c, c ∉ labels) (columns df))
            (map (λ r : gmap string value,
                    filter (λ kv, kv.1 ∉ labels) r) (rows df)))
  end.

Definition preceding_names : list (string * string) :=
  [("local_y_preceding", "preceding_local_y");
   ("v_length_preceding", "preceding_v_length");
   ("v_width_preceding", "preceding_v_width");
   ("v_class_preceding", "preceding_v_class");
   ("v_vel_preceding", "preceding_v_vel");
   ("v_acc_preceding", "preceding_v_acc")].

Definition undesired_columns : list string :=
  ["total_frames"; "global_x"; "global_y"; "following"; "o_zone"; "d_zone";
   "int_id"; "section_id"; "direction"; "movement"].

Definition pruner_renamer (data_py : DataFrame) : result DataFrame :=
  data_py ← pl_rename preceding_names data_py;
  pl_drop undesired_columns data_py.

(** ** Lines 87-97: units and categories *)

(** [df.with_columns(f(pl.col(cols)))]: in every row the cells of the columns
    [cols] are replaced by their image under [f]; the labels stay. *)
Fixpoint update_cells (cols : list string)
    (f : string → value → result value) (r : gmap string value)
    : result (gmap string value) :=
  match cols with
  | [] => Ok r
  | c :: cols' =>
      v ← f c (cell c r);
      update_cells cols' f (<[c := v]> r)
  end.

Definition with_columns (cols : list string)
    (f : string → value → result value) (df : DataFrame)
    : result DataFrame :=
  match first_missing cols (columns df) with
  | Some c => Err (ColumnNotFoundError c)
  | None =>
      rs ← map_rows (update_cells cols f) (rows df);
      Ok (mkDataFrame (columns df) rs)
  end.

(** [expr * k] for a float literal [k]. *)
Definition pl_mul (k : float) (c : string) (v : value) : result value :=
  match v with
  | VNull => Ok VNull
  | VInt z => Ok (VFloat (fmul (float_of_int z) k))
  | VFloat x => Ok (VFloat (fmul x k))
  | VStr _ | VTime _ | VCat _ => Err (InvalidOperationError c)
  end.

(** [expr.round(decimals)]. *)
Definition pl_round (decimals : nat) (c : string) (v : value)
    : result value :=
  match v with
  | VNull => Ok VNull
  | VInt z => Ok (VInt z)
  | VFloat x => Ok (VFloat (fround decimals x))
  | VStr _ | VTime _ | VCat _ => Err (InvalidOperationError c)
  end.

(** [expr.cast(pl.String)]. *)
Definition cast_string (c : string) (v : value) : result value :=
  match v with
  | VNull => Ok VNull
  | VInt z => Ok (VStr (pretty z))
  | VFloat x => Ok (VStr (float_to_string x))
  | VStr s => Ok (VStr s)
  | VTime t => Ok (VStr (datetime_to_string t))
  | VCat s => Ok (VStr s)
  end.

(** [expr.cast(pl.Categorical)]. *)
Definition cast_categorical (c : string) (v : value) : result value :=
  match v with
  | VNull => Ok VNull
  | VStr s | VCat s => Ok (VCat s)
  | VInt _ | VFloat _ | VTime _ => Err (InvalidOperationError c)
  end.

Definition cols_to_convert_to_metric : list string :=
  ["local_x"; "local_y"; "v_length"; "v_width"; "v_vel"; "v_acc";
   "space_headway"; "preceding_local_y"; "preceding_v_length";
   "preceding_v_width"; "preceding_v_vel"; "preceding_v_acc"].

Definition to_metric (c : string) (v : value) : result value :=
  w ← pl_mul float_0_3048 c v;
  pl_round 2 c w.

Definition unit_converter (data_py : DataFrame) : result DataFrame :=
  with_columns cols_to_convert_to_metric to_metric data_py.

Definition cols_to_convert_to_categorical : list string :=
  ["vehicle_id"; "v_class"; "lane_id"; "preceding"; "preceding_v_class"].

Definition to_categorical (c : string) (v : value) : result value :=
  s ← cast_string c v;
  cast_categorical c s.

Definition categorical_caster (data_py : DataFrame) : result DataFrame :=
  with_columns cols_to_convert_to_categorical to_categorical data_py.

(** ** The script, lines 30 to 97 *)

Definition transform (data_py : DataFrame) : result DataFrame :=
  data_py ← add_actual_time data_py;
  data_py ← time_indexer data_py;
  data_py ← preceding_joiner data_py;
  data_py ← from_pandas data_py;
  data_py ← pruner_renamer data_py;
  data_py ← unit_converter data_py;
  categorical_caster data_py.

(** ** Lines 108-112: the table that is plotted *)

(** [pl.col(c) == s] for a string literal [s], on one cell: a string or a
    category is compared by its text; the comparison of a missing cell is
    missing; a number or a timestamp is not compared with a string. *)
Definition eq_literal (c s : string) (v : value) : result (option bool) :=
  match v with
  | VNull => Ok None
  | VStr x | VCat x => Ok (Some (bool_decide (x = s)))
  | VInt _ | VFloat _ | VTime _ => Err (InvalidOperationError c)
  end.

(** The rows of [l] on which [p] is true; a row on which it is missing is
    left out. *)
Fixpoint filter_rows (p : gmap string value → result (option bool))
    (l : list (gmap string value)) : result (list (gmap string value)) :=
  match l with
  | [] => Ok []
  | r :: l' =>
      b ← p r;
      k ← filter_rows p l';
      Ok (match b with Some true => r :: k | _ => k end)
  end.

(** [df.filter(pl.col(c) == s)]. *)
Definition pl_filter_eq (c s : string) (df : DataFrame) : result DataFrame :=
  if bool_decide (c ∈ columns df) then
    rs ← filter_rows (λ r, eq_literal c s (cell c r)) (rows df);
    Ok (mkDataFrame (columns df) rs)
  else Err (ColumnNotFoundError c).

Definition data_py_veh (data_py : DataFrame) : result DataFrame :=
  pl_filter_eq "vehicle_id" "2" data_py.

(** The columns the two [geom_path] layers map to x and to y. *)
Definition subject_path : string * string := ("time", "v_vel").
Definition preceding_path : string * string := ("time", " preceding_vel").

(** ** Vocabulary of the statements *)

(** Row [m] is the observation of the vehicle preceding the vehicle of row
    [l], in the frame of [l]. *)
Definition preceding_match (l m : gmap string value) : bool :=
  value_eqb (cell "frame_id" l) (cell "frame_id" m) &&
  value_eqb (cell "preceding" l) (cell "vehicle_id" m).

Definition preceding_rows (t : DataFrame) (l : gmap string value)
    : list (gmap string value) :=
  filter (λ m, preceding_match l m) (rows t).

(** Some row of [t] has no preceding observation in [t]. *)
Definition some_unmatched (t : DataFrame) : bool :=
  existsb (λ l, bool_decide (preceding_rows t l = [])) (rows t).

(** A cell whose order is fixed here: an integer, a string, a category or a
    missing value.  (The orders of floats and of timestamps are the
    library's.) *)
Definition ordered (v : value) : bool :=
  match v with
  | VFloat _ | VTime _ => false
  | VNull | VInt _ | VStr _ | VCat _ => true
  end.

(** The [time] of the row of position [i] in its group: [i / 10.0]. *)
Definition time_at (i : nat) : value :=
  VFloat (fdiv (float_of_int (Z.of_nat i)) float_10).

(** Row [r1] does not come after row [r2] in the order of the labels
    [keys]. *)
Definition row_le (keys : list string) (r1 r2 : gmap string value) : Prop :=
  row_compare keys r1 r2 ≠ Gt.

(** The cells of [r] in the columns [keys] are [ordered]. *)
Definition keys_ordered (keys : list string) (r : gmap string value) : Prop :=
  ∀ c, c ∈ keys → ordered (cell c r).

(** The columns of the preceding observation a row carries once the joined
    columns are renamed, with their labels in the final table. *)
Definition preceding_fields : list (string * string) :=
  [("local_x", "local_x_preceding"); ("local_y", "preceding_local_y");
   ("v_length", "preceding_v_length"); ("v_width", "preceding_v_width");
   ("v_class", "preceding_v_class"); ("v_vel", "preceding_v_vel");
   ("v_acc", "preceding_v_acc")].

(** In the join of table [s] with itself, [out] is the row [l] of [s] joined
    to the preceding observation [m] (to none when [m] is [None]): [out] has
    the cells of [l], and its preceding fields are the cells of [m], or are
    missing. *)
Definition joined (s : DataFrame) (l : gmap string value)
    (m : option (gmap string value)) (out : gmap string value) : Prop :=
  (∀ c, c ∈ columns s → c ≠ "vehicle_id_preceding" → cell c out = cell c l) ∧
  (∀ src dst, (src, dst) ∈ preceding_fields →
     cell dst out =
       match m with
       | Some r => na_upcast (some_unmatched s) (cell src r)
       | None => VNull
       end).

(** The labels of the NGSIM trajectory file, once cleaned. *)
Definition ngsim_columns : list string :=
  ["vehicle_id"; "frame_id"; "total_frames"; "global_time"; "local_x";
   "local_y"; "global_x"; "global_y"; "v_length"; "v_width"; "v_class";
   "v_vel"; "v_acc"; "lane_id"; "o_zone"; "d_zone"; "int_id"; "section_id";
   "direction"; "movement"; "preceding"; "following"; "space_headway"].

(** One observation of the NGSIM file: the time in milliseconds, the seven
    lengths, speeds and accelerations in feet, the class and the lane of the
    vehicle, and the cells of the ten columns the script drops. *)
Record observed := mkObserved {
  obs_global_time : Z;
  obs_local_x : float;
  obs_local_y : float;
  obs_v_length : float;
  obs_v_width : float;
  obs_v_vel : float;
  obs_v_acc : float;
  obs_space_headway : float;
  obs_v_class : Z;
  obs_lane_id : Z;
  obs_dropped : string → value;
}.

(** The row of vehicle [vehicle] in frame [frame], behind vehicle
    [preceding]. *)
Definition observed_row (vehicle frame preceding : Z) (o : observed)
    : gmap string value :=
  list_to_map
    [("vehicle_id", VInt vehicle); ("frame_id", VInt frame);
     ("total_frames", obs_dropped o "total_frames");
     ("global_time", VInt (obs_global_time o));
     ("local_x", VFloat (obs_local_x o)); ("local_y", VFloat (obs_local_y o));
     ("global_x", obs_dropped o "global_x");
     ("global_y", obs_dropped o "global_y");
     ("v_length", VFloat (obs_v_length o));
     ("v_width", VFloat (obs_v_width o));
     ("v_class", VInt (obs_v_class o)); ("v_vel", VFloat (obs_v_vel o));
     ("v_acc", VFloat (obs_v_acc o)); ("lane_id", VInt (obs_lane_id o));
     ("o_zone", obs_dropped o "o_zone"); ("d_zone", obs_dropped o "d_zone");
     ("int_id", obs_dropped o "int_id");
     ("section_id", obs_dropped o "section_id");
     ("direction", obs_dropped o "direction");
     ("movement", obs_dropped o "movement"); ("preceding", VInt preceding);
     ("following", obs_dropped o "following");
     ("space_headway", VFloat (obs_space_headway o))].

(** The rows of the end-to-end scenario: vehicles 1 and 2 in the frames 0, 1
    and 2; vehicle 2 is behind vehicle 1 in every frame, vehicle 1 behind
    vehicle [p].  [o v f] is what is observed of vehicle [v] in frame [f]. *)
Definition scenario (o : Z → Z → observed) (p : Z)
    : list (gmap string value) :=
  [observed_row 1 0 p (o 1 0); observed_row 1 1 p (o 1 1);
   observed_row 1 2 p (o 1 2); observed_row 2 0 1 (o 2 0);
   observed_row 2 1 1 (o 2 1); observed_row 2 2 1 (o 2 2)].

(** No two rows of [l] agree on all the labels [keys]. *)
Fixpoint keys_distinct (keys : list string) (l : list (gmap string value))
    : bool :=
  match l with
  | [] => true
  | x :: l' =>
      forallb (λ y, match row_compare keys x y with
                    | Eq => false
                    | _ => true
                    end) l' &&
      keys_distinct keys l'
  end.

(** The script up to the unit conversion, lines 30 to 92. *)
Definition upto_units (data_py : DataFrame) : result DataFrame :=
  data_py ← add_actual_time data_py;
  data_py ← time_indexer data_py;
  data_py ← preceding_joiner data_py;
  data_py ← from_pandas data_py;
  data_py ← pruner_renamer data_py;
  unit_converter data_py.

(** A number of feet [x] after the unit conversion. *)
Definition metres (x : float) : value :=
  VFloat (fround 2 (fmul x float_0_3048)).

(** The table a run returned (the empty table when it raised). *)
Definition table_of (m : result DataFrame) : DataFrame :=
  match m with
  | Ok t => t
  | Err _ => mkDataFrame [] []
  end.

(** [actual_time] in the words of the specification: [global_time], a number
    of milliseconds since the Unix epoch, divided by 1000 to seconds, as a UTC
    timestamp, shown in US Pacific time. *)
Definition pacific_time (global_time : value) : option value :=
  match global_time with
  | VNull => Some VNull
  | VInt ms =>
      Some (VTime (tz_convert "America/Los_Angeles"
                     (to_datetime (fdiv (float_of_int ms) (float_of_int 1000)))))
  | VFloat ms =>
      Some (VTime (tz_convert "America/Los_Angeles"
                     (to_datetime (fdiv ms (float_of_int 1000)))))
  | VStr _ | VTime _ | VCat _ => None
  end.

(** The columns the join takes from the preceding observation, with the
    labels the join gives them. *)
Definition joined_labels : list (string * string) :=
  [("vehicle_id", "vehicle_id_preceding"); ("local_x", "local_x_preceding");
   ("local_y", "local_y_preceding"); ("v_length", "v_length_preceding");
   ("v_width", "v_width_preceding"); ("v_class", "v_class_preceding");
   ("v_vel", "v_vel_preceding"); ("v_acc", "v_acc_preceding")].

(** A cell of numbers: an integer, a float or a missing value. *)
Definition numeric (v : value) : bool :=
  match v with
  | VNull | VInt _ | VFloat _ => true
  | VStr _ | VTime _ | VCat _ => false
  end.

(** An integer or a missing value. *)
Definition int_or_null (v : value) : bool :=
  match v with
  | VNull | VInt _ => true
  | VFloat _ | VStr _ | VTime _ | VCat _ => false
  end.

(** Row [r] agrees with row [r0] on the labels [keys]. *)
Definition same_keys (keys : list string) (r0 r : gmap string value) : bool :=
  match row_compare keys r r0 with Eq => true | _ => false end.

(** Row [r] has a vehicle id. *)
Definition has_vehicle (r : gmap string value) : bool :=
  negb (is_null (cell "vehicle_id" r)).

(** The row holds the integer [z] as its vehicle id. *)
Definition vehicle_is (z : Z) (r : gmap string value) : bool :=
  match cell "vehicle_id" r with
  | VInt z' => bool_decide (z' = z)
  | _ => false
  end.

(** The labels the script adds to those of the table it is given. *)
Definition added_columns : list string :=
  ["actual_time"; "time"; "local_x_preceding"; "preceding_local_y";
   "preceding_v_length"; "preceding_v_width"; "preceding_v_class";
   "preceding_v_vel"; "preceding_v_acc"].

(** The labels of the final table for a table of the NGSIM labels. *)
Definition transformed_columns : list string :=
  ["vehicle_id"; "frame_id"; "global_time"; "local_x"; "local_y"; "v_length";
   "v_width"; "v_class"; "v_vel"; "v_acc"; "lane_id"; "preceding";
   "space_headway"; "actual_time"; "time"; "local_x_preceding";
   "preceding_local_y"; "preceding_v_length"; "preceding_v_width";
   "preceding_v_class"; "preceding_v_vel"; "preceding_v_acc"].

End Transform.

(** ** An implementation of the library operations

    IEEE binary64 arithmetic on the kernel's floats, to run the script on
    tables of examples. *)
Module Binary64.

(** int64 to the nearest float64. *)
Definition of_int (z : Z) : PrimFloat.float :=
  if z <? 0 then PrimFloat.opp (PrimFloat.of_uint63 (Uint63.of_Z (- z)))
  else PrimFloat.of_uint63 (Uint63.of_Z z).

(** Rounding to the nearest integer, halves away from zero. *)
Definition round_half_away (x : PrimFloat.float) : PrimFloat.float :=
  match Prim2SF x with
  | S754_finite s m e =>
      if 0 <=? e then x
      else
        let d := 2 ^ (- e) in
        let q := Z.pos m / d in
        let r := Z.pos m mod d in
        let y := PrimFloat.of_uint63 (Uint63.of_Z (if d <=? 2 * r then q + 1 else q)) in
        if s then PrimFloat.opp y else y
  | _ => x
  end.

Fixpoint pow10 (d : nat) : PrimFloat.float :=
  match d with
  | O => 1%float
  | S d' => PrimFloat.mul 10%float (pow10 d')
  end.

(** polars rounds to [d] decimals by scaling with [10^d], rounding to an
    integer and scaling back. *)
Definition round (d : nat) (x : PrimFloat.float) : PrimFloat.float :=
  match d with
  | O => round_half_away x
  | _ => PrimFloat.div (round_half_away (PrimFloat.mul x (pow10 d))) (pow10 d)
  end.

(** NaN is the missing value of pandas, [VNull] in a table, so the operands
    are comparable. *)
Definition compare (x y : PrimFloat.float) : comparison :=
  match PrimFloat.compare x y with
  | FLt => Lt
  | FGt => Gt
  | FEq | FNotComparable => Eq
  end.

(** A timestamp: an instant, in seconds since the epoch, and the zone it is
    shown in.  Converting the zone keeps the instant. *)
Record timestamp := mkTimestamp {
  instant : PrimFloat.float;
  zone : string;
}.

(** The decimal digits of [n] on at least [k] places. *)
Definition digits (k : nat) (n : Z) : string :=
  let s := pretty n in
  String.concat "" (replicate (k - String.length s) "0") ++ s.

(** A float in decimal: an integral value as [n.0], as polars prints it;
    any other value with all the digits of its binary fraction. *)
Definition to_string (x : PrimFloat.float) : string :=
  match Prim2SF x with
  | S754_zero s => if s then "-0.0" else "0.0"
  | S754_infinity s => if s then "-inf" else "inf"
  | S754_nan => "NaN"
  | S754_finite s m e =>
      (if s then "-" else "") +:+
      (if 0 <=? e then pretty (Z.pos m * 2 ^ e) +:+ ".0"
       else
         let k := Z.to_nat (- e) in
         let d := 2 ^ (- e) in
         if Z.pos m mod d =? 0 then pretty (Z.pos m / d) +:+ ".0"
         else pretty (Z.pos m / d) +:+ "." +:+ digits k ((Z.pos m mod d) * 5 ^ (- e)))
  end.

Global Instance lib : Lib := {|
  float := PrimFloat.float;
  datetime := timestamp;
  float_of_int := of_int;
  fdiv := PrimFloat.div;
  fmul := PrimFloat.mul;
  fround := round;
  fcompare := compare;
  float_10 := 10%float;
  float_0_3048 := 0x1.381d7dbf487fdp-2%float;
  to_datetime := λ x, mkTimestamp x "UTC";
  tz_convert := λ z t, mkTimestamp (instant t) z;
  tcompare := λ s t, compare (instant s) (instant t);
  float_to_string := to_string;
  datetime_to_string := λ t, to_string (instant t) +:+ " " +:+ zone t;
|}.

(** A row from its cells. *)
Definition row (cells : list (string * value)) : gmap string value :=
  list_to_map cells.

(** The float in column [c] of row [i] of table [t], when there is one. *)
Definition float_at (t : DataFrame) (i : nat) (c : string)
    : option PrimFloat.float :=
  match cell c <$> rows t !! i with
  | Some (VFloat x) => Some x
  | _ => None
  end.


End Binary64.


(** ** A table of examples *)
Module Example.
Import Binary64.

(** One observation: vehicle [vehicle] in frame [frame], behind vehicle
    [preceding] (0: behind none), at [local_y] feet and [vel] feet per
    second. *)
Definition observation (vehicle frame preceding : Z)
    (local_y vel : PrimFloat.float) : gmap string value :=
  row [("vehicle_id", VInt vehicle); ("frame_id", VInt frame);
       ("total_frames", VInt 3);
       ("global_time", VInt (1113433135300 + 100 * frame));
       ("local_x", VFloat 16.5%float); ("local_y", VFloat local_y);
       ("global_x", VFloat 6451137.5%float); ("global_y", VFloat 1873344.75%float);
       ("v_length", VFloat 14.5%float); ("v_width", VFloat 4.75%float);
       ("v_class", VInt 2); ("v_vel", VFloat vel); ("v_acc", VFloat 0%float);
       ("lane_id", VInt 2); ("o_zone", VNull); ("d_zone", VNull);
       ("int_id", VNull); ("section_id", VNull); ("direction", VNull);
       ("movement", VNull); ("preceding", VInt preceding);
       ("following", VInt (if preceding =? 0 then 2 else 0));
       ("space_headway", VFloat (if preceding =? 0 then 0%float else 50%float))].

(** Vehicle 2 follows vehicle 1 over the frames 0, 1 and 2; the rows are not
    in order. *)
Definition two_vehicles : DataFrame :=
  mkDataFrame ngsim_columns
    [observation 2 1 1 104%float 41%float; observation 1 0 0 150%float 40%float;
     observation 2 0 1 100%float 39.5%float; observation 1 2 0 158%float 42%float;
     observation 2 2 1 108.5%float 43%float; observation 1 1 0 154%float 40.25%float].

(** The table of the example as the unit converter receives it. *)
Definition in_feet : result DataFrame :=
  a ← add_actual_time two_vehicles;
  s ← time_indexer a;
  j ← preceding_joiner s;
  p ← from_pandas j;
  pruner_renamer p.

(** What is observed in the end-to-end scenario: vehicle [v] in frame [f]
    moves at [40 + v + f] feet per second. *)
Definition observations (v f : Z) : observed :=
  mkObserved (1113433135300 + 100 * f) 16.5%float
    (of_int (150 - 50 * v + 4 * f)) 14.5%float 4.75%float
    (of_int (40 + v + f)) 0%float 50%float 2 2 (λ _, VNull).

End Example.

(** * Properties *)

Section Properties.
Context {L : Lib}.
Implicit Types (df t : DataFrame) (r : gmap string value) (c : string).

(** ** The result monad and the label checks *)

Lemma bind_Ok {A B} (m : result A) (f : A → result B) (b : B) :
  m ≫= f = Ok b ↔ ∃ a, m = Ok a ∧ f a = Ok b.
Proof.
  destruct m as [a|e]; simpl; split.
  - eauto.
  - by intros (? & [= <-] & ?).
  - done.
  - by intros (? & [=] & _).
Qed.

Lemma map_rows_Ok {A B} (f : A → result B) (l : list A) (k : list B) :
  map_rows f l = Ok k ↔ Forall2 (λ x y, f x = Ok y) l k.
Proof.
  revert k. induction l as [|x l IH]; intros k; simpl.
  - split; [intros [= <-]; constructor | by inv 1].
  - split.
    + intros (y & Hy & (k' & Hk' & [= <-])%bind_Ok)%bind_Ok.
      constructor; [done | by apply IH].
    + inv 1 as [|? y ? k' Hy Hk']. apply IH in Hk'.
      unfold mbind, result_bind. by rewrite Hy, Hk'.
Qed.

Lemma map_rows_total {A B} (f : A → result B) (g : A → B) (l : list A) :
  Forall (λ x, f x = Ok (g x)) l → map_rows f l = Ok (map g l).
Proof.
  intros H. apply map_rows_Ok. induction H; simpl; by constructor.
Qed.

Lemma first_missing_None (wanted have : list string) :
  first_missing wanted have = None ↔ ∀ c, c ∈ wanted → c ∈ have.
Proof.
  unfold first_missing. rewrite head_None. split.
  - intros H c Hc. destruct (decide (c ∈ have)) as [|Hn]; [done|].
    assert (c ∈ filter (λ c, c ∉ have) wanted) as Hin
      by (by apply list_elem_of_filter).
    rewrite H in Hin. by apply elem_of_nil in Hin.
  - intros H. induction wanted as [|c w IH]; [done|].
    rewrite filter_cons_False.
    + apply IH. intros; apply H. by right.
    + intros Hn. apply Hn, H. by left.
Qed.

Lemma first_missing_Some (wanted have : list string) c :
  first_missing wanted have = Some c → c ∈ wanted ∧ c ∉ have.
Proof.
  unfold first_missing. intros H%head_Some_elem_of.
  apply list_elem_of_filter in H. tauto.
Qed.


Lemma first_duplicate_None (l : list string) :
  first_duplicate l = None ↔ NoDup l.
Proof.
  induction l as [|c l IH]; simpl.
  - split; [constructor | done].
  - rewrite NoDup_cons. case_bool_decide; [|rewrite IH]; naive_solver.
Qed.

(** ** The labels after each step *)

Lemma assign_Ok dst src f t t' :
  assign dst src f t = Ok t' ↔
  src ∈ columns t ∧
  ∃ rs, Forall2 (λ r r', ∃ v, f (cell src r) = Ok v ∧ r' = <[dst := v]> r)
          (rows t) rs ∧
        t' = mkDataFrame (add_label dst (columns t)) rs.
Proof.
  unfold assign. case_bool_decide as Hsrc; [|naive_solver].
  rewrite bind_Ok. setoid_rewrite map_rows_Ok.
  split.
  - intros (rs & Hrs & [= <-]). split; [done|]. exists rs. split; [|done].
    eapply Forall2_impl; [done|]. simpl. intros r r'.
    intros (v & ? & [= <-])%bind_Ok. eauto.
  - intros (_ & rs & Hrs & ->). exists rs. split; [|done].
    eapply Forall2_impl; [done|]. simpl. intros r r' (v & Hv & ->).
    by rewrite Hv.
Qed.

Lemma with_columns_Ok cols f t t' :
  with_columns cols f t = Ok t' ↔
  (∀ c, c ∈ cols → c ∈ columns t) ∧
  ∃ rs, Forall2 (λ r r', update_cells cols f r = Ok r') (rows t) rs ∧
        t' = mkDataFrame (columns t) rs.
Proof.
  unfold with_columns.
  destruct (first_missing cols (columns t)) as [c|] eqn:E.
  - apply first_missing_Some in E. naive_solver.
  - rewrite first_missing_None in E. rewrite bind_Ok.
    setoid_rewrite map_rows_Ok. naive_solver.
Qed.

Lemma pl_drop_Ok labels t t' :
  pl_drop labels t = Ok t' ↔
  (∀ c, c ∈ labels → c ∈ columns t) ∧
  t' = mkDataFrame (filter (λ c, c ∉ labels) (columns t))
         (map (λ r, filter (λ kv, kv.1 ∉ labels) r) (rows t)).
Proof.
  unfold pl_drop. destruct (first_missing labels (columns t)) as [c|] eqn:E.
  - apply first_missing_Some in E. naive_solver.
  - rewrite first_missing_None in E. naive_solver.
Qed.

Lemma pd_drop_Ok labels t t' :
  pd_drop labels t = Ok t' ↔
  (∀ c, c ∈ labels → c ∈ columns t) ∧
  t' = mkDataFrame (filter (λ c, c ∉ labels) (columns t))
         (map (λ r, filter (λ kv, kv.1 ∉ labels) r) (rows t)).
Proof.
  unfold pd_drop. destruct (first_missing labels (columns t)) as [c|] eqn:E.
  - apply first_missing_Some in E. naive_solver.
  - rewrite first_missing_None in E. naive_solver.
Qed.

Lemma pl_rename_Ok mapping t t' :
  pl_rename mapping t = Ok t' ↔
  (∀ c, c ∈ mapping.*1 → c ∈ columns t) ∧
  NoDup (map (rename_label mapping) (columns t)) ∧
  t' = mkDataFrame (map (rename_label mapping) (columns t))
         (map (rename_row mapping (columns t)) (rows t)).
Proof.
  unfold pl_rename.
  destruct (first_missing mapping.*1 (columns t)) as [c|] eqn:E.
  - apply first_missing_Some in E. naive_solver.
  - rewrite first_missing_None in E.
    destruct (first_duplicate _) as [c|] eqn:D.
    + assert (¬ NoDup (map (rename_label mapping) (columns t))).
      { rewrite <-first_duplicate_None. congruence. }
      naive_solver.
    + apply first_duplicate_None in D. naive_solver.
Qed.

Lemma pruner_renamer_Ok t t' :
  pruner_renamer t = Ok t' ↔
  ∃ p, pl_rename preceding_names t = Ok p ∧ pl_drop undesired_columns p = Ok t'.
Proof. unfold pruner_renamer. apply bind_Ok. Qed.

Lemma transform_Ok data_py final :
  transform data_py = Ok final ↔
  ∃ a s j p q u,
    add_actual_time data_py = Ok a ∧ time_indexer a = Ok s ∧
    preceding_joiner s = Ok j ∧ from_pandas j = Ok p ∧
    pruner_renamer p = Ok q ∧ unit_converter q = Ok u ∧
    categorical_caster u = Ok final.
Proof.
  unfold transform. repeat setoid_rewrite bind_Ok. naive_solver.
Qed.

Lemma unit_converter_columns t t' :
  unit_converter t = Ok t' → columns t' = columns t.
Proof. intros (_ & rs & _ & ->)%with_columns_Ok. done. Qed.

Lemma categorical_caster_columns t t' :
  categorical_caster t = Ok t' → columns t' = columns t.
Proof. intros (_ & rs & _ & ->)%with_columns_Ok. done. Qed.

Lemma from_pandas_Ok t t' :
  from_pandas t = Ok t' ↔ NoDup (columns t) ∧ t' = t.
Proof.
  unfold from_pandas. destruct (first_duplicate _) as [c|] eqn:D.
  - assert (¬ NoDup (columns t)) by (rewrite <-first_duplicate_None; congruence).
    naive_solver.
  - apply first_duplicate_None in D. naive_solver.
Qed.

Lemma pruner_renamer_columns t t' :
  pruner_renamer t = Ok t' →
  columns t' =
    filter (λ c, c ∉ undesired_columns)
      (map (rename_label preceding_names) (columns t)).
Proof.
  intros (p & (_ & _ & ->)%pl_rename_Ok & (_ & ->)%pl_drop_Ok)%pruner_renamer_Ok.
  done.
Qed.

(** ** Cells *)

Lemma cell_insert_eq c v r : cell c (<[c := v]> r) = v.
Proof. unfold cell. by rewrite lookup_insert_eq. Qed.

Lemma cell_insert_ne c c' v r : c ≠ c' → cell c' (<[c := v]> r) = cell c' r.
Proof. intros. unfold cell. by rewrite lookup_insert_ne. Qed.

Lemma cell_drop (labels : list string) c r :
  c ∉ labels → cell c (filter (λ kv, kv.1 ∉ labels) r) = cell c r.
Proof.
  intros Hc. unfold cell. rewrite map_lookup_filter.
  destruct (r !! c) as [v|]; simpl; [|done].
  by rewrite option_guard_True.
Qed.

Lemma cell_loc (labels : list string) c r :
  c ∈ labels → cell c (filter (λ kv, kv.1 ∈ labels) r) = cell c r.
Proof.
  intros Hc. unfold cell. rewrite map_lookup_filter.
  destruct (r !! c) as [v|]; simpl; [|done].
  by rewrite option_guard_True.
Qed.

Lemma na_upcast_float fill x : na_upcast fill (VFloat x) = VFloat x.
Proof. done. Qed.

Lemma na_upcast_no_fill v : na_upcast false v = v.
Proof. by destruct v. Qed.

(** ** The join *)

Lemma merge_row_other out fill l m c :
  c ∉ out.*2 → cell c (merge_row out fill l m) = cell c l.
Proof.
  unfold merge_row. induction out as [|[src dst] out IH]; simpl; [done|].
  intros [? ?]%not_elem_of_cons. rewrite cell_insert_ne by done. auto.
Qed.

Lemma merge_row_added out fill l m src dst :
  NoDup out.*2 → (src, dst) ∈ out →
  cell dst (merge_row out fill l m) =
    match m with
    | Some r => na_upcast fill (cell src r)
    | None => VNull
    end.
Proof.
  unfold merge_row. induction out as [|[src' dst'] out IH]; simpl.
  { by intros _ ?%elem_of_nil. }
  intros [Hn Hd]%NoDup_cons [[= <- <-]|Hin]%elem_of_cons.
  - by rewrite cell_insert_eq.
  - rewrite cell_insert_ne; [by apply IH|].
    intros <-. apply Hn. by apply (list_elem_of_fmap_2 snd) in Hin.
Qed.

Lemma suffixed_in left suffix c :
  c ∈ columns left → suffixed left suffix c = c +:+ suffix.
Proof. intros. unfold suffixed. by rewrite bool_decide_eq_true_2. Qed.

Lemma keys_match_preceding l m :
  keys_match ["frame_id"; "preceding"] ["frame_id"; "vehicle_id"] l
    (filter (λ kv, kv.1 ∈ right_columns) m) = preceding_match l m.
Proof.
  unfold keys_match, preceding_match. simpl.
  rewrite !cell_loc by (unfold right_columns; set_solver).
  by rewrite andb_true_r.
Qed.

Lemma filter_map_loc l (rs : list (gmap string value)) :
  filter (λ m, keys_match ["frame_id"; "preceding"] ["frame_id"; "vehicle_id"] l m)
    (map (λ r, filter (λ kv, kv.1 ∈ right_columns) r) rs) =
  map (λ r, filter (λ kv, kv.1 ∈ right_columns) r)
    (filter (λ m, preceding_match l m) rs).
Proof.
  induction rs as [|m rs IH]; [done|]. simpl.
  rewrite !filter_cons, keys_match_preceding, IH.
  by destruct (decide (preceding_match l m)).
Qed.

Lemma merge_left_preceding s :
  (∀ c, c ∈ "preceding" :: right_columns → c ∈ columns s) →
  merge_left s
    (mkDataFrame right_columns (map (λ r, filter (λ kv, kv.1 ∈ right_columns) r) (rows s)))
    ["frame_id"; "preceding"] ["frame_id"; "vehicle_id"] "_preceding" =
  Ok (mkDataFrame (columns s ++ joined_labels.*2)
        (flat_map (λ l,
           match preceding_rows s l with
           | [] => [merge_row joined_labels (some_unmatched s) l None]
           | ms => map (λ m, merge_row joined_labels (some_unmatched s) l
                               (Some (filter (λ kv, kv.1 ∈ right_columns) m))) ms
           end) (rows s))).
Proof.
  intros Hs. unfold merge_left.
  destruct (first_missing ["frame_id"; "preceding"] (columns s)) as [c|] eqn:E.
  { apply first_missing_Some in E as [E1 E2]. destruct E2. apply Hs.
    unfold right_columns. set_solver. }
  clear E. simpl columns at 1.
  replace (first_missing ["frame_id"; "vehicle_id"] right_columns) with (@None string)
    by (symmetry; apply first_missing_None; unfold right_columns; set_solver).
  set (right := mkDataFrame right_columns _).
  assert (map (λ c, (c, suffixed s "_preceding" c))
            (right_labels ["frame_id"; "preceding"] ["frame_id"; "vehicle_id"]
               right) = joined_labels) as ->.
  { unfold right_labels. simpl columns.
    replace (filter _ right_columns) with (tail right_columns) by (by vm_compute).
    simpl. rewrite !suffixed_in by (apply Hs; unfold right_columns; set_solver).
    done. }
  assert (∀ l, filter (λ m, keys_match ["frame_id"; "preceding"]
                             ["frame_id"; "vehicle_id"] l m) (rows right)
               = map (λ r, filter (λ kv, kv.1 ∈ right_columns) r) (preceding_rows s l))
    as Hm by (intros; apply filter_map_loc).
  assert (existsb (λ l, bool_decide
             (filter (λ m, keys_match ["frame_id"; "preceding"]
                             ["frame_id"; "vehicle_id"] l m) (rows right) = []))
            (rows s) = some_unmatched s) as ->.
  { unfold some_unmatched.
    enough (∀ ls, existsb (λ l, bool_decide
             (filter (λ m, keys_match ["frame_id"; "preceding"]
                             ["frame_id"; "vehicle_id"] l m) (rows right) = []))
              ls = existsb (λ l, bool_decide (preceding_rows s l = [])) ls)
      by done.
    intros ls. induction ls as [|l ls IH]; [done|].
    cbn [existsb]. rewrite IH, Hm. f_equal. apply bool_decide_ext.
    by destruct (preceding_rows s l). }
  do 2 f_equal. apply flat_map_ext. intros l. rewrite Hm.
  destruct (preceding_rows s l) as [|m ms]; [done|].
  cbn [map]. f_equal. by rewrite map_map.
Qed.
Lemma merge_left_keys left right left_on right_on suffix m :
  merge_left left right left_on right_on suffix = Ok m →
  ∀ c, c ∈ left_on → c ∈ columns left.
Proof.
  unfold merge_left.
  destruct (first_missing left_on (columns left)) eqn:E; [done|].
  intros _. by apply first_missing_None.
Qed.

Lemma preceding_joiner_Ok s j :
  preceding_joiner s = Ok j ↔
  (∀ c, c ∈ "preceding" :: right_columns → c ∈ columns s) ∧
  j = mkDataFrame
        (filter (λ c, c ∉ ["vehicle_id_preceding"])
           (columns s ++ joined_labels.*2))
        (map (λ r, filter (λ kv, kv.1 ∉ ["vehicle_id_preceding"]) r)
           (flat_map (λ l,
              match preceding_rows s l with
              | [] => [merge_row joined_labels (some_unmatched s) l None]
              | ms => map (λ m, merge_row joined_labels (some_unmatched s) l
                                  (Some (filter (λ kv, kv.1 ∈ right_columns) m))) ms
              end) (rows s))).
Proof.
  unfold preceding_joiner. rewrite bind_Ok. unfold loc_columns. fold right_columns.
  destruct (first_missing right_columns (columns s)) as [c|] eqn:E.
  { apply first_missing_Some in E. split; [naive_solver|].
    intros [H _]. destruct E as [E1 E2]. destruct E2. apply H. by right. }
  rewrite first_missing_None in E. split.
  - intros (a & [= <-] & (m & Hm & Hd)%bind_Ok).
    assert (∀ c, c ∈ "preceding" :: right_columns → c ∈ columns s) as Hs.
    { intros c [->|?]%elem_of_cons; [|by apply E].
      eapply merge_left_keys; [done|set_solver]. }
    split; [done|]. rewrite merge_left_preceding in Hm by done.
    injection Hm as <-. by apply pd_drop_Ok in Hd as [_ ->].
  - intros [Hs ->]. eexists. split; [done|].
    rewrite merge_left_preceding by done. simpl.
    apply pd_drop_Ok. split; [|done]. simpl.
    intros c ->%list_elem_of_singleton. set_solver.
Qed.

(** ** Renaming and pruning *)

Lemma rename_label_cases mapping c :
  rename_label mapping c = c ∨ (c, rename_label mapping c) ∈ mapping.
Proof.
  unfold rename_label.
  destruct (List.find _ mapping) as [[old new]|] eqn:E; [|by left].
  apply find_some in E as [Hin Heq]. apply bool_decide_eq_true in Heq.
  simpl in *. subst. right. by apply list_elem_of_In.
Qed.

Lemma undesired_not_renamed :
  Forall (λ c, (c ∉ preceding_names.*1) ∧ (c ∉ preceding_names.*2))
    undesired_columns.
Proof. apply (bool_decide_unpack _). by vm_compute. Qed.

Lemma undesired_before_rename cols c :
  c ∈ undesired_columns →
  c ∈ map (rename_label preceding_names) cols → c ∈ cols.
Proof.
  intros Hu (x & -> & Hx)%list_elem_of_fmap.
  destruct (rename_label_cases preceding_names x) as [->|Hin]; [done|].
  pose proof undesired_not_renamed as Hf. rewrite Forall_forall in Hf.
  destruct (proj2 (Hf _ Hu)). by apply (list_elem_of_fmap_2 snd) in Hin.
Qed.

(** C9.  The renaming and pruning step returns an error, and so no table,
    whenever a column it renames or drops is absent: the error names an
    absent column, unless the new labels clash; the step returns a table only
    if all sixteen columns are present. *)
Theorem pruner_renamer_absent_column t :
  ((∃ c, c ∈ preceding_names.*1 ++ undesired_columns ∧ c ∉ columns t) →
   ∃ e, pruner_renamer t = Err e ∧
     ((∃ c, e = ColumnNotFoundError c ∧
            c ∈ preceding_names.*1 ++ undesired_columns ∧ c ∉ columns t) ∨
      (∃ c, e = DuplicateError c ∧
            ¬ NoDup (map (rename_label preceding_names) (columns t))))) ∧
  (∀ t', pruner_renamer t = Ok t' →
     ∀ c, c ∈ preceding_names.*1 ++ undesired_columns → c ∈ columns t).
Proof.
  split.
  - intros (c & Hc & Hn). unfold pruner_renamer, pl_rename.
    destruct (first_missing preceding_names.*1 (columns t)) as [c0|] eqn:E.
    { apply first_missing_Some in E as [? ?]. eexists. split; [done|].
      left. exists c0. split_and!; [done| |done]. apply elem_of_app; auto. }
    rewrite first_missing_None in E.
    apply elem_of_app in Hc as [Hc|Hc]; [by apply E in Hc|].
    destruct (first_duplicate _) as [d|] eqn:D.
    { eexists. split; [done|]. right. exists d. split; [done|].
      rewrite <-first_duplicate_None. congruence. }
    cbn [mbind result_bind]. unfold pl_drop. cbn [columns].
    destruct (first_missing undesired_columns _) as [c0|] eqn:E'.
    + apply first_missing_Some in E' as [? Hc0]. eexists. split; [done|].
      left. exists c0. split_and!; [done|apply elem_of_app; auto|].
      intros Hin. apply Hc0. apply list_elem_of_fmap. exists c0.
      split; [|done].
      destruct (rename_label_cases preceding_names c0) as [->|Hp]; [done|].
      pose proof undesired_not_renamed as Hf. rewrite Forall_forall in Hf.
      destruct (proj1 (Hf _ H)). by apply (list_elem_of_fmap_2 fst) in Hp.
    + rewrite first_missing_None in E'. destruct Hn.
      eapply undesired_before_rename; eauto.
  - intros t' (p & (Hk & _ & ->)%pl_rename_Ok & (Hd & _)%pl_drop_Ok)%pruner_renamer_Ok.
    intros c [Hc|Hc]%elem_of_app; [by apply Hk|].
    eapply undesired_before_rename; eauto.
Qed.

Lemma preceding_joiner_columns s j :
  preceding_joiner s = Ok j →
  columns j =
    filter (λ c, c ∉ ["vehicle_id_preceding"]) (columns s) ++
    tail (joined_labels.*2).
Proof.
  intros [_ ->]%preceding_joiner_Ok. cbn [columns].
  rewrite filter_app. f_equal.
Qed.

(** The labels of the final table, from those of the joined table. *)
Lemma final_columns p q u final :
  pruner_renamer p = Ok q → unit_converter q = Ok u →
  categorical_caster u = Ok final →
  columns final =
    filter (λ c, c ∉ undesired_columns)
      (map (rename_label preceding_names) (columns p)).
Proof.
  intros Hq Hu Hf. rewrite (categorical_caster_columns _ _ Hf).
  rewrite (unit_converter_columns _ _ Hu). by apply pruner_renamer_columns.
Qed.


(** C4, as the script has it.  The join creates the column
    [local_x_preceding]; no later line renames or drops it, so it is a label
    of the joined table and of the final table. *)
Theorem local_x_preceding_kept data_py final :
  transform data_py = Ok final →
  "local_x_preceding" ∈ columns final ∧
  ∃ s j, (add_actual_time data_py ≫= time_indexer) = Ok s ∧
         preceding_joiner s = Ok j ∧
         "local_x_preceding" ∈ columns j.
Proof.
  intros (a & s & j & p & q & u & Ha & Hs & Hj & Hp & Hq & Hu & Hf)%transform_Ok.
  assert ("local_x_preceding" ∈ columns j) as Hin.
  { rewrite (preceding_joiner_columns _ _ Hj). apply elem_of_app. right.
    apply (bool_decide_unpack _). by vm_compute. }
  split.
  - rewrite (final_columns _ _ _ _ Hq Hu Hf).
    apply from_pandas_Ok in Hp as [_ ->].
    apply list_elem_of_filter. split.
    { apply (bool_decide_unpack _). by vm_compute. }
    apply list_elem_of_fmap. exists "local_x_preceding". split; [|done].
    by vm_compute.
  - exists s, j. split_and!; [|done..]. by rewrite Ha.
Qed.

(** ** Column-wise updates *)

Lemma map_rows_is_Ok {A B} (f : A → result B) (l : list A) :
  Forall (λ x, ∃ y, f x = Ok y) l → ∃ k, map_rows f l = Ok k.
Proof.
  induction 1 as [|x l [y Hy] _ [k Hk]]; simpl; [by eexists|].
  exists (y :: k). unfold mbind, result_bind. by rewrite Hy, Hk.
Qed.

Lemma update_cells_Ok cols f r r' :
  NoDup cols → update_cells cols f r = Ok r' →
  (∀ c, c ∈ cols → f c (cell c r) = Ok (cell c r')) ∧
  (∀ c, c ∉ cols → r' !! c = r !! c).
Proof.
  intros Hnd. revert r. induction Hnd as [|c cols Hc Hnd IH]; intros r; simpl.
  { intros [= <-]. split; [by intros ? ?%elem_of_nil | done]. }
  intros (v & Hv & Hr)%bind_Ok. apply IH in Hr as [Hin Hout]. split.
  - intros c' [->|Hc']%elem_of_cons.
    + rewrite Hv. f_equal. unfold cell.
      by rewrite (Hout _ Hc), lookup_insert_eq.
    + rewrite <-(Hin _ Hc'), cell_insert_ne; [done|]. by intros ->.
  - intros c' [? ?]%not_elem_of_cons.
    by rewrite (Hout c'), lookup_insert_ne.
Qed.

Lemma update_cells_is_Ok cols f r :
  NoDup cols → (∀ c, c ∈ cols → ∃ v, f c (cell c r) = Ok v) →
  ∃ r', update_cells cols f r = Ok r'.
Proof.
  intros Hnd. revert r. induction Hnd as [|c cols Hc Hnd IH]; intros r Hf; simpl.
  { by eexists. }
  destruct (Hf c) as [v Hv]; [by left|]. rewrite Hv. simpl. apply IH.
  intros c' Hc'. rewrite cell_insert_ne by (by intros ->).
  apply Hf. by right.
Qed.

Lemma with_columns_is_Ok cols f t :
  (∀ c, c ∈ cols → c ∈ columns t) →
  Forall (λ r, ∃ r', update_cells cols f r = Ok r') (rows t) →
  ∃ t', with_columns cols f t = Ok t'.
Proof.
  intros Hc [rs Hrs]%map_rows_is_Ok. eexists. apply with_columns_Ok.
  split; [done|]. exists rs. by rewrite <-map_rows_Ok.
Qed.

Lemma cols_to_convert_to_metric_NoDup : NoDup cols_to_convert_to_metric.
Proof. apply (bool_decide_unpack _). by vm_compute. Qed.

Lemma cols_to_convert_to_categorical_NoDup :
  NoDup cols_to_convert_to_categorical.
Proof. apply (bool_decide_unpack _). by vm_compute. Qed.

(** What [unit_converter] does to the rows. *)
Lemma unit_converter_rows t t' :
  unit_converter t = Ok t' →
  Forall2 (λ r r',
    (∀ c, c ∈ cols_to_convert_to_metric →
          to_metric c (cell c r) = Ok (cell c r')) ∧
    (∀ c, c ∉ cols_to_convert_to_metric → r' !! c = r !! c))
    (rows t) (rows t').
Proof.
  intros (_ & rs & Hrs & ->)%with_columns_Ok. simpl.
  eapply Forall2_impl; [done|]. intros r r'.
  apply update_cells_Ok, cols_to_convert_to_metric_NoDup.
Qed.

Lemma categorical_caster_rows t t' :
  categorical_caster t = Ok t' →
  Forall2 (λ r r',
    (∀ c, c ∈ cols_to_convert_to_categorical →
          to_categorical c (cell c r) = Ok (cell c r')) ∧
    (∀ c, c ∉ cols_to_convert_to_categorical → r' !! c = r !! c))
    (rows t) (rows t').
Proof.
  intros (_ & rs & Hrs & ->)%with_columns_Ok. simpl.
  eapply Forall2_impl; [done|]. intros r r'.
  apply update_cells_Ok, cols_to_convert_to_categorical_NoDup.
Qed.

Lemma to_metric_Ok c v w :
  to_metric c v = Ok w ↔
  (v = VNull ∧ w = VNull) ∨
  (∃ x, v = VFloat x ∧ w = VFloat (fround 2 (fmul x float_0_3048))) ∨
  (∃ z, v = VInt z ∧
        w = VFloat (fround 2 (fmul (float_of_int z) float_0_3048))).
Proof.
  unfold to_metric.
  destruct v; simpl; (split; [intros H | intros [[? ?]|[(? & ? & ?)|(? & ? & ?)]]]);
    simplify_eq/=; eauto 10.
Qed.


(** Converting a converted table: it succeeds, and a number [v] of a listed
    column has become [round (round (v * 0.3048) 2 * 0.3048) 2]. *)
Lemma unit_converter_twice t t1 :
  unit_converter t = Ok t1 →
  ∃ t2, unit_converter t1 = Ok t2 ∧
    Forall2 (λ r r2, ∀ c, c ∈ cols_to_convert_to_metric →
      (cell c r = VNull → cell c r2 = VNull) ∧
      (∀ x, cell c r = VFloat x →
            cell c r2 =
              VFloat (fround 2 (fmul (fround 2 (fmul x float_0_3048))
                                  float_0_3048))) ∧
      (∀ z, cell c r = VInt z →
            cell c r2 =
              VFloat (fround 2
                        (fmul (fround 2 (fmul (float_of_int z) float_0_3048))
                           float_0_3048))))
      (rows t) (rows t2).
Proof.
  intros Ht. pose proof (unit_converter_rows _ _ Ht) as H1.
  assert (∃ t2, unit_converter t1 = Ok t2) as [t2 Ht2].
  { apply with_columns_is_Ok.
    - apply with_columns_Ok in Ht as (Hc & rs & _ & ->). done.
    - eapply Forall2_Forall_r; [done|]. apply Forall_true.
      intros r r' [Hin _].
      apply update_cells_is_Ok; [apply cols_to_convert_to_metric_NoDup|].
      intros c Hc. specialize (Hin c Hc). apply to_metric_Ok in Hin.
      destruct Hin as [[_ ->]|[(x & _ & ->)|(z & _ & ->)]]; by eexists. }
  exists t2. split; [done|].
  pose proof (unit_converter_rows _ _ Ht2) as H2.
  eapply Forall2_trans; [|done..].
  intros r r1 r2 [Hr1 _] [Hr2 _] c Hc. simpl.
  specialize (Hr1 c Hc). specialize (Hr2 c Hc).
  apply to_metric_Ok in Hr1, Hr2.
  destruct Hr1 as [[E1 E2]|[(x & E1 & E2)|(z & E1 & E2)]];
    rewrite E1; rewrite E2 in Hr2;
    destruct Hr2 as [[? ->]|[(x' & ? & ->)|(z' & ? & ->)]];
    simplify_eq; split_and!; intros; by simplify_eq.
Qed.


(** ** The timestamp *)

Lemma add_label_in c cols : c ∈ add_label c cols.
Proof.
  unfold add_label. case_bool_decide; [done|]. apply elem_of_app. right.
  by apply list_elem_of_singleton.
Qed.

Lemma add_label_old c c' cols : c' ∈ cols → c' ∈ add_label c cols.
Proof.
  unfold add_label. case_bool_decide; [done|]. intros. apply elem_of_app.
  by left.
Qed.

Lemma add_label_idemp c cols : add_label c (add_label c cols) = add_label c cols.
Proof.
  unfold add_label at 1. by rewrite bool_decide_eq_true_2 by apply add_label_in.
Qed.

Lemma actual_time_cell v w :
  (truediv_1000 v ≫= pd_to_datetime) ≫= dt_tz_convert "America/Los_Angeles"
    = Ok w ↔ pacific_time v = Some w.
Proof. destruct v; simpl; split; intros; by simplify_eq. Qed.

Lemma add_actual_time_Ok t t' :
  add_actual_time t = Ok t' ↔
  "global_time" ∈ columns t ∧
  ∃ rs, Forall2 (λ r r', ∃ v, pacific_time (cell "global_time" r) = Some v ∧
                              r' = <["actual_time" := v]> r) (rows t) rs ∧
        t' = mkDataFrame (add_label "actual_time" (columns t)) rs.
Proof.
  unfold add_actual_time. rewrite bind_Ok. setoid_rewrite assign_Ok. split.
  - intros (a & (Hg & rs1 & H1 & ->) & _ & rs2 & H2 & ->). split; [done|].
    exists rs2. cbn [columns rows] in *. rewrite add_label_idemp.
    split; [|done]. eapply Forall2_trans; [|done..]. cbn beta.
    intros r r1 r2 (v1 & Hv1 & ->) (v2 & Hv2 & ->).
    rewrite cell_insert_eq in Hv2. exists v2.
    rewrite insert_insert_eq. split; [|done].
    apply actual_time_cell. apply bind_Ok in Hv1 as (s & Hs & Hv1).
    unfold mbind, result_bind. by rewrite Hs, Hv1.
  - intros (Hg & rs & Hrs & ->).
    set (utc v := match truediv_1000 v ≫= pd_to_datetime with
                  | Ok w => w
                  | Err _ => VNull
                  end).
    exists (mkDataFrame (add_label "actual_time" (columns t))
              (map (λ r, <["actual_time" := utc (cell "global_time" r)]> r)
                 (rows t))).
    cbn [columns rows]. rewrite add_label_idemp.
    split_and!; [done| |apply add_label_in|].
    + eexists. split; [|done]. apply Forall2_fmap_r, Forall_Forall2_diag.
      eapply Forall2_Forall_l; [done|]. apply Forall_true.
      intros r' r (v & Hv & _). eexists. split; [|done].
      apply actual_time_cell in Hv. subst utc. cbn beta.
      apply bind_Ok in Hv as (w & Hw & _). rewrite Hw. exact Hw.
    + exists rs. split; [|done]. apply Forall2_fmap_l.
      eapply Forall2_impl; [done|]. cbn beta.
      intros r r' (v & Hv & ->). exists v.
      rewrite cell_insert_eq, insert_insert_eq. split; [|done].
      apply actual_time_cell in Hv. subst utc. cbn beta.
      apply bind_Ok in Hv as (w & Hw & Hv). by rewrite Hw.
Qed.

(** C8.  When the step returns a table, its labels are those of the input
    with [actual_time], and every row is the input row with one cell set:
    [actual_time] is the Pacific time of the row's own [global_time], and
    every other cell is the cell of the input row. *)
Theorem actual_time_from_global_time t t' :
  add_actual_time t = Ok t' →
  columns t' = add_label "actual_time" (columns t) ∧
  Forall2 (λ r r',
    pacific_time (cell "global_time" r) = Some (cell "actual_time" r') ∧
    ∀ c, c ≠ "actual_time" → r' !! c = r !! c)
    (rows t) (rows t').
Proof.
  intros (_ & rs & Hrs & ->)%add_actual_time_Ok. split; [done|].
  cbn [rows]. eapply Forall2_impl; [done|]. cbn beta.
  intros r r' (v & Hv & ->). rewrite cell_insert_eq. split; [done|].
  intros c Hc. by rewrite lookup_insert_ne.
Qed.

(** ** The order of cells and of rows *)

Lemma ascii_compare_refl a : Ascii.compare a a = Eq.
Proof. apply N.compare_refl. Qed.

Lemma string_compare_refl s : String.compare s s = Eq.
Proof. induction s as [|a s IH]; simpl; [done|]. by rewrite ascii_compare_refl. Qed.

Lemma string_compare_lt_trans s1 s2 s3 :
  String.compare s1 s2 = Lt → String.compare s2 s3 = Lt →
  String.compare s1 s3 = Lt.
Proof.
  revert s2 s3. induction s1 as [|a s1 IH]; intros [|b s2] [|c s3]; simpl;
    try done.
  destruct (Ascii.compare a b) eqn:Eab; [|clear IH|done];
    (destruct (Ascii.compare b c) eqn:Ebc; [| |done]).
  - apply Ascii.compare_eq_iff in Eab as ->. rewrite Ebc. apply IH.
  - apply Ascii.compare_eq_iff in Eab as ->. by rewrite Ebc.
  - apply Ascii.compare_eq_iff in Ebc as <-. by rewrite Eab.
  - unfold Ascii.compare in *. rewrite N.compare_lt_iff in Eab, Ebc.
    replace (N.compare _ _) with Lt; [done|].
    symmetry. apply N.compare_lt_iff. by etrans.
Qed.

Lemma value_compare_refl a : ordered a → value_compare a a = Eq.
Proof.
  destruct a; simpl; try done; intros _;
    auto using Z.compare_refl, string_compare_refl.
Qed.

Lemma value_compare_eq a b :
  ordered a → ordered b → value_compare a b = Eq → a = b.
Proof.
  destruct a, b; simpl; try done; intros _ _ H.
  - by apply Z.compare_eq in H as ->.
  - by apply String.compare_eq_iff in H as ->.
  - by apply String.compare_eq_iff in H as ->.
Qed.

Lemma value_compare_antisym a b :
  ordered a → ordered b → value_compare b a = CompOpp (value_compare a b).
Proof.
  destruct a, b; simpl; try done; intros _ _;
    auto using Z.compare_antisym, String.compare_antisym.
Qed.

Lemma value_compare_lt_trans (a b d : value) :
  ordered a → ordered b → ordered d →
  value_compare a b = Lt → value_compare b d = Lt → value_compare a d = Lt.
Proof.
  destruct a, b, d; simpl; try done; intros _ _ _.
  - rewrite !Z.compare_lt_iff. lia.
  - apply string_compare_lt_trans.
  - apply string_compare_lt_trans.
Qed.

Lemma value_eqb_eq a b : ordered a → ordered b → value_eqb a b ↔ a = b.
Proof.
  intros Ha Hb. unfold value_eqb. split.
  - destruct (value_compare a b) eqn:E; [|done..]. intros _.
    by apply value_compare_eq.
  - intros <-. by rewrite value_compare_refl.
Qed.

Lemma keys_ordered_cons c keys r :
  keys_ordered (c :: keys) r ↔ ordered (cell c r) ∧ keys_ordered keys r.
Proof. unfold keys_ordered. set_solver. Qed.

Lemma row_compare_ext_l keys r1 r1' r2 :
  (∀ c, c ∈ keys → cell c r1 = cell c r1') →
  row_compare keys r1 r2 = row_compare keys r1' r2.
Proof.
  induction keys as [|c keys IH]; intros H; simpl; [done|].
  rewrite (H c) by (by left). rewrite IH; [done|]. intros; apply H. by right.
Qed.

Lemma row_compare_ext_r keys r1 r2 r2' :
  (∀ c, c ∈ keys → cell c r2 = cell c r2') →
  row_compare keys r1 r2 = row_compare keys r1 r2'.
Proof.
  induction keys as [|c keys IH]; intros H; simpl; [done|].
  rewrite (H c) by (by left). rewrite IH; [done|]. intros; apply H. by right.
Qed.

Lemma row_compare_eq keys r1 r2 :
  keys_ordered keys r1 → keys_ordered keys r2 →
  row_compare keys r1 r2 = Eq → ∀ c, c ∈ keys → cell c r1 = cell c r2.
Proof.
  induction keys as [|c keys IH]; simpl.
  { by intros _ _ _ c ?%elem_of_nil. }
  intros [H1 K1]%keys_ordered_cons [H2 K2]%keys_ordered_cons.
  destruct (value_compare _ _) eqn:E; [|done..].
  intros Hr c' [->|Hc']%elem_of_cons; [by apply value_compare_eq|by apply IH].
Qed.

Lemma row_compare_antisym keys r1 r2 :
  keys_ordered keys r1 → keys_ordered keys r2 →
  row_compare keys r2 r1 = CompOpp (row_compare keys r1 r2).
Proof.
  induction keys as [|c keys IH]; simpl; [done|].
  intros [H1 K1]%keys_ordered_cons [H2 K2]%keys_ordered_cons.
  rewrite (value_compare_antisym (cell c r1) (cell c r2)) by done.
  destruct (value_compare (cell c r1) (cell c r2)); simpl; auto.
Qed.

Lemma row_compare_lt_trans keys r1 r2 r3 :
  keys_ordered keys r1 → keys_ordered keys r2 → keys_ordered keys r3 →
  row_compare keys r1 r2 = Lt → row_compare keys r2 r3 = Lt →
  row_compare keys r1 r3 = Lt.
Proof.
  induction keys as [|c keys IH]; simpl; [done|].
  intros [H1 K1]%keys_ordered_cons [H2 K2]%keys_ordered_cons
    [H3 K3]%keys_ordered_cons.
  destruct (value_compare (cell c r1) (cell c r2)) eqn:E12; [| |done];
    (destruct (value_compare (cell c r2) (cell c r3)) eqn:E23; [| |done]).
  - apply value_compare_eq in E12 as ->; [|done..]. rewrite E23. by apply IH.
  - apply value_compare_eq in E12 as ->; [|done..]. by rewrite E23.
  - apply value_compare_eq in E23 as <-; [|done..]. by rewrite E12.
  - by rewrite (value_compare_lt_trans _ _ _ H1 H2 H3 E12 E23).
Qed.

Lemma row_le_trans keys r1 r2 r3 :
  keys_ordered keys r1 → keys_ordered keys r2 → keys_ordered keys r3 →
  row_le keys r1 r2 → row_le keys r2 r3 → row_le keys r1 r3.
Proof.
  unfold row_le. intros K1 K2 K3 H12 H23.
  destruct (row_compare keys r1 r2) eqn:E12; [| |done].
  - rewrite (row_compare_ext_l _ r1 r2); [done|]. by apply row_compare_eq.
  - destruct (row_compare keys r2 r3) eqn:E23; [| |done].
    + rewrite <-(row_compare_ext_r _ r1 r2 r3), E12; [done|].
      by apply row_compare_eq.
    + by rewrite (row_compare_lt_trans _ _ _ _ K1 K2 K3 E12 E23).
Qed.

(** ** Sorting *)

Lemma insert_row_perm keys r l : insert_row keys r l ≡ₚ r :: l.
Proof.
  induction l as [|x l IH]; simpl; [done|].
  destruct (row_compare keys r x); [done..|].
  rewrite IH. apply Permutation_swap.
Qed.

Lemma sort_rows_perm keys l : sort_rows keys l ≡ₚ l.
Proof.
  induction l as [|x l IH]; simpl; [done|].
  by rewrite insert_row_perm, IH.
Qed.

Lemma insert_row_sorted keys r l :
  keys_ordered keys r → Forall (keys_ordered keys) l →
  StronglySorted (row_le keys) l →
  StronglySorted (row_le keys) (insert_row keys r l).
Proof.
  intros Kr Kl Hs. induction Hs as [|x l Hs IH Hx]; simpl.
  { repeat constructor. }
  apply Forall_cons in Kl as [Kx Kl].
  destruct (row_compare keys r x) eqn:E.
  - constructor; [by constructor|]. constructor; [unfold row_le; congruence|].
    rewrite Forall_forall in Hx, Kl |- *. intros y Hy.
    apply (row_le_trans _ r x y); auto. unfold row_le. congruence.
  - constructor; [by constructor|]. constructor; [unfold row_le; congruence|].
    rewrite Forall_forall in Hx, Kl |- *. intros y Hy.
    apply (row_le_trans _ r x y); auto. unfold row_le. congruence.
  - constructor; [by apply IH|]. rewrite insert_row_perm.
    constructor; [|done]. unfold row_le.
    rewrite (row_compare_antisym _ r x), E by done. done.
Qed.

Lemma sort_rows_sorted keys l :
  Forall (keys_ordered keys) l → StronglySorted (row_le keys) (sort_rows keys l).
Proof.
  induction 1 as [|x l Kx Kl IH]; simpl; [constructor|].
  apply insert_row_sorted; [done| |done]. by rewrite sort_rows_perm.
Qed.

Lemma StronglySorted_filter {A} (R : relation A) (P : A → Prop)
    `{∀ x, Decision (P x)} l :
  StronglySorted R l → StronglySorted R (filter P l).
Proof.
  induction 1 as [|x l Hs IH Hx]; [constructor|].
  rewrite filter_cons. case_decide; [|done].
  constructor; [done|]. rewrite Forall_forall in Hx |- *.
  intros y [_ Hy]%list_elem_of_filter. auto.
Qed.

Lemma StronglySorted_impl {A} (R R' : relation A) (P : A → Prop) l :
  (∀ x y, P x → P y → R x y → R' x y) →
  Forall P l → StronglySorted R l → StronglySorted R' l.
Proof.
  intros HR HP Hs. induction Hs as [|x l Hs IH Hx]; [constructor|].
  apply Forall_cons in HP as [Px Pl]. constructor; [auto|].
  rewrite Forall_forall in Hx, Pl |- *. auto.
Qed.

(** ** Grouping *)

Lemma zip_with_seq {A B C} (f : A → B → C) (F : nat → B) (l : list A) n :
  zip_with f l (map F (seq n (length l))) = imap (λ i x, f x (F (n + i)%nat)) l.
Proof.
  revert n. induction l as [|x l IH]; intros n; simpl; [done|].
  rewrite Nat.add_0_r. f_equal. rewrite IH. apply imap_ext.
  intros i y _. simpl. by rewrite Nat.add_succ_r.
Qed.

Lemma calculate_time_elapsed_rows g :
  rows (calculate_time_elapsed g) =
    imap (λ i r, <["time" := time_at i]> r) (rows g).
Proof.
  unfold calculate_time_elapsed, setitem. cbn [rows].
  by rewrite (zip_with_seq _ (λ i : nat, VFloat _) (rows g) 0).
Qed.

Lemma group_rows_app key v (l1 l2 : list (gmap string value)) :
  group_rows key v (l1 ++ l2) = group_rows key v l1 ++ group_rows key v l2.
Proof. apply filter_app. Qed.

Lemma group_rows_in key v (rs : list (gmap string value)) r :
  ordered v → ordered (cell key r) →
  r ∈ group_rows key v rs ↔ cell key r = v ∧ r ∈ rs.
Proof.
  intros Hv Hr. unfold group_rows. rewrite list_elem_of_filter.
  by rewrite value_eqb_eq.
Qed.

Lemma group_rows_cons key v r (rs : list (gmap string value)) :
  group_rows key v (r :: rs) =
    if value_eqb (cell key r) v then r :: group_rows key v rs
    else group_rows key v rs.
Proof.
  unfold group_rows. rewrite filter_cons.
  destruct (value_eqb (cell key r) v); by case_decide.
Qed.

(** The rows of one group in the realigned result: what the function
    returned for the group, from the position reached. *)
Lemma realign_group key applied (seen todo : list (gmap string value)) v :
  ordered v → is_null v = false →
  Forall (λ r, ordered (cell key r)) todo →
  (∀ k, ordered k → Forall (λ r', cell key r' = k) (applied k)) →
  length (applied v) = length (group_rows key v (seen ++ todo)) →
  group_rows key v (realign key applied seen todo) =
    drop (length (group_rows key v seen)) (applied v).
Proof.
  intros Hv Hnull Htodo Happ. revert seen.
  induction Htodo as [|r todo Hr Htodo IH]; intros seen Hlen; simpl.
  { rewrite app_nil_r in Hlen. by rewrite drop_ge by lia. }
  rewrite cons_middle, app_assoc in Hlen. specialize (IH _ Hlen).
  rewrite group_rows_app, group_rows_cons in IH.
  assert (∀ r', r' ∈ applied (cell key r) →
            value_eqb (cell key r') v = value_eqb (cell key r) v) as Hk.
  { intros r' Hr'. pose proof (Happ _ Hr) as Hf.
    rewrite Forall_forall in Hf. by rewrite (Hf r'). }
  destruct (value_eqb (cell key r) v) eqn:Heq.
  - assert (cell key r = v) as Hrv by (apply value_eqb_eq; [done..|by rewrite Heq]).
    rewrite Hrv in *. rewrite Hnull.
    rewrite length_app in IH. simpl in IH. rewrite Nat.add_1_r in IH.
    destruct (applied v !! length (group_rows key v seen)) as [r'|] eqn:E.
    + rewrite group_rows_cons, Hk by (by eapply list_elem_of_lookup_2).
      rewrite IH. symmetry. by apply drop_S.
    + apply lookup_ge_None in E. rewrite IH. by rewrite !drop_ge by lia.
  - rewrite app_nil_r in IH.
    destruct (is_null (cell key r)); [done|].
    destruct (applied (cell key r) !! _) as [r'|] eqn:E; [|done].
    by rewrite group_rows_cons, Hk by (by eapply list_elem_of_lookup_2).
Qed.

Lemma keys_ordered_check keys (rs : list (gmap string value)) :
  forallb (λ r, forallb (λ c, ordered (cell c r)) keys) rs = true →
  Forall (keys_ordered keys) rs.
Proof.
  rewrite forallb_forall, Forall_forall. intros H r Hr c Hc.
  apply list_elem_of_In, H in Hr. rewrite forallb_forall in Hr.
  apply Is_true_true, Hr. by apply list_elem_of_In.
Qed.

Lemma sort_values_Ok keys t t' :
  sort_values keys t = Ok t' ↔
  (∀ c, c ∈ keys → c ∈ columns t) ∧
  t' = mkDataFrame (columns t) (sort_rows keys (rows t)).
Proof.
  unfold sort_values. destruct (first_missing keys (columns t)) as [c|] eqn:E.
  - apply first_missing_Some in E. naive_solver.
  - rewrite first_missing_None in E. naive_solver.
Qed.

Lemma groupby_apply_rows key f t t' :
  groupby_apply key f t = Ok t' →
  rows t' =
    realign key
      (λ k, rows (f (mkDataFrame (columns t) (group_rows key k (rows t)))))
      [] (rows t).
Proof. unfold groupby_apply. case_bool_decide; [|done]. by intros [= <-]. Qed.

Lemma realign_ext key applied applied' (seen todo : list (gmap string value)) :
  (∀ k, applied k = applied' k) →
  realign key applied seen todo = realign key applied' seen todo.
Proof.
  intros H. revert seen. induction todo as [|r todo IH]; intros seen; simpl;
    [done|].
  by rewrite IH, H.
Qed.

Lemma time_indexer_Ok t t' :
  time_indexer t = Ok t' →
  rows t' =
    realign "vehicle_id"
      (λ k, imap (λ i r, <["time" := time_at i]> r)
              (group_rows "vehicle_id" k
                 (sort_rows ["vehicle_id"; "frame_id"] (rows t))))
      [] (sort_rows ["vehicle_id"; "frame_id"] (rows t)).
Proof.
  intros (s & [_ ->]%sort_values_Ok & Hg)%bind_Ok.
  apply groupby_apply_rows in Hg. rewrite Hg. cbn [rows columns].
  apply realign_ext. intros k. by rewrite calculate_time_elapsed_rows.
Qed.

(** The rows of one vehicle after [time_indexer]: its rows in the sorted
    table, the i-th with [time] set to [i / 10.0]. *)
Lemma time_indexer_group t t' v :
  time_indexer t = Ok t' →
  Forall (λ r, ordered (cell "vehicle_id" r)) (rows t) →
  ordered v → is_null v = false →
  group_rows "vehicle_id" v (rows t') =
    imap (λ i r, <["time" := time_at i]> r)
      (group_rows "vehicle_id" v
         (sort_rows ["vehicle_id"; "frame_id"] (rows t))).
Proof.
  intros Ht Hord Hv Hnull. rewrite (time_indexer_Ok _ _ Ht).
  set (srt := sort_rows _ _).
  assert (Forall (λ r, ordered (cell "vehicle_id" r)) srt) as Hsrt.
  { subst srt. by rewrite sort_rows_perm. }
  rewrite (realign_group _ _ [] srt v); [done..| |].
  - intros k Hk. apply Forall_forall. intros r' Hr'.
    apply list_elem_of_lookup in Hr' as [i Hi].
    rewrite list_lookup_imap in Hi.
    destruct (group_rows "vehicle_id" k srt !! i) as [r|] eqn:E; [|done].
    simpl in Hi. injection Hi as <-. rewrite cell_insert_ne by done.
    apply list_elem_of_lookup_2 in E. apply group_rows_in in E as [? _]; [done..|].
    rewrite Forall_forall in Hsrt. apply Hsrt.
    unfold group_rows in E. by apply list_elem_of_filter in E as [_ ?].
  - by rewrite length_imap.
Qed.

(** C1.  After the table is sorted by (vehicle_id, frame_id) and grouped by
    vehicle_id, the rows of a vehicle [v] in the result are its rows of the
    input, in ascending order of frame_id, the i-th (from 0) with [time] set
    to [i / 10.0], whatever the frame_id values are; so the [time] values of
    the vehicle, by frame, are 0/10, 1/10, 2/10, ... without a gap, and a
    vehicle with one row gets 0/10. *)
Theorem time_is_position_in_vehicle data_py t' v :
  time_indexer data_py = Ok t' →
  Forall (keys_ordered ["vehicle_id"; "frame_id"]) (rows data_py) →
  ordered v → is_null v = false →
  ∃ g,
    g ≡ₚ group_rows "vehicle_id" v (rows data_py) ∧
    StronglySorted
      (λ r1 r2, value_compare (cell "frame_id" r1) (cell "frame_id" r2) ≠ Gt)
      g ∧
    group_rows "vehicle_id" v (rows t') =
      imap (λ i r, <["time" := time_at i]> r) g ∧
    (∀ i r', group_rows "vehicle_id" v (rows t') !! i = Some r' →
             cell "time" r' = time_at i) ∧
    (∀ r, g = [r] →
          group_rows "vehicle_id" v (rows t') = [<["time" := time_at 0]> r]).
Proof.
  intros Ht Hord Hv Hnull.
  set (keys := ["vehicle_id"; "frame_id"]) in *.
  exists (group_rows "vehicle_id" v (sort_rows keys (rows data_py))).
  assert (group_rows "vehicle_id" v (rows t') =
          imap (λ i r, <["time" := time_at i]> r)
            (group_rows "vehicle_id" v (sort_rows keys (rows data_py)))) as Hg.
  { apply time_indexer_group; [done| |done..].
    eapply Forall_impl; [done|]. intros r Hr. apply Hr. by left. }
  split_and!.
  - unfold group_rows. by rewrite sort_rows_perm.
  - assert (Forall (keys_ordered keys) (sort_rows keys (rows data_py))) as Hs
      by (by rewrite sort_rows_perm).
    eapply (StronglySorted_impl (row_le keys) _
              (λ r, keys_ordered keys r ∧ cell "vehicle_id" r = v)).
    + intros x y [Kx Hx] [Ky Hy]. unfold row_le. simpl.
      rewrite Hx, Hy, value_compare_refl by done.
      by destruct (value_compare (cell "frame_id" x) (cell "frame_id" y)).
    + apply Forall_forall. intros r Hr.
      assert (r ∈ sort_rows keys (rows data_py)) as Hin.
      { unfold group_rows in Hr. by apply list_elem_of_filter in Hr as [_ ?]. }
      rewrite Forall_forall in Hs. split; [by apply Hs|].
      apply group_rows_in in Hr as [? _]; [done..|].
      apply (Hs r Hin). by left.
    + apply StronglySorted_filter, sort_rows_sorted, Hord.
  - done.
  - intros i r'. rewrite Hg, list_lookup_imap.
    destruct (_ !! i) as [r|]; [|done]. simpl. intros [= <-].
    by rewrite cell_insert_eq.
  - intros r Hr. by rewrite Hg, Hr.
Qed.

(** ** The joined and renamed rows *)

Lemma rename_row_cell mapping cols r c :
  NoDup (map (rename_label mapping) cols) → c ∈ cols →
  cell (rename_label mapping c) (rename_row mapping cols r) = cell c r.
Proof.
  unfold rename_row. induction cols as [|c' cols IH]; simpl.
  { by intros _ ?%elem_of_nil. }
  intros [Hn Hd]%NoDup_cons [->|Hc]%elem_of_cons.
  - by rewrite cell_insert_eq.
  - rewrite cell_insert_ne; [by apply IH|].
    intros Heq. apply Hn. rewrite Heq. by apply list_elem_of_fmap_2.
Qed.

Lemma preceding_fields_eq :
  preceding_fields =
    map (λ sm, (sm.1, rename_label preceding_names sm.2)) (tail joined_labels).
Proof. done. Qed.

Lemma joined_labels_facts :
  NoDup joined_labels.*2 ∧
  Forall (λ sm, sm.2 ≠ "vehicle_id_preceding" ∧ sm.1 ∈ right_columns)
    (tail joined_labels) ∧
  Forall (λ c, c ∈ tail (joined_labels.*2)) preceding_names.*1.
Proof. split_and!; apply (bool_decide_unpack _); by vm_compute. Qed.

Lemma joined_row s l m :
  let cols :=
    filter (λ c, c ∉ ["vehicle_id_preceding"]) (columns s ++ joined_labels.*2) in
  NoDup cols → NoDup (map (rename_label preceding_names) cols) →
  joined s l m
    (rename_row preceding_names cols
       (filter (λ kv, kv.1 ∉ ["vehicle_id_preceding"])
          (merge_row joined_labels (some_unmatched s) l
             (filter (λ kv, kv.1 ∈ right_columns) <$> m)))).
Proof.
  intros cols Hnd Hrn.
  destruct joined_labels_facts as (Hjl & Htl & Hpn).
  rewrite Forall_forall in Htl. rewrite Forall_forall in Hpn.
  assert (cols = filter (λ c, c ∉ ["vehicle_id_preceding"]) (columns s) ++
                 tail (joined_labels.*2)) as Hcols
    by (subst cols; by rewrite filter_app).
  split.
  - intros c Hc Hvip.
    assert (c ∈ cols) as Hin.
    { rewrite Hcols. apply elem_of_app. left. apply list_elem_of_filter.
      split; [|done]. by intros ->%list_elem_of_singleton. }
    assert (c ∉ tail (joined_labels.*2)) as Hnt.
    { intros Ht. rewrite Hcols in Hnd. apply NoDup_app in Hnd as (_ & Hd & _).
      apply (Hd c); [|done]. apply list_elem_of_filter. split; [|done].
      by intros ->%list_elem_of_singleton. }
    assert (rename_label preceding_names c = c) as Hid.
    { destruct (rename_label_cases preceding_names c) as [?|Hp]; [done|].
      destruct Hnt. apply Hpn. by apply (list_elem_of_fmap_2 fst) in Hp. }
    rewrite <-Hid at 1. rewrite rename_row_cell by done.
    rewrite cell_drop by (by intros ->%list_elem_of_singleton).
    apply merge_row_other. intros [->|?]%elem_of_cons; done.
  - intros src dst.
    rewrite preceding_fields_eq. intros ([src' mid] & [= -> ->] & Hin)%list_elem_of_fmap.
    destruct (Htl _ Hin) as [Hvip Hsrc]. cbn [fst snd] in *.
    assert (mid ∈ cols) as Hmid.
    { rewrite Hcols. apply elem_of_app. right.
      by apply (list_elem_of_fmap_2 snd) in Hin. }
    rewrite rename_row_cell by done.
    rewrite cell_drop by (by intros ->%list_elem_of_singleton).
    rewrite (merge_row_added _ _ _ _ src');
      [|done|unfold joined_labels; right; exact Hin].
    destruct m as [r|]; simpl; [|done]. by rewrite cell_loc.
Qed.

(** The rows after the join, the drop of [vehicle_id_preceding] and the
    renaming, from the rows of the table that was joined. *)
Lemma joined_renamed_rows s j p q :
  preceding_joiner s = Ok j → from_pandas j = Ok p →
  pl_rename preceding_names p = Ok q →
  ∃ J : gmap string value → option (gmap string value) → gmap string value,
    (∀ l m, joined s l m (J l m)) ∧
    rows q =
      flat_map (λ l,
        match preceding_rows s l with
        | [] => [J l None]
        | ms => map (λ m, J l (Some m)) ms
        end) (rows s).
Proof.
  intros [_ ->]%preceding_joiner_Ok [Hnd ->]%from_pandas_Ok
    (_ & Hrn & ->)%pl_rename_Ok.
  cbn [columns rows] in *.
  eexists (λ l m, rename_row preceding_names _
                    (filter (λ kv, kv.1 ∉ ["vehicle_id_preceding"])
                       (merge_row joined_labels (some_unmatched s) l
                          (filter (λ kv, kv.1 ∈ right_columns) <$> m)))).
  split; [intros l m; by apply joined_row|].
  rewrite map_map, !flat_map_concat_map, concat_map, map_map. f_equal.
  apply map_ext. intros l. destruct (preceding_rows s l) as [|m ms]; [done|].
  cbn [map]. by rewrite map_map.
Qed.


(** ** From the joined table to the final table *)






(** ** The order of the input rows *)

Lemma keys_distinct_eq keys (l : list (gmap string value)) x y :
  keys_distinct keys l = true → Forall (keys_ordered keys) l →
  x ∈ l → y ∈ l → row_compare keys x y = Eq → x = y.
Proof.
  induction l as [|z l IH]; simpl; [by intros _ _ ?%elem_of_nil|].
  intros [Hz Hl]%andb_true_iff [Kz Kl]%Forall_cons.
  rewrite forallb_forall in Hz.
  assert (∀ w, w ∈ l → row_compare keys z w ≠ Eq) as Hne.
  { intros w Hw%list_elem_of_In%Hz. by destruct (row_compare keys z w). }
  pose proof (proj1 (Forall_forall _ _) Kl) as Kl'.
  intros [->|Hx]%elem_of_cons [->|Hy]%elem_of_cons E; [done| | |by apply IH].
  - by apply Hne in E.
  - destruct (Hne x Hx). rewrite (row_compare_antisym keys x z) by auto.
    by rewrite E.
Qed.

Lemma keys_distinct_map keys (G : gmap string value → gmap string value)
    (l : list (gmap string value)) :
  (∀ r c, c ∈ keys → cell c (G r) = cell c r) →
  keys_distinct keys (map G l) = keys_distinct keys l.
Proof.
  intros HG. induction l as [|x l IH]; simpl; [done|]. rewrite IH. f_equal.
  clear IH. induction l as [|y l IH]; simpl; [done|]. rewrite IH. f_equal.
  rewrite (row_compare_ext_l keys (G x) x), (row_compare_ext_r keys x (G y) y);
    auto.
Qed.

Lemma sort_rows_unique keys (l1 l2 : list (gmap string value)) :
  l1 ≡ₚ l2 → Forall (keys_ordered keys) l2 → keys_distinct keys l2 = true →
  sort_rows keys l1 = sort_rows keys l2.
Proof.
  intros Hp Ko Hd.
  apply (StronglySorted_unique_strong (row_le keys)).
  - intros x y Hx Hy Hxy Hyx. rewrite sort_rows_perm in Hx, Hy.
    rewrite Hp in Hx. rewrite Forall_forall in Ko.
    apply (keys_distinct_eq keys l2); [done|by apply Forall_forall|done..|].
    unfold row_le in *. rewrite (row_compare_antisym keys x y) in Hyx by auto.
    by destruct (row_compare keys x y).
  - apply sort_rows_sorted. by rewrite Hp.
  - by apply sort_rows_sorted.
  - by rewrite !sort_rows_perm.
Qed.

(** The row with its [actual_time]. *)
Lemma add_actual_time_map t :
  "global_time" ∈ columns t →
  Forall (λ r, is_Some (pacific_time (cell "global_time" r))) (rows t) →
  add_actual_time t =
    Ok (mkDataFrame (add_label "actual_time" (columns t))
          (map (λ r, <["actual_time" :=
                         default VNull (pacific_time (cell "global_time" r))]> r)
             (rows t))).
Proof.
  intros Hg Hr. apply add_actual_time_Ok. split; [done|]. eexists.
  split; [|done]. apply Forall2_fmap_r, Forall_Forall2_diag.
  eapply Forall_impl; [done|]. cbn beta. intros r [v Hv]. exists v.
  by rewrite Hv.
Qed.

(** When no two rows have the same (vehicle_id, frame_id), the order of the
    rows of the input does not matter. *)
Lemma transform_perm cols (rs1 rs2 : list (gmap string value)) :
  rs1 ≡ₚ rs2 → "global_time" ∈ cols →
  Forall (λ r, is_Some (pacific_time (cell "global_time" r))) rs2 →
  Forall (keys_ordered ["vehicle_id"; "frame_id"]) rs2 →
  keys_distinct ["vehicle_id"; "frame_id"] rs2 = true →
  add_actual_time (mkDataFrame cols rs1) ≫= time_indexer =
  add_actual_time (mkDataFrame cols rs2) ≫= time_indexer.
Proof.
  intros Hp Hg Ht Ko Hd.
  assert (Forall (λ r, is_Some (pacific_time (cell "global_time" r))) rs1)
    as Ht1 by (by rewrite Hp).
  rewrite !add_actual_time_map by done. cbn [columns rows].
  set (G := λ r, <["actual_time" := _]> r).
  cbn [mbind result_bind]. unfold time_indexer, sort_values.
  cbn [columns rows].
  assert (∀ r c, c ∈ ["vehicle_id"; "frame_id"] → cell c (G r) = cell c r)
    as HG.
  { intros r c Hc. subst G. cbn beta. apply cell_insert_ne.
    intros <-. set_solver. }
  rewrite (sort_rows_unique _ (map G rs1) (map G rs2)); [done| | |].
  - by apply Permutation_map.
  - apply Forall_map. eapply Forall_impl; [done|]. cbn beta.
    intros r Hr c Hc. rewrite HG by done. by apply Hr.
  - by rewrite keys_distinct_map.
Qed.

(** ** The end-to-end scenario *)

Lemma table_of_Ok (m : result DataFrame) : is_ok m = true → m = Ok (table_of m).
Proof. by destruct m. Qed.

Lemma transform_upto_units t :
  transform t = upto_units t ≫= categorical_caster.
Proof.
  unfold transform, upto_units.
  destruct (add_actual_time t) as [a|]; [|done]. cbn [mbind result_bind].
  destruct (time_indexer a) as [s|]; [|done]. cbn [mbind result_bind].
  destruct (preceding_joiner s) as [j|]; [|done]. cbn [mbind result_bind].
  destruct (from_pandas j) as [p|]; [|done]. cbn [mbind result_bind].
  by destruct (pruner_renamer p).
Qed.

Lemma to_categorical_total c v : ∃ w, to_categorical c v = Ok w.
Proof. destruct v; by eexists. Qed.

Lemma categorical_caster_is_Ok t :
  (∀ c, c ∈ cols_to_convert_to_categorical → c ∈ columns t) →
  ∃ t', categorical_caster t = Ok t'.
Proof.
  intros Hc. apply with_columns_is_Ok; [done|]. apply Forall_true. intros r.
  apply update_cells_is_Ok; [apply cols_to_convert_to_categorical_NoDup|].
  intros c _. apply to_categorical_total.
Qed.

(** The scenario, in its canonical order, at the end of the unit
    conversion. *)
Lemma scenario_in_metres o p :
  let u := upto_units (mkDataFrame ngsim_columns (scenario o p)) in
  is_ok u = true ∧
  forallb (λ c, bool_decide (c ∈ columns (table_of u)))
    cols_to_convert_to_categorical = true ∧
  map (λ r, map (λ c, cell c r) ["vehicle_id"; "frame_id"; "time"; "v_vel"])
    (rows (table_of u)) =
    [[VInt 1; VInt 0; time_at 0; metres (obs_v_vel (o 1 0))];
     [VInt 1; VInt 1; time_at 1; metres (obs_v_vel (o 1 1))];
     [VInt 1; VInt 2; time_at 2; metres (obs_v_vel (o 1 2))];
     [VInt 2; VInt 0; time_at 0; metres (obs_v_vel (o 2 0))];
     [VInt 2; VInt 1; time_at 1; metres (obs_v_vel (o 2 1))];
     [VInt 2; VInt 2; time_at 2; metres (obs_v_vel (o 2 2))]] ∧
  map (cell "preceding_v_vel") (drop 3 (rows (table_of u))) =
    [metres (obs_v_vel (o 1 0)); metres (obs_v_vel (o 1 1));
     metres (obs_v_vel (o 1 2))].
Proof.
  destruct p as [|[[q|q|]|[q|q|]|]|q]; split_and!; by vm_compute.
Qed.

Lemma upto_units_prefix t1 t2 :
  add_actual_time t1 ≫= time_indexer = add_actual_time t2 ≫= time_indexer →
  upto_units t1 = upto_units t2.
Proof.
  unfold upto_units.
  destruct (add_actual_time t1), (add_actual_time t2); cbn [mbind result_bind];
    intros H; first [by rewrite H | by rewrite <-H].
Qed.

Lemma scenario_checks o p :
  "global_time" ∈ ngsim_columns ∧
  Forall (λ r, is_Some (pacific_time (cell "global_time" r))) (scenario o p) ∧
  Forall (keys_ordered ["vehicle_id"; "frame_id"]) (scenario o p) ∧
  keys_distinct ["vehicle_id"; "frame_id"] (scenario o p) = true.
Proof.
  split_and!.
  - apply (bool_decide_unpack _). by vm_compute.
  - repeat constructor; by eexists.
  - apply keys_ordered_check. by vm_compute.
  - by vm_compute.
Qed.

(** X1.  End to end: on a table of the NGSIM columns that holds, in any
    order, the rows of vehicles 1 and 2 in the frames 0, 1 and 2, vehicle 2
    behind vehicle 1 in every frame, the script returns a table of exactly
    six rows: the rows of vehicle "1" and then of vehicle "2", each by frame,
    with [time] 0/10, 1/10 and 2/10 for each vehicle, and the rows of vehicle
    "2" have the [preceding_v_vel] that is the [v_vel] of vehicle "1" in the
    same frame, in metres per second. *)
Theorem two_vehicles_end_to_end (o : Z → Z → observed) (p : Z)
    (rows_in : list (gmap string value)) :
  rows_in ≡ₚ scenario o p →
  ∃ final a0 a1 a2 b0 b1 b2,
    transform (mkDataFrame ngsim_columns rows_in) = Ok final ∧
    rows final = [a0; a1; a2; b0; b1; b2] ∧
    map (cell "vehicle_id") (rows final) =
      [VCat "1"; VCat "1"; VCat "1"; VCat "2"; VCat "2"; VCat "2"] ∧
    map (cell "frame_id") (rows final) =
      [VInt 0; VInt 1; VInt 2; VInt 0; VInt 1; VInt 2] ∧
    map (cell "time") (rows final) =
      [time_at 0; time_at 1; time_at 2; time_at 0; time_at 1; time_at 2] ∧
    map (cell "v_vel") [a0; a1; a2] =
      [metres (obs_v_vel (o 1 0)); metres (obs_v_vel (o 1 1));
       metres (obs_v_vel (o 1 2))] ∧
    map (cell "preceding_v_vel") [b0; b1; b2] = map (cell "v_vel") [a0; a1; a2].
Proof.
  intros Hperm.
  destruct (scenario_checks o p) as (Hg & Ht & Ko & Hd).
  pose proof (transform_perm ngsim_columns _ _ Hperm Hg Ht Ko Hd) as Hpre.
  destruct (scenario_in_metres o p) as (Hok & Hcols & H4 & Hprec).
  cbv zeta in Hok, Hcols, H4, Hprec.
  set (u := table_of (upto_units (mkDataFrame ngsim_columns (scenario o p))))
    in *.
  apply table_of_Ok in Hok. fold u in Hok. clearbody u.
  destruct (categorical_caster_is_Ok u) as [final Hfinal].
  { rewrite forallb_forall in Hcols. intros c Hc%list_elem_of_In%Hcols.
    by apply bool_decide_eq_true in Hc. }
  assert (transform (mkDataFrame ngsim_columns rows_in) = Ok final) as Hrun.
  { rewrite transform_upto_units, (upto_units_prefix _ _ Hpre), Hok. done. }
  apply categorical_caster_rows in Hfinal.
  clear Hpre Hok Hperm Hg Ht Ko Hd Hcols.
  assert (length (rows u) = 6%nat) as Hlen.
  { apply (f_equal length) in H4. by rewrite length_map in H4. }
  destruct (rows u) as [|u0 [|u1 [|u2 [|u3 [|u4 [|u5 [|]]]]]]];
    try discriminate Hlen.
  clear Hlen.
  inv Hfinal as [|? a0 ? ? [C0 F0] Hfinal']. inv Hfinal' as [|? a1 ? ? [C1 F1] Hfinal].
  inv Hfinal as [|? a2 ? ? [C2 F2] Hfinal']. inv Hfinal' as [|? b0 ? ? [C3 F3] Hfinal].
  inv Hfinal as [|? b1 ? ? [C4 F4] Hfinal']. inv Hfinal' as [|? b2 ? ? [C5 F5] Hfinal].
  inv Hfinal.
  exists final, a0, a1, a2, b0, b1, b2.
  cbn [map drop] in H4, Hprec. rewrite <-H1. cbn [map].
  assert (∀ c (a w : gmap string value),
            bool_decide (c ∈ cols_to_convert_to_categorical) = false →
            (c ∉ cols_to_convert_to_categorical → a !! c = w !! c) →
            cell c a = cell c w) as Hkeep.
  { intros c a w Hc%bool_decide_eq_false Haw. unfold cell. by rewrite Haw. }
  assert (∀ z s (a w : gmap string value),
            cell "vehicle_id" w = VInt z →
            to_categorical "vehicle_id" (VInt z) = Ok (VCat s) →
            (∀ c, c ∈ cols_to_convert_to_categorical →
                  to_categorical c (cell c w) = Ok (cell c a)) →
            cell "vehicle_id" a = VCat s) as Hid.
  { intros z s a w Hw Hz Hc.
    specialize (Hc "vehicle_id"). rewrite Hw, Hz in Hc.
    assert ("vehicle_id" ∈ cols_to_convert_to_categorical) as Hin
      by (apply (bool_decide_unpack _); by vm_compute).
    specialize (Hc Hin). by injection Hc. }
  assert (to_categorical "vehicle_id" (VInt 1) = Ok (VCat "1")) as E1
    by (by vm_compute).
  assert (to_categorical "vehicle_id" (VInt 2) = Ok (VCat "2")) as E2
    by (by vm_compute).
  split_and!; [done|done|..].
  - rewrite (Hid 1 "1" a0 u0), (Hid 1 "1" a1 u1), (Hid 1 "1" a2 u2),
      (Hid 2 "2" b0 u3), (Hid 2 "2" b1 u4), (Hid 2 "2" b2 u5);
      first [done | congruence].
  - rewrite (Hkeep "frame_id" a0 u0 eq_refl (F0 "frame_id")),
      (Hkeep "frame_id" a1 u1 eq_refl (F1 "frame_id")), (Hkeep "frame_id" a2 u2 eq_refl (F2 "frame_id")),
      (Hkeep "frame_id" b0 u3 eq_refl (F3 "frame_id")), (Hkeep "frame_id" b1 u4 eq_refl (F4 "frame_id")),
      (Hkeep "frame_id" b2 u5 eq_refl (F5 "frame_id")).
    congruence.
  - rewrite (Hkeep "time" a0 u0 eq_refl (F0 "time")), (Hkeep "time" a1 u1 eq_refl (F1 "time")),
      (Hkeep "time" a2 u2 eq_refl (F2 "time")), (Hkeep "time" b0 u3 eq_refl (F3 "time")),
      (Hkeep "time" b1 u4 eq_refl (F4 "time")), (Hkeep "time" b2 u5 eq_refl (F5 "time")).
    congruence.
  - rewrite (Hkeep "v_vel" a0 u0 eq_refl (F0 "v_vel")), (Hkeep "v_vel" a1 u1 eq_refl (F1 "v_vel")),
      (Hkeep "v_vel" a2 u2 eq_refl (F2 "v_vel")).
    congruence.
  - rewrite (Hkeep "v_vel" a0 u0 eq_refl (F0 "v_vel")), (Hkeep "v_vel" a1 u1 eq_refl (F1 "v_vel")),
      (Hkeep "v_vel" a2 u2 eq_refl (F2 "v_vel")),
      (Hkeep "preceding_v_vel" b0 u3 eq_refl (F3 "preceding_v_vel")),
      (Hkeep "preceding_v_vel" b1 u4 eq_refl (F4 "preceding_v_vel")),
      (Hkeep "preceding_v_vel" b2 u5 eq_refl (F5 "preceding_v_vel")).
    congruence.
Qed.

(** ** Sorting is stable; errors of the steps *)

Lemma same_keys_trans keys r0 r x :
  keys_ordered keys r0 → keys_ordered keys r → keys_ordered keys x →
  same_keys keys r0 r → same_keys keys r0 x → row_compare keys r x = Eq.
Proof.
  unfold same_keys. intros H0 Hr Hx H1 H2.
  destruct (row_compare keys r r0) eqn:E1; [|done..].
  destruct (row_compare keys x r0) eqn:E2; [|done..].
  rewrite (row_compare_ext_l keys r r0 x) by by apply row_compare_eq.
  rewrite (row_compare_antisym keys x r0) by done. by rewrite E2.
Qed.




Lemma map_rows_Err {A B} (f : A → result B) (l : list A) e :
  map_rows f l = Err e → ∃ x, x ∈ l ∧ f x = Err e.
Proof.
  induction l as [|x l IH]; [done|]. cbn [map_rows mbind result_bind].
  destruct (f x) as [y|e'] eqn:E.
  - destruct (map_rows f l) as [k|e'']; [done|]. intros [= ->].
    destruct IH as (x' & ? & ?); [done|]. exists x'. split; [by right|done].
  - intros [= ->]. exists x. split; [by left|done].
Qed.

Lemma map_rows_not_Ok {A B} (f : A → result B) (l : list A) x :
  x ∈ l → is_ok (f x) = false → ∃ e, map_rows f l = Err e.
Proof.
  intros Hx Hf. destruct (map_rows f l) as [k|e] eqn:E; [|by eexists].
  apply map_rows_Ok in E. apply list_elem_of_lookup_1 in Hx as [i Hi].
  destruct (Forall2_lookup_l _ _ _ _ _ E Hi) as (y & _ & Hy).
  by rewrite Hy in Hf.
Qed.


(** X4.  Lines 30-32 can be run again: on the table they return they return
    that table ([actual_time] is computed from [global_time], which they
    leave as it is). *)
Theorem add_actual_time_again t t' :
  add_actual_time t = Ok t' → add_actual_time t' = Ok t'.
Proof.
  intros (Hc & rs & HF & ->)%add_actual_time_Ok.
  apply add_actual_time_Ok. cbn [columns rows].
  split; [by apply add_label_old|].
  exists rs. split; [|by rewrite add_label_idemp].
  apply Forall2_same_length_lookup. split; [done|].
  intros i r1 r2 H1 H2. assert (r2 = r1) as -> by congruence.
  destruct (Forall2_lookup_r _ _ _ _ _ HF H2) as (r & _ & v & Hv & ->).
  exists v. rewrite cell_insert_ne by done.
  split; [done|]. by rewrite insert_insert_eq.
Qed.

Lemma update_cells_Err cols f r e :
  update_cells cols f r = Err e → ∃ c v, c ∈ cols ∧ f c v = Err e.
Proof.
  revert r. induction cols as [|c cols IH]; intros r; [done|].
  cbn [update_cells mbind result_bind].
  destruct (f c (cell c r)) as [v|e'] eqn:E.
  - intros (c' & v' & ? & ?)%IH. exists c', v'. split; [by right|done].
  - intros [= ->]. exists c, (cell c r). split; [by left|done].
Qed.

Lemma with_columns_Err cols f t e :
  with_columns cols f t = Err e →
  (∃ c, e = ColumnNotFoundError c ∧ c ∈ cols ∧ c ∉ columns t) ∨
  ((∀ c, c ∈ cols → c ∈ columns t) ∧ ∃ c v, c ∈ cols ∧ f c v = Err e).
Proof.
  unfold with_columns.
  destruct (first_missing cols (columns t)) as [c|] eqn:E.
  - intros [= <-]. left. exists c. split; [done|]. by apply first_missing_Some.
  - right. split; [by apply first_missing_None|].
    destruct (map_rows _ (rows t)) as [k|e'] eqn:E'; [done|].
    cbn [mbind result_bind] in H. injection H as ->.
    apply map_rows_Err in E' as (r & _ & Hr). by eapply update_cells_Err.
Qed.

Lemma to_metric_numeric c v : is_ok (to_metric c v) = numeric v.
Proof. by destruct v. Qed.

Lemma to_metric_Err c v e : to_metric c v = Err e → e = InvalidOperationError c.
Proof. destruct v; cbn; congruence. Qed.

(** X5.  The three outcomes of the unit conversion (lines 87-92).  When one of
    the twelve labels is not a column the run ends with a ColumnNotFoundError
    that names such a label; when they all are columns and some cell of them
    is a string, a category or a timestamp it ends with an
    InvalidOperationError on one of the twelve labels; when all their cells
    are numbers or missing it returns a table. *)
Theorem unit_converter_outcomes t :
  ((∃ c, c ∈ cols_to_convert_to_metric ∧ c ∉ columns t) →
     ∃ c, unit_converter t = Err (ColumnNotFoundError c) ∧
          c ∈ cols_to_convert_to_metric ∧ c ∉ columns t) ∧
  ((∀ c, c ∈ cols_to_convert_to_metric → c ∈ columns t) →
     (∃ r c, r ∈ rows t ∧ c ∈ cols_to_convert_to_metric ∧
             numeric (cell c r) = false) →
     ∃ c, unit_converter t = Err (InvalidOperationError c) ∧
          c ∈ cols_to_convert_to_metric) ∧
  ((∀ c, c ∈ cols_to_convert_to_metric → c ∈ columns t) →
     Forall (λ r, ∀ c, c ∈ cols_to_convert_to_metric → numeric (cell c r))
       (rows t) →
     ∃ t', unit_converter t = Ok t').
Proof.
  split_and!.
  - intros (c & Hc & Hn).
    destruct (unit_converter t) as [t'|e] eqn:E.
    + apply with_columns_Ok in E as [E _]. by apply E in Hc.
    + apply with_columns_Err in E as [(c' & -> & ? & ?)|[E _]].
      * by exists c'.
      * by apply E in Hc.
  - intros Hcols (r & c & Hr & Hc & Hn).
    destruct (unit_converter t) as [t'|e] eqn:E.
    + apply unit_converter_rows in E.
      apply list_elem_of_lookup_1 in Hr as [i Hi].
      destruct (Forall2_lookup_l _ _ _ _ _ E Hi) as (r' & _ & Hr' & _).
      specialize (Hr' c Hc). rewrite <- to_metric_numeric with (c := c) in Hn.
      by rewrite Hr' in Hn.
    + apply with_columns_Err in E as [(c' & -> & Hc' & Hn')|[_ E]].
      * by apply Hcols in Hc'.
      * destruct E as (c' & v & Hc' & ->%to_metric_Err). by exists c'.
  - intros Hcols Hn. apply with_columns_is_Ok; [done|].
    eapply Forall_impl; [done|]. cbn beta. intros r Hr.
    apply update_cells_is_Ok; [apply cols_to_convert_to_metric_NoDup|].
    intros c Hc. specialize (Hr c Hc).
    rewrite <- to_metric_numeric with (c := c) in Hr.
    destruct (to_metric c (cell c r)); [by eexists|done].
Qed.

(** X6.  The cast to categories (lines 95-97) fails only for a missing
    column: with a ColumnNotFoundError naming one of the five labels that is
    not a column; when the five labels are columns it returns a table,
    whatever the cells are. *)
Theorem categorical_caster_outcomes t :
  ((∃ c, c ∈ cols_to_convert_to_categorical ∧ c ∉ columns t) →
     ∃ c, categorical_caster t = Err (ColumnNotFoundError c) ∧
          c ∈ cols_to_convert_to_categorical ∧ c ∉ columns t) ∧
  ((∀ c, c ∈ cols_to_convert_to_categorical → c ∈ columns t) →
     ∃ t', categorical_caster t = Ok t').
Proof.
  split.
  - intros (c & Hc & Hn).
    destruct (categorical_caster t) as [t'|e] eqn:E.
    + apply with_columns_Ok in E as [E _]. by apply E in Hc.
    + apply with_columns_Err in E as [(c' & -> & ? & ?)|[E _]].
      * by exists c'.
      * by apply E in Hc.
  - apply categorical_caster_is_Ok.
Qed.

(** X7.  What the cast to categories does to a table (lines 95-97): the
    labels and the number of rows stay; in the five columns a missing cell
    stays missing, an integer becomes the category of its decimal digits, a
    string the category of that string, a category stays as it is; every
    other column is as it was. *)
Theorem categorical_caster_cells t t' :
  categorical_caster t = Ok t' →
  columns t' = columns t ∧
  Forall2 (λ r r',
    (∀ c, c ∈ cols_to_convert_to_categorical →
       (cell c r = VNull → cell c r' = VNull) ∧
       (∀ z, cell c r = VInt z → cell c r' = VCat (pretty z)) ∧
       (∀ s, cell c r = VStr s → cell c r' = VCat s) ∧
       (∀ s, cell c r = VCat s → cell c r' = VCat s)) ∧
    (∀ c, c ∉ cols_to_convert_to_categorical → r' !! c = r !! c))
    (rows t) (rows t').
Proof.
  intros H. split; [by eapply categorical_caster_columns|].
  apply categorical_caster_rows in H.
  eapply Forall2_impl; [done|]. cbn beta. intros r r' [H1 H2]. split; [|done].
  intros c Hc. specialize (H1 c Hc).
  destruct (cell c r); cbn in H1; split_and!; intros; by simplify_eq.
Qed.

(** X8.  The cast to categories keeps vehicles apart: for any two rows and
    any two of the five columns, two integer identifiers are cast to the same
    category only when they are the same integer. *)
Theorem categorical_caster_injective t t' :
  categorical_caster t = Ok t' →
  Forall2 (λ r1 r1',
    Forall2 (λ r2 r2',
      ∀ c1 c2 z1 z2,
        c1 ∈ cols_to_convert_to_categorical →
        c2 ∈ cols_to_convert_to_categorical →
        cell c1 r1 = VInt z1 → cell c2 r2 = VInt z2 →
        cell c1 r1' = cell c2 r2' ↔ z1 = z2)
      (rows t) (rows t'))
    (rows t) (rows t').
Proof.
  intros H. apply categorical_caster_rows in H.
  eapply Forall2_impl; [exact H|]. cbn beta. intros r1 r1' [F1 _].
  eapply Forall2_impl; [exact H|]. cbn beta. intros r2 r2' [F2 _].
  intros c1 c2 z1 z2 Hc1 Hc2 E1 E2.
  specialize (F1 c1 Hc1). specialize (F2 c2 Hc2).
  rewrite E1 in F1. rewrite E2 in F2. cbn in F1, F2.
  injection F1 as <-. injection F2 as <-. split.
  - intros [= Hp]. by apply (inj pretty) in Hp.
  - by intros ->.
Qed.

Lemma update_cells_lookup cols f r r' c :
  update_cells cols f r = Ok r' → c ∈ cols ∨ is_Some (r !! c) →
  is_Some (r' !! c).
Proof.
  revert r. induction cols as [|c0 cols IH]; intros r.
  - intros [= <-] [?%elem_of_nil|?]; done.
  - cbn [update_cells mbind result_bind].
    destruct (f c0 (cell c0 r)) as [v|]; [|done].
    intros H Hc. apply (IH _ H). rewrite lookup_insert_is_Some.
    destruct (decide (c0 = c)) as [->|]; [by right; left|].
    destruct Hc as [[?|?]%elem_of_cons|?]; [done|by left|by right; right].
Qed.

Lemma update_cells_fix cols f r :
  (∀ c, c ∈ cols → ∃ w, r !! c = Some w ∧ f c w = Ok w) →
  update_cells cols f r = Ok r.
Proof.
  induction cols as [|c cols IH]; intros H; [done|].
  cbn [update_cells mbind result_bind].
  destruct (H c) as (w & Hw & Hf); [by left|].
  replace (cell c r) with w by (unfold cell; by rewrite Hw).
  rewrite Hf. cbn [mbind result_bind]. rewrite insert_id by done.
  apply IH. intros c' Hc'. apply H. by right.
Qed.

(** X9.  The cast to categories can be run again: on the table it returns it
    returns that table. *)
Theorem categorical_caster_again t t' :
  categorical_caster t = Ok t' → categorical_caster t' = Ok t'.
Proof.
  intros H.
  apply with_columns_Ok in H as (Hc & rs & Hrs & ->).
  apply with_columns_Ok. cbn [columns rows] in *. split; [done|].
  exists rs. split; [|done].
  apply Forall2_same_length_lookup. split; [done|].
  intros i r1 r2 H1 H2. assert (r2 = r1) as -> by congruence. clear H2.
  destruct (Forall2_lookup_r _ _ _ _ _ Hrs H1) as (r0 & _ & Hr0).
  apply update_cells_fix. intros c Hin.
  destruct (update_cells_lookup _ _ _ _ c Hr0) as [w Hw]; [by left|].
  exists w. split; [done|].
  apply update_cells_Ok in Hr0 as [Hr0 _];
    [|apply cols_to_convert_to_categorical_NoDup].
  specialize (Hr0 c Hin).
  replace (cell c r1) with w in Hr0 by (unfold cell; by rewrite Hw).
  destruct (cell c r0); cbn in Hr0; by simplify_eq.
Qed.

(** ** The labels of the tables *)

Lemma add_label_elem c c' cols :
  c' ∈ add_label c cols ↔ c' = c ∨ c' ∈ cols.
Proof.
  unfold add_label. case_bool_decide; [|set_solver].
  split; [by right|]. by intros [->|?].
Qed.

Lemma groupby_apply_columns key t t' :
  groupby_apply key calculate_time_elapsed t = Ok t' →
  key ∈ columns t ∧
  columns t' =
    if bool_decide (Exists (λ r, negb (is_null (cell key r))) (rows t))
    then add_label "time" (columns t) else columns t.
Proof.
  unfold groupby_apply. case_bool_decide as Hk; [|done]. intros [= <-].
  split; [done|]. cbn [columns].
  destruct (filter _ (rows t)) as [|r l] eqn:E.
  - rewrite bool_decide_eq_false_2; [done|].
    intros (r & Hr & Hn)%Exists_exists.
    assert (r ∈ filter (λ r, negb (is_null (cell key r))) (rows t)) as Hin
      by by apply list_elem_of_filter.
    rewrite E in Hin. by apply elem_of_nil in Hin.
  - rewrite bool_decide_eq_true_2; [done|].
    assert (r ∈ filter (λ r, negb (is_null (cell key r))) (rows t)) as Hin
      by (rewrite E; by left).
    apply list_elem_of_filter in Hin as [? ?]. apply Exists_exists. by exists r.
Qed.

Lemma time_indexer_columns t t' :
  time_indexer t = Ok t' →
  (∀ c, c ∈ ["vehicle_id"; "frame_id"] → c ∈ columns t) ∧
  columns t' =
    if bool_decide (Exists (λ r, has_vehicle r) (rows t))
    then add_label "time" (columns t) else columns t.
Proof.
  unfold time_indexer. intros (s & [Hk ->]%sort_values_Ok & H)%bind_Ok.
  apply groupby_apply_columns in H as [_ H]. cbn [columns rows] in H.
  split; [done|]. rewrite H.
  erewrite bool_decide_ext; [done|].
  rewrite !Exists_exists. by setoid_rewrite sort_rows_perm.
Qed.

Lemma preceding_names_facts :
  Forall (λ c, rename_label preceding_names c ≠ c) preceding_names.*1 ∧
  Forall (λ c, c ∈ added_columns) preceding_names.*2 ∧
  Forall (λ c, c ∉ preceding_names.*1 → c ∈ added_columns)
    (tail (joined_labels.*2)) ∧
  Forall (λ c, c ∈ added_columns) ["actual_time"; "time"].
Proof. split_and!; apply (bool_decide_unpack _); by vm_compute. Qed.

Lemma renamed_label_origin c cols :
  c ∈ map (rename_label preceding_names) cols →
  c ∈ preceding_names.*2 ∨ (c ∈ cols ∧ c ∉ preceding_names.*1).
Proof.
  intros (c0 & -> & Hc0)%list_elem_of_fmap.
  destruct (decide (c0 ∈ preceding_names.*1)) as [Hin|Hin].
  - left. destruct (rename_label_cases preceding_names c0) as [E|E].
    + destruct preceding_names_facts as (HF & _).
      rewrite Forall_forall in HF. by apply HF in Hin.
    + by apply (list_elem_of_fmap_2 snd) in E.
  - right. destruct (rename_label_cases preceding_names c0) as [E|E].
    + by rewrite E.
    + by apply (list_elem_of_fmap_2 fst) in E.
Qed.

Lemma label_kept c cols :
  c ∈ cols → c ∉ preceding_names.*1 →
  c ∈ map (rename_label preceding_names) cols.
Proof.
  intros Hc Hn. apply list_elem_of_fmap. exists c. split; [|done].
  destruct (rename_label_cases preceding_names c) as [E|E]; [done|].
  by apply (list_elem_of_fmap_2 fst) in E.
Qed.

(** Where a label of the final table comes from. *)
Lemma final_label_origin data_py final c :
  transform data_py = Ok final → c ∈ columns final →
  c ∉ undesired_columns ∧ (c ∈ added_columns ∨ c ∈ columns data_py).
Proof.
  intros (a & s & j & p & q & u & Ha & Hs & Hj & Hp & Hq & Hu & Hf)%transform_Ok.
  rewrite (final_columns _ _ _ _ Hq Hu Hf).
  intros [Hn Hc]%list_elem_of_filter. split; [done|].
  apply renamed_label_origin in Hc as [Hc|[Hc Hk]].
  { left. destruct preceding_names_facts as (_ & HF & _).
    rewrite Forall_forall in HF. by apply HF. }
  apply from_pandas_Ok in Hp as [_ ->].
  rewrite (preceding_joiner_columns _ _ Hj) in Hc.
  apply elem_of_app in Hc as [[_ Hc]%list_elem_of_filter|Hc].
  - apply time_indexer_columns in Hs as [_ Hs]. rewrite Hs in Hc.
    apply add_actual_time_Ok in Ha as (_ & rs & _ & ->). cbn [columns] in Hc.
    destruct preceding_names_facts as (_ & _ & _ & HF).
    rewrite Forall_forall in HF.
    case_bool_decide; rewrite ?add_label_elem in Hc.
    + destruct Hc as [->|[->|?]]; [left; apply HF; set_solver..|by right].
    + destruct Hc as [->|?]; [left; apply HF; set_solver|by right].
  - left. destruct preceding_names_facts as (_ & _ & HF & _).
    rewrite Forall_forall in HF. by apply HF.
Qed.

(** X10.  The labels of the final table are distinct, none of them is one of
    the ten dropped labels, and each is a label of the input or one of the
    nine labels the script adds. *)
Theorem final_labels data_py final :
  transform data_py = Ok final →
  NoDup (columns final) ∧
  ∀ c, c ∈ columns final →
    c ∉ undesired_columns ∧ (c ∈ added_columns ∨ c ∈ columns data_py).
Proof.
  intros H. split; [|intros c; by apply final_label_origin].
  apply transform_Ok in H
    as (a & s & j & p & q & u & Ha & Hs & Hj & Hp & Hq & Hu & Hf).
  rewrite (final_columns _ _ _ _ Hq Hu Hf).
  apply NoDup_filter.
  by apply pruner_renamer_Ok in Hq as (p' & (_ & Hd & _)%pl_rename_Ok & _).
Qed.

Lemma ngsim_columns_needed :
  Forall (λ c,
    (c ∉ ["actual_time"; "time"]) ∧ (c ∉ tail (joined_labels.*2)) ∧
    (c ∉ preceding_names.*2) ∧
    (c = "global_time" ∨ c ∈ ["vehicle_id"; "frame_id"] ∨
     c ∈ "preceding" :: right_columns ∨ c ∈ undesired_columns ∨
     c ∈ cols_to_convert_to_metric ∨ c ∈ cols_to_convert_to_categorical))
    ngsim_columns.
Proof. apply (bool_decide_unpack _). by vm_compute. Qed.

(** X11.  The script returns a table only for an input that has all the
    twenty-three labels of the NGSIM file: each of them is read by some
    line. *)
Theorem transform_needs_ngsim_columns data_py final :
  transform data_py = Ok final →
  ∀ c, c ∈ ngsim_columns → c ∈ columns data_py.
Proof.
  intros (a & s & j & p & q & u & Ha & Hs & Hj & Hp & Hq & Hu & Hf)%transform_Ok.
  intros c Hc. pose proof ngsim_columns_needed as HN.
  rewrite Forall_forall in HN. destruct (HN c Hc) as (N1 & N2 & N3 & Hneed).
  clear HN Hc.
  pose proof (time_indexer_columns _ _ Hs) as [Hkeys Hcs].
  assert (∀ c, c ∉ ["actual_time"; "time"] → c ∈ columns a →
               c ∈ columns data_py) as Ba.
  { apply add_actual_time_Ok in Ha as (_ & rs & _ & ->). cbn [columns].
    intros c' Hn [->|?]%add_label_elem; [|done]. set_solver. }
  assert (∀ c, c ∉ ["actual_time"; "time"] → c ∈ columns s →
               c ∈ columns data_py) as Bs.
  { intros c' Hn Hc'. apply Ba; [done|]. rewrite Hcs in Hc'.
    case_bool_decide; [|done].
    apply add_label_elem in Hc' as [->|?]; [|done]. set_solver. }
  assert (∀ c, c ∉ ["actual_time"; "time"] → c ∉ tail (joined_labels.*2) →
               c ∈ columns p → c ∈ columns data_py) as Bp.
  { apply from_pandas_Ok in Hp as [_ ->].
    rewrite (preceding_joiner_columns _ _ Hj).
    intros c' Hn1 Hn2 [[_ ?]%list_elem_of_filter|?]%elem_of_app; [|done].
    by apply Bs. }
  assert (∀ c, c ∉ preceding_names.*2 → c ∈ columns q → c ∈ columns p) as Bq.
  { rewrite (pruner_renamer_columns _ _ Hq).
    intros c' Hn [_ Hc']%list_elem_of_filter.
    by apply renamed_label_origin in Hc' as [?|[? _]]. }
  destruct Hneed as [->|[Hc|[Hc|[Hc|[Hc|Hc]]]]].
  - by apply add_actual_time_Ok in Ha as [? _].
  - apply Ba; [done|]. by apply Hkeys.
  - apply Bs; [done|]. apply preceding_joiner_Ok in Hj as [Hj _]. by apply Hj.
  - apply Bp; [done..|].
    apply pruner_renamer_Ok in Hq as (p' & (_ & _ & ->)%pl_rename_Ok & Hd).
    apply pl_drop_Ok in Hd as [Hd _]. cbn [columns] in Hd.
    by apply undesired_before_rename, Hd.
  - apply Bp; [done..|]. apply Bq; [done|].
    apply with_columns_Ok in Hu as [Hu _]. by apply Hu.
  - apply Bp; [done..|]. apply Bq; [done|].
    rewrite <- (unit_converter_columns _ _ Hu).
    apply with_columns_Ok in Hf as [Hf _]. by apply Hf.
Qed.

(** X12.  The schema of the result.  For a table that has exactly the
    NGSIM labels and at least one row with a vehicle id, the final table has
    the twenty-two labels of [transformed_columns], in that order: the
    thirteen labels that are kept, then [actual_time], [time],
    [local_x_preceding] and the six renamed labels of the preceding
    vehicle. *)
Theorem transformed_schema data_py final :
  columns data_py = ngsim_columns →
  Exists (λ r, has_vehicle r) (rows data_py) →
  transform data_py = Ok final →
  columns final = transformed_columns.
Proof.
  intros Hcols Hveh.
  intros (a & s & j & p & q & u & Ha & Hs & Hj & Hp & Hq & Hu & Hf)%transform_Ok.
  rewrite (final_columns _ _ _ _ Hq Hu Hf).
  apply from_pandas_Ok in Hp as [_ ->].
  rewrite (preceding_joiner_columns _ _ Hj).
  apply time_indexer_columns in Hs as [_ ->].
  apply add_actual_time_Ok in Ha as (_ & rs & HF & ->). cbn [columns rows].
  rewrite bool_decide_eq_true_2, Hcols; [done|].
  apply Exists_exists in Hveh as (r & Hr & Hv).
  apply list_elem_of_lookup_1 in Hr as [i Hi].
  destruct (Forall2_lookup_l _ _ _ _ _ HF Hi) as (r' & Hi' & v & _ & ->).
  apply Exists_exists. exists (<["actual_time" := v]> r).
  split; [by eapply list_elem_of_lookup_2|].
  unfold has_vehicle in *. by rewrite cell_insert_ne.
Qed.

(** ** The join: outcomes *)


(** ** The table that is plotted *)

Lemma filter_rows_Forall2 {A} (R : A → gmap string value → Prop)
    (P : A → bool) p (l : list A) k :
  Forall2 R l k →
  (∀ x y, R x y →
     p y = Ok (Some (P x)) ∨ (p y = Ok None ∧ P x = false)) →
  ∃ k', filter_rows p k = Ok k' ∧ Forall2 R (filter (λ x, P x) l) k'.
Proof.
  intros HF Hp. induction HF as [|x y l k Hxy HF (k' & Hk' & IH)].
  - by exists [].
  - cbn [filter_rows mbind result_bind]. rewrite filter_cons, Hk'.
    destruct (Hp x y Hxy) as [->|[-> HP]]; cbn [mbind result_bind].
    + destruct (decide (P x)) as [HP|HP].
      * apply Is_true_true in HP. rewrite HP. exists (y :: k').
        split; [done|]. by constructor.
      * apply Is_true_false in HP. rewrite HP. by exists k'.
    + rewrite decide_False by (rewrite HP; naive_solver). by exists k'.
Qed.

(** X14.  The table that is plotted (line 108).  After the cast to
    categories the filter on [vehicle_id == "2"] succeeds and keeps the labels;
    when the vehicle ids were integers or missing before the cast, it keeps
    exactly the rows of the vehicle whose id was the integer 2, in their
    order, as the cast returned them. *)
Theorem data_py_veh_is_vehicle_2 u final :
  categorical_caster u = Ok final →
  Forall (λ r, int_or_null (cell "vehicle_id" r)) (rows u) →
  ∃ veh,
    data_py_veh final = Ok veh ∧ columns veh = columns final ∧
    Forall2 (λ r r',
      cell "vehicle_id" r' = VCat "2" ∧
      (∀ c, c ∈ cols_to_convert_to_categorical →
            to_categorical c (cell c r) = Ok (cell c r')) ∧
      (∀ c, c ∉ cols_to_convert_to_categorical → r' !! c = r !! c))
      (filter (λ r, vehicle_is 2 r) (rows u)) (rows veh).
Proof.
  intros Hf Hint.
  pose proof (categorical_caster_rows _ _ Hf) as HF.
  assert ("vehicle_id" ∈ columns final) as Hc.
  { rewrite (categorical_caster_columns _ _ Hf).
    apply with_columns_Ok in Hf as [Hf _]. apply Hf. set_solver. }
  unfold data_py_veh, pl_filter_eq. rewrite bool_decide_eq_true_2 by done.
  assert (Forall2 (λ r r',
            (vehicle_is 2 r → cell "vehicle_id" r' = VCat "2") ∧
            (eq_literal "vehicle_id" "2" (cell "vehicle_id" r') =
               Ok (Some (vehicle_is 2 r)) ∨
             (eq_literal "vehicle_id" "2" (cell "vehicle_id" r') = Ok None ∧
              vehicle_is 2 r = false)) ∧
            (∀ c, c ∈ cols_to_convert_to_categorical →
                  to_categorical c (cell c r) = Ok (cell c r')) ∧
            (∀ c, c ∉ cols_to_convert_to_categorical → r' !! c = r !! c))
            (rows u) (rows final)) as HF'.
  { apply Forall2_same_length_lookup. split; [by eapply Forall2_length|].
    intros i r r' Hr Hr'.
    destruct (Forall2_lookup_lr _ _ _ _ _ _ HF Hr Hr') as [H1 H2].
    rewrite Forall_forall in Hint.
    specialize (Hint r (list_elem_of_lookup_2 _ _ _ Hr)).
    unfold int_or_null in Hint.
    assert (to_categorical "vehicle_id" (cell "vehicle_id" r) =
              Ok (cell "vehicle_id" r')) as Hv by (apply H1; set_solver).
    split_and!; [| |done..]; unfold vehicle_is;
      destruct (cell "vehicle_id" r) as [|z| | | |]; try done;
      cbn in Hv; injection Hv as <-; cbn.
    - intros ->%bool_decide_unpack. done.
    - by right.
    - left. do 2 f_equal. apply bool_decide_ext. split.
      + intros Hp. by apply (inj pretty).
      + by intros ->. }
  destruct (filter_rows_Forall2 _ (vehicle_is 2)
              (λ r, eq_literal "vehicle_id" "2" (cell "vehicle_id" r))
              _ _ HF') as (k' & -> & Hk').
  { by intros x y (_ & ? & _). }
  eexists. split; [done|]. split; [done|]. cbn [rows].
  apply Forall2_same_length_lookup. split; [by eapply Forall2_length|].
  intros i r r' Hr Hr'.
  destruct (Forall2_lookup_lr _ _ _ _ _ _ Hk' Hr Hr') as (H1 & _ & H2 & H3).
  split_and!; [|done..]. apply H1.
  apply list_elem_of_lookup_2 in Hr. by apply list_elem_of_filter in Hr as [? _].
Qed.

(** X15.  The second path of the plot (line 112) maps y to the label
    [" preceding_vel"].  When the input has no column of that label, the
    table that is plotted has none either, though it has [v_vel], the y of
    the first path, and [preceding_v_vel], the speed of the preceding
    vehicle. *)
Theorem preceding_path_has_no_column data_py final veh :
  transform data_py = Ok final → data_py_veh final = Ok veh →
  preceding_path.2 ∉ columns data_py →
  subject_path.2 ∈ columns veh ∧ "preceding_v_vel" ∈ columns veh ∧
  preceding_path.2 ∉ columns veh.
Proof.
  intros Ht Hv Hn.
  assert (columns veh = columns final) as ->.
  { unfold data_py_veh, pl_filter_eq in Hv. case_bool_decide; [|done].
    destruct (filter_rows _ _); [|done]. by injection Hv as <-. }
  split_and!.
  - apply transform_Ok in Ht
      as (a & s & j & p & q & u & Ha & Hs & Hj & Hp & Hq & Hu & Hf).
    rewrite (categorical_caster_columns _ _ Hf),
      (unit_converter_columns _ _ Hu).
    apply with_columns_Ok in Hu as [Hu _]. apply Hu.
    apply (bool_decide_unpack _). by vm_compute.
  - apply transform_Ok in Ht
      as (a & s & j & p & q & u & Ha & Hs & Hj & Hp & Hq & Hu & Hf).
    rewrite (categorical_caster_columns _ _ Hf),
      (unit_converter_columns _ _ Hu).
    apply with_columns_Ok in Hu as [Hu _]. apply Hu.
    apply (bool_decide_unpack _). by vm_compute.
  - intros Hc. destruct (final_label_origin _ _ _ Ht Hc) as [_ [Ha|Hi]].
    + revert Ha. apply (bool_decide_unpack _). by vm_compute.
    + done.
Qed.

(** ** The time indexer keeps the rows of the vehicles *)

Lemma realign_all key (seen todo : list (gmap string value)) applied :
  Forall (λ r, ordered (cell key r)) todo →
  (∀ k, applied k =
          imap (λ i r, <["time" := time_at i]> r)
            (group_rows key k (seen ++ todo))) →
  Forall2 (λ r r', ∃ i, r' = <["time" := time_at i]> r)
    (filter (λ r, negb (is_null (cell key r))) todo)
    (realign key applied seen todo).
Proof.
  revert seen. induction todo as [|r todo IH]; intros seen Ho Happ; [done|].
  apply Forall_cons in Ho as [Hr Ho]. cbn [realign]. rewrite filter_cons.
  assert (Forall2 (λ r r', ∃ i, r' = <["time" := time_at i]> r)
            (filter (λ r, negb (is_null (cell key r))) todo)
            (realign key applied (seen ++ [r]) todo)) as IH'.
  { apply IH; [done|]. intros k. by rewrite Happ, <- app_assoc. }
  destruct (is_null (cell key r)) eqn:En.
  - rewrite decide_False by naive_solver. done.
  - rewrite decide_True by done.
    rewrite Happ, list_lookup_imap, group_rows_app, group_rows_cons.
    replace (value_eqb (cell key r) (cell key r)) with true
      by (symmetry; unfold value_eqb; by rewrite value_compare_refl).
    rewrite lookup_app_r, Nat.sub_diag by done. cbn [lookup list_lookup fmap
      option_fmap option_map]. constructor; [by eexists|done].
Qed.

(** X16.  Lines 35-43 keep the observations of the vehicles: the rows of the
    result are the rows of the table that have a vehicle id, in ascending
    order of vehicle and frame, each with a [time] cell set and nothing else
    changed; the rows without a vehicle id are left out.  (Vehicle ids are
    integers, strings, categories or missing.) *)
Theorem time_indexer_rows t t' :
  time_indexer t = Ok t' →
  Forall (λ r, ordered (cell "vehicle_id" r)) (rows t) →
  ∃ sorted,
    sorted ≡ₚ filter (λ r, has_vehicle r) (rows t) ∧
    (Forall (keys_ordered ["vehicle_id"; "frame_id"]) (rows t) →
       StronglySorted (row_le ["vehicle_id"; "frame_id"]) sorted) ∧
    Forall2 (λ r r', ∃ i, r' = <["time" := time_at i]> r) sorted (rows t').
Proof.
  intros H Ho. apply time_indexer_Ok in H.
  exists (filter (λ r, has_vehicle r)
            (sort_rows ["vehicle_id"; "frame_id"] (rows t))).
  split_and!.
  - by rewrite sort_rows_perm.
  - intros Hk. by apply StronglySorted_filter, sort_rows_sorted.
  - rewrite H. apply realign_all; [|done].
    eapply Forall_forall. intros r Hr. rewrite sort_rows_perm in Hr.
    by eapply Forall_forall in Ho.
Qed.

(** ** One row for each observation *)

Lemma filter_none {A} (P : A → bool) (l : list A) :
  Forall (λ x, P x = false) l → filter (λ x, P x) l = [].
Proof.
  induction 1 as [|x l Hx _ IH]; [done|].
  rewrite filter_cons, decide_False, IH; [done|]. by apply Is_true_false_2.
Qed.

Lemma filter_every {A} (P : A → bool) (l : list A) :
  Forall (λ x, P x) l → filter (λ x, P x) l = l.
Proof.
  induction 1 as [|x l Hx _ IH]; [done|].
  by rewrite filter_cons, decide_True, IH.
Qed.

Lemma filter_length_ext {A B} (R : A → B → Prop) (P : A → bool) (Q : B → bool)
    (l : list A) (k : list B) :
  Forall2 R l k → (∀ x y, R x y → P x = Q y) →
  length (filter (λ x, P x) l) = length (filter (λ y, Q y) k).
Proof.
  intros HF HR. induction HF as [|x y l k Hxy _ IH]; [done|].
  rewrite !filter_cons, <- (HR x y Hxy).
  destruct (decide (P x)); cbn [length]; by rewrite IH.
Qed.

Lemma keys_distinct_count keys (l : list (gmap string value)) r0 :
  keys_distinct keys l = true → Forall (keys_ordered keys) l →
  keys_ordered keys r0 →
  (length (filter (λ r, same_keys keys r0 r) l) ≤ 1)%nat.
Proof.
  intros Hd Ho H0. induction Ho as [|x l Hx Hl IH]; [cbn; lia|].
  cbn [keys_distinct] in Hd. apply andb_true_iff in Hd as [Hne Hd].
  rewrite filter_cons. destruct (decide (same_keys keys r0 x)) as [Px|Px];
    [|by apply IH].
  rewrite filter_none; [cbn; lia|].
  rewrite forallb_forall in Hne. apply Forall_forall. intros y Hy.
  destruct (same_keys keys r0 y) eqn:Py; [|done].
  specialize (Hne y (proj1 (list_elem_of_In _ _) Hy)).
  rewrite (same_keys_trans keys r0 x y) in Hne; [done..| |done|by rewrite Py].
  rewrite Forall_forall in Hl. by apply Hl.
Qed.

Lemma preceding_match_same_keys l m :
  keys_ordered ["frame_id"; "preceding"] l →
  keys_ordered ["vehicle_id"; "frame_id"] m →
  preceding_match l m =
    same_keys ["vehicle_id"; "frame_id"]
      (<["vehicle_id" := cell "preceding" l]> l) m.
Proof.
  intros Hl Hm. unfold preceding_match, same_keys, value_eqb.
  cbn [row_compare]. rewrite cell_insert_eq, cell_insert_ne by done.
  rewrite (value_compare_antisym (cell "preceding" l) (cell "vehicle_id" m)),
    (value_compare_antisym (cell "frame_id" l) (cell "frame_id" m));
    try (apply Hl || apply Hm); try set_solver.
  destruct (value_compare (cell "preceding" l) (cell "vehicle_id" m));
    destruct (value_compare (cell "frame_id" l) (cell "frame_id" m)); done.
Qed.

Lemma preceding_rows_count l (rs : list (gmap string value)) :
  keys_distinct ["vehicle_id"; "frame_id"] rs = true →
  Forall (keys_ordered ["vehicle_id"; "frame_id"]) rs →
  keys_ordered ["frame_id"; "preceding"] l →
  (length (filter (λ m, preceding_match l m) rs) ≤ 1)%nat.
Proof.
  intros Hd Ho Hl.
  pose proof (keys_distinct_count _ _ (<["vehicle_id" := cell "preceding" l]> l)
                Hd Ho) as Hc.
  rewrite (filter_length_ext
             (λ x y, x = y ∧ keys_ordered ["vehicle_id"; "frame_id"] x)
             (preceding_match l)
             (same_keys ["vehicle_id"; "frame_id"]
                (<["vehicle_id" := cell "preceding" l]> l)) rs rs).
  - apply Hc. intros c Hin. apply elem_of_cons in Hin as [->|Hin].
    + rewrite cell_insert_eq. apply Hl. set_solver.
    + apply list_elem_of_singleton in Hin as ->.
      rewrite cell_insert_ne by done. apply Hl. set_solver.
  - apply Forall2_same_length_lookup. split; [done|].
    intros i x y Hx Hy. split; [congruence|].
    rewrite Forall_forall in Ho. by eapply Ho, list_elem_of_lookup_2.
  - intros x y [<- Hx]. by apply preceding_match_same_keys.
Qed.

Lemma join_single (s : DataFrame)
    (J : gmap string value → option (gmap string value) → gmap string value)
    (ls : list (gmap string value)) :
  Forall (λ l, (length (preceding_rows s l) ≤ 1)%nat) ls →
  flat_map (λ l,
    match preceding_rows s l with
    | [] => [J l None]
    | ms => map (λ m, J l (Some m)) ms
    end) ls =
  map (λ l, J l (head (preceding_rows s l))) ls.
Proof.
  induction 1 as [|l ls Hl _ IH]; [done|]. cbn [flat_map]. rewrite IH.
  rewrite fmap_cons.
  destruct (preceding_rows s l) as [|m [|m' ms]]; [done..|].
  cbn in Hl. lia.
Qed.

Lemma keys_ordered_sub keys keys' r :
  keys' ⊆ keys → keys_ordered keys r → keys_ordered keys' r.
Proof. intros Hs H c Hc. apply H. by apply Hs. Qed.

(** X17.  When no two rows of the table have the same vehicle and frame, the
    join (lines 50-57) returns one row for each row of the table, in the same
    order: the row joined to its one preceding observation, or with missing
    preceding fields when it has none.  (Stated on the table after the
    renaming, where the joined cells have their final labels.) *)
Theorem join_of_unique_observations s j p q :
  preceding_joiner s = Ok j → from_pandas j = Ok p →
  pl_rename preceding_names p = Ok q →
  Forall (keys_ordered ["vehicle_id"; "frame_id"; "preceding"]) (rows s) →
  keys_distinct ["vehicle_id"; "frame_id"] (rows s) = true →
  Forall (λ l, (length (preceding_rows s l) ≤ 1)%nat) (rows s) ∧
  Forall2 (λ l out, joined s l (head (preceding_rows s l)) out)
    (rows s) (rows q).
Proof.
  intros Hj Hp Hq Ho Hd.
  assert (Forall (λ l, (length (preceding_rows s l) ≤ 1)%nat) (rows s)) as H1.
  { apply Forall_forall. intros l Hl. apply preceding_rows_count; [done| |].
    - eapply Forall_impl; [done|]. intros r. apply keys_ordered_sub.
      set_solver.
    - rewrite Forall_forall in Ho. eapply keys_ordered_sub, Ho; [|done].
      set_solver. }
  split; [done|].
  destruct (joined_renamed_rows _ _ _ _ Hj Hp Hq) as (J & HJ & ->).
  rewrite join_single by done. apply Forall2_fmap_r, Forall_Forall2_diag.
  apply Forall_forall. intros l _. apply HJ.
Qed.

(** ** The rows of the final table *)

Lemma insert_row_Forall2 keys (R : relation (gmap string value)) r r' l k :
  (∀ x y, R x y → ∀ c, c ∈ keys → cell c y = cell c x) →
  R r r' → Forall2 R l k →
  Forall2 R (insert_row keys r l) (insert_row keys r' k).
Proof.
  intros HR Hr HF. induction HF as [|x y l k Hxy HF IH].
  - by constructor.
  - cbn [insert_row].
    rewrite (row_compare_ext_l keys r' r), (row_compare_ext_r keys r y x)
      by eauto.
    destruct (row_compare keys r x); repeat constructor; done.
Qed.

Lemma sort_rows_Forall2 keys (R : relation (gmap string value)) l k :
  (∀ x y, R x y → ∀ c, c ∈ keys → cell c y = cell c x) →
  Forall2 R l k → Forall2 R (sort_rows keys l) (sort_rows keys k).
Proof.
  intros HR. induction 1 as [|x y l k Hxy HF IH]; [constructor|].
  cbn [sort_rows foldr]. by apply insert_row_Forall2.
Qed.

Lemma metric_or_categorical :
  Forall (λ c, c ∉ cols_to_convert_to_categorical) cols_to_convert_to_metric ∧
  Forall (λ c, c ∉ undesired_columns)
    ("actual_time" :: cols_to_convert_to_metric ++
       cols_to_convert_to_categorical) ∧
  Forall (λ c, c ∉ cols_to_convert_to_metric ++ cols_to_convert_to_categorical)
    ["actual_time"].
Proof. split_and!; apply (bool_decide_unpack _); by vm_compute. Qed.

Lemma final_cells p q u final :
  pruner_renamer p = Ok q → unit_converter q = Ok u →
  categorical_caster u = Ok final →
  Forall2 (λ r r', ∀ c, c ∉ undesired_columns →
    (c ∈ cols_to_convert_to_metric → to_metric c (cell c r) = Ok (cell c r')) ∧
    (c ∈ cols_to_convert_to_categorical →
       to_categorical c (cell c r) = Ok (cell c r')) ∧
    (c ∉ cols_to_convert_to_metric → c ∉ cols_to_convert_to_categorical →
       cell c r' = cell c r))
    (map (rename_row preceding_names (columns p)) (rows p)) (rows final).
Proof.
  intros (p' & (_ & _ & ->)%pl_rename_Ok & [_ ->]%pl_drop_Ok)%pruner_renamer_Ok
    Hu Hf.
  apply unit_converter_rows in Hu. apply categorical_caster_rows in Hf.
  cbn [rows] in Hu. apply Forall2_fmap_l in Hu.
  eapply Forall2_trans; [|exact Hu|exact Hf].
  cbn beta. intros r r1 r2 [H1 H1'] [H2 H2'] c Hc.
  destruct metric_or_categorical as (Hmc & _).
  rewrite Forall_forall in Hmc.
  rewrite <- (cell_drop undesired_columns c r) by done. split_and!.
  - intros Hm.
    replace (cell c r2) with (cell c r1)
      by (unfold cell; by rewrite (H2' c (Hmc c Hm))).
    by apply H1.
  - intros Hk.
    assert (c ∉ cols_to_convert_to_metric) as Hnm
      by (intros Hm; by apply (Hmc c Hm)).
    replace (cell c (filter (λ kv, kv.1 ∉ undesired_columns) r))
      with (cell c r1) by (unfold cell; by rewrite (H1' c Hnm)).
    by apply H2.
  - intros Hnm Hnk. unfold cell. by rewrite (H2' c Hnk), (H1' c Hnm).
Qed.

Lemma kept_label s j p q u final c :
  preceding_joiner s = Ok j → from_pandas j = Ok p →
  pruner_renamer p = Ok q → unit_converter q = Ok u →
  categorical_caster u = Ok final →
  c ∈ columns final → c ∉ added_columns →
  c ∈ columns s ∧ c ≠ "vehicle_id_preceding" ∧ c ∉ undesired_columns.
Proof.
  intros Hj [_ ->]%from_pandas_Ok Hq Hu Hf Hc Hn.
  rewrite (final_columns _ _ _ _ Hq Hu Hf) in Hc.
  apply list_elem_of_filter in Hc as [Hnu Hc].
  destruct preceding_names_facts as (_ & F2 & F3 & _).
  rewrite Forall_forall in F2, F3.
  apply renamed_label_origin in Hc as [Hc|[Hc Hk]]; [by apply F2 in Hc|].
  rewrite (preceding_joiner_columns _ _ Hj) in Hc.
  apply elem_of_app in Hc as [[Hv Hc]%list_elem_of_filter|Hc].
  - split_and!; [done| |done]. set_solver.
  - by apply F3 in Hc.
Qed.

(** The rows of the tables of a run on an input with one row for each
    vehicle and frame: the rows after the time indexer are the sorted rows of
    the input with [actual_time] and [time] set, and the final rows are made
    from them one by one. *)
Lemma pipeline_rows data_py a s j p q u final :
  add_actual_time data_py = Ok a → time_indexer a = Ok s →
  preceding_joiner s = Ok j → from_pandas j = Ok p →
  pruner_renamer p = Ok q → unit_converter q = Ok u →
  categorical_caster u = Ok final →
  Forall (keys_ordered ["vehicle_id"; "frame_id"; "preceding"])
    (rows data_py) →
  Forall (λ r, has_vehicle r) (rows data_py) →
  keys_distinct ["vehicle_id"; "frame_id"] (rows data_py) = true →
  Forall2 (λ r l, ∃ v i, pacific_time (cell "global_time" r) = Some v ∧
                         l = <["time" := time_at i]> (<["actual_time" := v]> r))
    (sort_rows ["vehicle_id"; "frame_id"] (rows data_py)) (rows s) ∧
  Forall2 (λ l out,
    ∀ c, c ∈ columns s → c ≠ "vehicle_id_preceding" → c ∉ undesired_columns →
      (c ∈ cols_to_convert_to_metric →
         to_metric c (cell c l) = Ok (cell c out)) ∧
      (c ∈ cols_to_convert_to_categorical →
         to_categorical c (cell c l) = Ok (cell c out)) ∧
      (c ∉ cols_to_convert_to_metric → c ∉ cols_to_convert_to_categorical →
         cell c out = cell c l))
    (rows s) (rows final).
Proof.
  intros Ha Hs Hj Hp Hq Hu Hf Ho Hv Hd.
  set (keys := ["vehicle_id"; "frame_id"]) in *.
  set (R := λ r l : gmap string value,
         ∃ v i, pacific_time (cell "global_time" r) = Some v ∧
                l = <["time" := time_at i]> (<["actual_time" := v]> r)).
  assert (∀ x y c, R x y → c ∉ ["actual_time"; "time"] →
                   cell c y = cell c x) as HR.
  { intros x y c (v & i & _ & ->) Hc.
    rewrite !cell_insert_ne; [done|set_solver..]. }
  (* the rows of the table after the time indexer *)
  assert (Forall2 R (sort_rows keys (rows data_py)) (rows s)) as Hrows.
  { pose proof (time_indexer_Ok _ _ Hs) as ->.
    apply add_actual_time_Ok in Ha as (_ & rs & HFa & ->). cbn [rows].
    set (Ra := λ r r1 : gmap string value,
           ∃ v, pacific_time (cell "global_time" r) = Some v ∧
                r1 = <["actual_time" := v]> r) in *.
    assert (Forall2 Ra (sort_rows keys (rows data_py)) (sort_rows keys rs))
      as HFs.
    { apply sort_rows_Forall2; [|done]. intros x y (v & _ & ->) c Hc.
      rewrite cell_insert_ne; [done|set_solver]. }
    eapply Forall2_trans; [|exact HFs|].
    2:{ rewrite <- (filter_every (λ r, negb (is_null (cell "vehicle_id" r)))
                     (sort_rows keys rs)) at 1.
        - apply realign_all; [|done].
          apply Forall_forall. intros y Hy.
          apply list_elem_of_lookup_1 in Hy as [i Hi].
          destruct (Forall2_lookup_r _ _ _ _ _ HFs Hi) as (x & Hx & v & _ & ->).
          rewrite cell_insert_ne by done.
          apply list_elem_of_lookup_2 in Hx. rewrite sort_rows_perm in Hx.
          rewrite Forall_forall in Ho. apply (Ho x Hx). set_solver.
        - apply Forall_forall. intros y Hy.
          apply list_elem_of_lookup_1 in Hy as [i Hi].
          destruct (Forall2_lookup_r _ _ _ _ _ HFs Hi) as (x & Hx & v & _ & ->).
          rewrite cell_insert_ne by done.
          apply list_elem_of_lookup_2 in Hx. rewrite sort_rows_perm in Hx.
          rewrite Forall_forall in Hv. apply (Hv x Hx). }
    cbn beta. intros x y z (v & Hv' & ->) (i & ->). by exists v, i. }
  split; [done|].
  (* every row has at most one preceding observation *)
  assert (Forall (λ l, (length (preceding_rows s l) ≤ 1)%nat) (rows s)) as H1.
  { apply Forall_forall. intros l Hl. unfold preceding_rows.
    apply list_elem_of_lookup_1 in Hl as [i Hi].
    destruct (Forall2_lookup_r _ _ _ _ _ Hrows Hi) as (x & Hx & Hxl).
    apply list_elem_of_lookup_2 in Hx. rewrite sort_rows_perm in Hx.
    rewrite <- (filter_length_ext R (preceding_match l) (preceding_match l)
                  _ _ Hrows).
    - rewrite sort_rows_perm. apply preceding_rows_count; [done| |].
      + eapply Forall_impl; [exact Ho|]. intros r. apply keys_ordered_sub.
        set_solver.
      + rewrite Forall_forall in Ho. intros c Hc.
        rewrite (HR x l c Hxl) by set_solver. apply (Ho x Hx). set_solver.
    - intros y z Hyz. unfold preceding_match.
      by rewrite !(HR y z _ Hyz) by set_solver. }
  pose proof (final_cells _ _ _ _ Hq Hu Hf) as Hfin.
  apply pruner_renamer_Ok in Hq as (q' & Hq' & Hdrop).
  destruct (joined_renamed_rows _ _ _ _ Hj Hp Hq') as (J & HJ & HJrows).
  rewrite join_single in HJrows by done.
  apply pl_rename_Ok in Hq' as (_ & _ & ->). cbn [rows] in HJrows.
  rewrite HJrows in Hfin. apply Forall2_fmap_l in Hfin.
  eapply Forall2_impl; [exact Hfin|]. cbn beta.
  intros l out Hout c Hc Hvip Hnu.
  rewrite <- (proj1 (HJ l (head (preceding_rows s l))) c Hc Hvip).
  by apply Hout.
Qed.

(** X18.  One row for each observation.  When no two rows of the input have
    the same vehicle and frame and every row has a vehicle id, the final
    table has as many rows as the input: the i-th row of the final table is
    made from the i-th row of the input sorted by vehicle and frame.  Its
    [actual_time] is the Pacific time of that row's [global_time]; in every
    column that is not one of the nine added ones its cell is that row's cell,
    converted to metres in the columns of the unit conversion, cast to a
    category in the columns of the cast, and unchanged in any other. *)
Theorem one_row_per_observation data_py final :
  transform data_py = Ok final →
  Forall (keys_ordered ["vehicle_id"; "frame_id"; "preceding"])
    (rows data_py) →
  Forall (λ r, has_vehicle r) (rows data_py) →
  keys_distinct ["vehicle_id"; "frame_id"] (rows data_py) = true →
  length (rows final) = length (rows data_py) ∧
  Forall2 (λ r out,
    pacific_time (cell "global_time" r) = Some (cell "actual_time" out) ∧
    ∀ c, c ∈ columns final → c ∉ added_columns →
      (c ∈ cols_to_convert_to_metric →
         to_metric c (cell c r) = Ok (cell c out)) ∧
      (c ∈ cols_to_convert_to_categorical →
         to_categorical c (cell c r) = Ok (cell c out)) ∧
      (c ∉ cols_to_convert_to_metric → c ∉ cols_to_convert_to_categorical →
         cell c out = cell c r))
    (sort_rows ["vehicle_id"; "frame_id"] (rows data_py)) (rows final).
Proof.
  intros (a & s & j & p & q & u & Ha & Hs & Hj & Hp & Hq & Hu & Hf)%transform_Ok
    Ho Hv Hd.
  destruct (pipeline_rows _ _ _ _ _ _ _ _ Ha Hs Hj Hp Hq Hu Hf Ho Hv Hd)
    as [Hrows Hfin].
  pose proof (λ c, kept_label s j p q u final c Hj Hp Hq Hu Hf) as Hkept.
  assert ("actual_time" ∈ columns s) as Hat.
  { apply time_indexer_columns in Hs as [_ ->].
    apply add_actual_time_Ok in Ha as (_ & rs & _ & ->). cbn [columns].
    case_bool_decide; [apply add_label_old|]; apply add_label_in. }
  assert (Forall2 (λ r out,
    pacific_time (cell "global_time" r) = Some (cell "actual_time" out) ∧
    ∀ c, c ∈ columns final → c ∉ added_columns →
      (c ∈ cols_to_convert_to_metric →
         to_metric c (cell c r) = Ok (cell c out)) ∧
      (c ∈ cols_to_convert_to_categorical →
         to_categorical c (cell c r) = Ok (cell c out)) ∧
      (c ∉ cols_to_convert_to_metric → c ∉ cols_to_convert_to_categorical →
         cell c out = cell c r))
    (sort_rows ["vehicle_id"; "frame_id"] (rows data_py)) (rows final))
    as Hall.
  { eapply Forall2_trans; [|exact Hrows|exact Hfin].
    cbn beta. intros r l out (v & i & Hv' & ->) Hout.
    destruct metric_or_categorical as (_ & Fu & Fa).
    rewrite Forall_forall in Fu, Fa. split.
    - assert (cell "actual_time" out =
                cell "actual_time"
                  (<["time" := time_at i]> (<["actual_time" := v]> r))) as ->.
      { apply Hout; [done|done|apply Fu; by left|..];
          intros ?; apply (Fa "actual_time"); set_solver. }
      by rewrite cell_insert_ne, cell_insert_eq.
    - intros c Hc Hn. destruct (Hkept c Hc Hn) as (Hcs & Hvip & Hnu).
      replace (cell c r)
        with (cell c (<["time" := time_at i]> (<["actual_time" := v]> r))).
      + by apply Hout.
      + rewrite !cell_insert_ne; [done|intros <-; apply Hn..];
          apply (bool_decide_unpack _); by vm_compute. }
  split; [|done].
  rewrite <- (Forall2_length _ _ _ Hall). by rewrite sort_rows_perm.
Qed.

(** ** The order of the rows of the input *)

Lemma add_actual_time_Err cols (rs1 rs2 : list (gmap string value)) :
  rs1 ≡ₚ rs2 → is_ok (add_actual_time (mkDataFrame cols rs2)) = false →
  add_actual_time (mkDataFrame cols rs1) =
  add_actual_time (mkDataFrame cols rs2).
Proof.
  intros Hp Hn.
  destruct (decide ("global_time" ∈ cols)) as [Hc|Hc].
  - assert (∀ rs, is_ok (add_actual_time (mkDataFrame cols rs)) = false →
              add_actual_time (mkDataFrame cols rs) =
                Err (TypeError "global_time")) as Herr.
    { intros rs. unfold add_actual_time.
      destruct (assign "actual_time" "global_time" _ _) as [a|e] eqn:E.
      - intros Hn'. exfalso. cbn [mbind result_bind] in Hn'.
        destruct (assign "actual_time" "actual_time"
                    (dt_tz_convert "America/Los_Angeles") a)
          as [a'|e] eqn:E'; [done|].
        apply assign_Ok in E as (_ & k & HF & ->).
        unfold assign in E'. cbn [columns rows] in E'.
        rewrite bool_decide_eq_true_2 in E' by apply add_label_in.
        destruct (map_rows _ k) as [k'|e'] eqn:Ek; [done|].
        apply map_rows_Err in Ek as (y & Hy & Hey).
        apply list_elem_of_lookup_1 in Hy as [i Hi].
        destruct (Forall2_lookup_r _ _ _ _ _ HF Hi) as (x & _ & v & Hv & ->).
        rewrite cell_insert_eq in Hey.
        destruct (cell "global_time" x); by simplify_eq/=.
      - intros _. cbn [mbind result_bind]. f_equal.
        unfold assign in E. cbn [columns rows] in E.
        rewrite bool_decide_eq_true_2 in E by done.
        destruct (map_rows _ rs) as [k|e'] eqn:E'; [done|].
        cbn [mbind result_bind] in E. injection E as <-.
        apply map_rows_Err in E' as (x & _ & Hx).
        destruct (cell "global_time" x); by simplify_eq/=. }
    rewrite (Herr rs2 Hn). apply Herr.
    destruct (add_actual_time (mkDataFrame cols rs1)) as [a|] eqn:E; [|done].
    exfalso. apply add_actual_time_Ok in E as (_ & k & HF & _).
    cbn [rows] in HF.
    rewrite add_actual_time_map in Hn; [done|done|]. cbn [rows].
    apply Forall_forall. intros x Hx. rewrite <- Hp in Hx.
    apply list_elem_of_lookup_1 in Hx as [i Hi].
    destruct (Forall2_lookup_l _ _ _ _ _ HF Hi) as (y & _ & v & -> & _).
    done.
  - unfold add_actual_time, assign. cbn [columns].
    by rewrite bool_decide_eq_false_2.
Qed.

(** X19.  The order of the rows of the input does not matter.  When no two
    rows have the same vehicle and frame (as integers, strings, categories or
    missing values), the script returns the same table, or fails with the same
    error, whatever the order of the rows. *)
Theorem transform_order_independent cols
    (rs1 rs2 : list (gmap string value)) :
  rs1 ≡ₚ rs2 →
  Forall (keys_ordered ["vehicle_id"; "frame_id"]) rs2 →
  keys_distinct ["vehicle_id"; "frame_id"] rs2 = true →
  transform (mkDataFrame cols rs1) = transform (mkDataFrame cols rs2).
Proof.
  intros Hp Ho Hd. rewrite !transform_upto_units. f_equal.
  apply upto_units_prefix.
  destruct (add_actual_time (mkDataFrame cols rs2)) as [a|e] eqn:E.
  - rewrite <- E. apply add_actual_time_Ok in E as (Hc & k & HF & _).
    cbn [columns rows] in *. apply transform_perm; try done.
    apply Forall_forall. intros x Hx.
    apply list_elem_of_lookup_1 in Hx as [i Hi].
    destruct (Forall2_lookup_l _ _ _ _ _ HF Hi) as (y & _ & v & -> & _).
    done.
  - rewrite <- E. f_equal. apply add_actual_time_Err; [done|]. by rewrite E.
Qed.

(** ** The class of the preceding vehicle *)


(** A property of the cells of some columns, checked by evaluation. *)
Lemma cells_check (P : value → bool) (cols : list string)
    (rs : list (gmap string value)) :
  forallb (λ r, forallb (λ c, P (cell c r)) cols) rs = true →
  Forall (λ r, ∀ c, c ∈ cols → P (cell c r)) rs.
Proof.
  rewrite forallb_forall. intros H. apply Forall_forall. intros r Hr c Hc.
  specialize (H r (proj1 (list_elem_of_In _ _) Hr)).
  rewrite forallb_forall in H.
  by rewrite (H c (proj1 (list_elem_of_In _ _) Hc)).
Qed.

(** ** The preceding fields and the columns they are taken from *)

Lemma to_metric_na_upcast c c' fill v w :
  to_metric c v = Ok w → to_metric c' (na_upcast fill v) = Ok w.
Proof. destruct v, fill; cbn; congruence. Qed.

Lemma converted_fields :
  Forall (λ sd, sd.2 ∈ cols_to_convert_to_metric →
                (sd.1 ∈ cols_to_convert_to_metric) ∧ (sd.1 ∈ right_columns) ∧
                (sd.1 ∉ undesired_columns) ∧ (sd.2 ∉ undesired_columns) ∧
                sd.1 ≠ "vehicle_id_preceding")
    preceding_fields.
Proof. apply (bool_decide_unpack _). by vm_compute. Qed.

(** X21.  The converted preceding fields agree with the columns they are
    taken from.  When no two rows of the joined table have the same vehicle
    and frame, the rows of the final table stand where the rows of the joined
    table stood, and for a row [l] whose preceding observation is the row
    [m]: the [preceding_local_y], [preceding_v_length], [preceding_v_width],
    [preceding_v_vel] and [preceding_v_acc] of the final row of [l] are the
    [local_y], [v_length], [v_width], [v_vel] and [v_acc] of the final row of
    [m]. *)
Theorem preceding_fields_consistent s j p q u final :
  preceding_joiner s = Ok j → from_pandas j = Ok p →
  pruner_renamer p = Ok q → unit_converter q = Ok u →
  categorical_caster u = Ok final →
  Forall (keys_ordered ["vehicle_id"; "frame_id"; "preceding"]) (rows s) →
  keys_distinct ["vehicle_id"; "frame_id"] (rows s) = true →
  Forall2 (λ l out_l,
    Forall2 (λ m out_m,
      head (preceding_rows s l) = Some m →
      ∀ src dst, (src, dst) ∈ preceding_fields →
        dst ∈ cols_to_convert_to_metric →
        cell dst out_l = cell src out_m)
      (rows s) (rows final))
    (rows s) (rows final).
Proof.
  intros Hj Hp Hq Hu Hf Ho Hd.
  assert (Forall (λ l, (length (preceding_rows s l) ≤ 1)%nat) (rows s)) as H1.
  { apply Forall_forall. intros l' Hl'. apply preceding_rows_count; [done| |].
    - eapply Forall_impl; [exact Ho|]. intros r. apply keys_ordered_sub.
      set_solver.
    - rewrite Forall_forall in Ho. eapply keys_ordered_sub, Ho; [|done].
      set_solver. }
  pose proof (final_cells _ _ _ _ Hq Hu Hf) as Hfin.
  assert (∀ c, c ∈ right_columns → c ∈ columns s) as Hcols.
  { apply preceding_joiner_Ok in Hj as [Hj _]. intros c Hc. apply Hj.
    by right. }
  apply pruner_renamer_Ok in Hq as (q' & Hq' & _).
  destruct (joined_renamed_rows _ _ _ _ Hj Hp Hq') as (J & HJ & HJrows).
  rewrite join_single in HJrows by done.
  apply pl_rename_Ok in Hq' as (_ & _ & ->). cbn [rows] in HJrows.
  rewrite HJrows in Hfin. apply Forall2_fmap_l in Hfin.
  pose proof converted_fields as HF. rewrite Forall_forall in HF.
  assert (length (rows s) = length (rows final)) as Hlen
    by by eapply Forall2_length.
  apply Forall2_same_length_lookup. split; [done|].
  intros i l out_l Hl Hol.
  apply Forall2_same_length_lookup. split; [done|].
  intros k m out_m Hm Hom Hhead src dst Hsd Hdst.
  destruct (HF (src, dst) Hsd Hdst) as (Hsrc & Hright & Hnu & Hnu' & Hvip).
  cbn [fst snd] in *.
  destruct (Forall2_lookup_lr _ _ _ _ _ _ Hfin Hl Hol dst Hnu') as (El & _).
  destruct (Forall2_lookup_lr _ _ _ _ _ _ Hfin Hm Hom src Hnu) as (Em & _).
  specialize (El Hdst). specialize (Em Hsrc). cbn beta in El, Em.
  rewrite Hhead, (proj2 (HJ l (Some m)) src dst Hsd) in El.
  rewrite (proj1 (HJ m _) src (Hcols src Hright) Hvip) in Em.
  apply (to_metric_na_upcast src dst (some_unmatched s)) in Em.
  congruence.
Qed.

(** ** The vehicle that is plotted *)

Lemma filter_ext_Forall {A} (P Q : A → bool) (l : list A) :
  Forall (λ x, P x = Q x) l → filter (λ x, P x) l = filter (λ x, Q x) l.
Proof.
  induction 1 as [|x l Hx _ IH]; [done|].
  rewrite !filter_cons, IH, Hx. done.
Qed.

Lemma vehicle_is_eqb z r :
  int_or_null (cell "vehicle_id" r) →
  value_eqb (cell "vehicle_id" r) (VInt z) = vehicle_is z r.
Proof.
  unfold vehicle_is, value_eqb. destruct (cell "vehicle_id" r) as [|z'| | | |];
    try done. intros _. cbn [value_compare].
  destruct (Z.compare_spec z' z).
  - by rewrite bool_decide_eq_true_2.
  - rewrite bool_decide_eq_false_2; [done|lia].
  - rewrite bool_decide_eq_false_2; [done|lia].
Qed.

Lemma eq_literal_cast r out :
  int_or_null (cell "vehicle_id" r) →
  to_categorical "vehicle_id" (cell "vehicle_id" r) =
    Ok (cell "vehicle_id" out) →
  eq_literal "vehicle_id" "2" (cell "vehicle_id" out) =
    Ok (Some (vehicle_is 2 r)) ∨
  (eq_literal "vehicle_id" "2" (cell "vehicle_id" out) = Ok None ∧
   vehicle_is 2 r = false).
Proof.
  unfold vehicle_is. destruct (cell "vehicle_id" r) as [|z| | | |]; try done;
    intros _ Hv; cbn in Hv; injection Hv as <-; cbn.
  - by right.
  - left. do 2 f_equal. apply bool_decide_ext. split.
    + intros Hp. by apply (inj pretty).
    + by intros ->.
Qed.

Lemma time_of_imap (g : list (gmap string value)) n :
  map (cell "time") (imap (λ i r, <["time" := time_at (n + i)]> r) g) =
  map time_at (seq n (length g)).
Proof.
  revert n. induction g as [|r g IH]; intros n; [done|].
  cbn [imap map length seq]. rewrite Nat.add_0_r, cell_insert_eq. f_equal.
  rewrite <- IH. f_equal. apply imap_ext. intros i x _. cbn.
  by rewrite Nat.add_succ_r.
Qed.

Lemma map_Forall2 {A B C} (f : A → C) (g : B → C) (l : list A) (k : list B) :
  Forall2 (λ x y, g y = f x) l k → map g k = map f l.
Proof. induction 1; cbn; congruence. Qed.

(** X22.  The vehicle that is plotted (lines 108-111).  When no two rows of
    the input have the same vehicle and frame and the vehicle ids are
    integers, the table that is plotted holds the observations of the
    vehicle 2 in ascending order of frame: its [time] column is 0/10, 1/10,
    ... with one value for each observation of the vehicle, and its [v_vel]
    column holds their speeds converted to metres. *)
Theorem plotted_vehicle data_py final veh :
  transform data_py = Ok final → data_py_veh final = Ok veh →
  Forall (keys_ordered ["vehicle_id"; "frame_id"; "preceding"])
    (rows data_py) →
  Forall (λ r, has_vehicle r) (rows data_py) →
  Forall (λ r, int_or_null (cell "vehicle_id" r)) (rows data_py) →
  keys_distinct ["vehicle_id"; "frame_id"] (rows data_py) = true →
  let observations :=
    filter (λ r, vehicle_is 2 r)
      (sort_rows ["vehicle_id"; "frame_id"] (rows data_py)) in
  map (cell "time") (rows veh) =
    map time_at (seq 0 (length observations)) ∧
  Forall2 (λ r out,
    cell "frame_id" out = cell "frame_id" r ∧
    to_metric "v_vel" (cell "v_vel" r) = Ok (cell "v_vel" out))
    observations (rows veh).
Proof.
  intros (a & s & j & p & q & u & Ha & Hs & Hj & Hp & Hq & Hu & Hf)%transform_Ok
    Hveh Ho Hv Hi Hd observations.
  destruct (pipeline_rows _ _ _ _ _ _ _ _ Ha Hs Hj Hp Hq Hu Hf Ho Hv Hd)
    as [Hrows Hfin].
  set (keys := ["vehicle_id"; "frame_id"]) in *.
  set (sorted := sort_rows keys (rows data_py)) in *.
  assert (∀ c, c ∈ right_columns → c ∈ columns s) as Hcols.
  { apply preceding_joiner_Ok in Hj as [Hj _]. intros c Hc. apply Hj.
    by right. }
  assert (Forall (λ c, (c ∈ right_columns) ∧ c ≠ "vehicle_id_preceding" ∧
                       (c ∉ undesired_columns))
            ["vehicle_id"; "frame_id"; "v_vel"] ∧
          ("time" ∉ undesired_columns) ∧
          ("time" ∉ cols_to_convert_to_metric) ∧
          ("time" ∉ cols_to_convert_to_categorical) ∧
          ("frame_id" ∉ cols_to_convert_to_metric) ∧
          ("frame_id" ∉ cols_to_convert_to_categorical) ∧
          ("v_vel" ∈ cols_to_convert_to_metric) ∧
          ("vehicle_id" ∈ cols_to_convert_to_categorical))
    as (Fc & T1 & T2 & T3 & F1 & F2 & V1 & I1)
    by (split_and!; apply (bool_decide_unpack _); by vm_compute).
  rewrite Forall_forall in Fc.
  pose proof (proj1 (add_actual_time_Ok _ _) Ha) as (_ & rs & HFa & Ea).
  (* the rows that the filter keeps *)
  assert (∀ (R : gmap string value → gmap string value → Prop)
            (l : list (gmap string value)),
            Forall2 R l (rows final) →
            (∀ x y, R x y → int_or_null (cell "vehicle_id" x) ∧
               to_categorical "vehicle_id" (cell "vehicle_id" x) =
                 Ok (cell "vehicle_id" y)) →
            Forall2 R (filter (λ r, vehicle_is 2 r) l) (rows veh)) as Hkeep.
  { intros R l HF HRc.
    destruct (filter_rows_Forall2 R (vehicle_is 2)
                (λ r, eq_literal "vehicle_id" "2" (cell "vehicle_id" r))
                _ _ HF) as (k & Hk & HFk).
    { intros x y Hxy. destruct (HRc x y Hxy). by apply eq_literal_cast. }
    unfold data_py_veh, pl_filter_eq in Hveh.
    case_bool_decide; [|done]. rewrite Hk in Hveh.
    by injection Hveh as <-. }
  rewrite Forall_forall in Hi, Hv.
  split.
  - (* the time column *)
    assert (Forall2 (λ l out,
              cell "time" out = cell "time" l ∧
              int_or_null (cell "vehicle_id" l) ∧
              to_categorical "vehicle_id" (cell "vehicle_id" l) =
                Ok (cell "vehicle_id" out)) (rows s) (rows final)) as Hq'.
    { apply Forall2_same_length_lookup. split; [by eapply Forall2_length|].
      intros n l out Hl Hout.
      destruct (Forall2_lookup_r _ _ _ _ _ Hrows Hl)
        as (x & Hx & v & i & Hpv & ->).
      apply list_elem_of_lookup_2 in Hx. unfold sorted in Hx.
      rewrite sort_rows_perm in Hx.
      pose proof (Forall2_lookup_lr _ _ _ _ _ _ Hfin Hl Hout) as Hc.
      assert ("time" ∈ columns s) as Ht.
      { apply time_indexer_columns in Hs as [_ ->]. rewrite Ea.
        cbn [columns rows].
        rewrite bool_decide_eq_true_2; [apply add_label_in|].
        pose proof (Hv x Hx) as Hvx.
        apply list_elem_of_lookup_1 in Hx as [n' Hn'].
        destruct (Forall2_lookup_l _ _ _ _ _ HFa Hn') as (y & Hy & w & _ & ->).
        apply Exists_exists. eexists.
        split; [by eapply list_elem_of_lookup_2|].
        unfold has_vehicle in *. by rewrite cell_insert_ne. }
      split_and!.
      - by apply (Hc "time").
      - rewrite !cell_insert_ne by done. by apply Hi.
      - destruct (Fc "vehicle_id") as (? & ? & ?); [set_solver|].
        apply (Hc "vehicle_id"); auto. }
    pose proof (Hkeep _ _ Hq' (λ x y H, proj2 H)) as Hvq.
    rewrite (map_Forall2 (cell "time") (cell "time") _ _
               (Forall2_impl _ _ _ _ Hvq (λ x y H, proj1 H))).
    assert (Forall2 (λ x y, int_or_null (cell "vehicle_id" x) ∧
                            ∃ w, y = <["actual_time" := w]> x)
              (rows data_py) rs) as HFi.
    { apply Forall2_same_length_lookup. split; [by eapply Forall2_length|].
      intros n x y Hx Hy.
      destruct (Forall2_lookup_lr _ _ _ _ _ _ HFa Hx Hy) as (w & _ & ->).
      split; [|by eexists]. by eapply Hi, list_elem_of_lookup_2. }
    rewrite (filter_ext_Forall (vehicle_is 2)
               (λ r, value_eqb (cell "vehicle_id" r) (VInt 2)) (rows s)).
    2:{ apply Forall_forall. intros l Hl.
        apply list_elem_of_lookup_1 in Hl as [n Hn].
        destruct (Forall2_lookup_l _ _ _ _ _ Hq' Hn) as (out & _ & _ & Hil & _).
        by rewrite vehicle_is_eqb. }
    change (filter (λ r, value_eqb (cell "vehicle_id" r) (VInt 2)) (rows s))
      with (group_rows "vehicle_id" (VInt 2) (rows s)).
    rewrite (time_indexer_group a s (VInt 2) Hs); [| |done|done].
    2:{ rewrite Ea. cbn [rows]. apply Forall_forall. intros y Hy.
        apply list_elem_of_lookup_1 in Hy as [n Hn].
        destruct (Forall2_lookup_r _ _ _ _ _ HFi Hn) as (x & _ & Hix & w & ->).
        rewrite cell_insert_ne by done. by destruct (cell "vehicle_id" x). }
    rewrite (time_of_imap _ 0). do 2 f_equal. rewrite Ea. cbn [rows].
    symmetry. unfold observations, group_rows.
    apply (filter_length_ext
             (λ x y, int_or_null (cell "vehicle_id" x) ∧
                     ∃ w, y = <["actual_time" := w]> x)
             (vehicle_is 2)
             (λ r, value_eqb (cell "vehicle_id" r) (VInt 2))).
    + apply sort_rows_Forall2; [|done].
      intros x y [_ [w ->]] c Hc. rewrite cell_insert_ne; [done|set_solver].
    + intros x y [Hix [w ->]]. rewrite <- vehicle_is_eqb by done.
      by rewrite cell_insert_ne.
  - (* the rows of the vehicle *)
    assert (Forall2 (λ r out,
              (cell "frame_id" out = cell "frame_id" r ∧
               to_metric "v_vel" (cell "v_vel" r) = Ok (cell "v_vel" out)) ∧
              int_or_null (cell "vehicle_id" r) ∧
              to_categorical "vehicle_id" (cell "vehicle_id" r) =
                Ok (cell "vehicle_id" out)) sorted (rows final)) as Hq'.
    { apply Forall2_same_length_lookup. split.
      { rewrite (Forall2_length _ _ _ Hrows). by eapply Forall2_length. }
      intros n r out Hr Hout.
      destruct (Forall2_lookup_l _ _ _ _ _ Hrows Hr)
        as (l & Hl & v & i & Hpv & ->).
      apply list_elem_of_lookup_2 in Hr. unfold sorted in Hr.
      rewrite sort_rows_perm in Hr.
      pose proof (Forall2_lookup_lr _ _ _ _ _ _ Hfin Hl Hout) as Hc.
      assert (∀ c, c ∈ ["vehicle_id"; "frame_id"; "v_vel"] →
                cell c (<["time" := time_at i]> (<["actual_time" := v]> r)) =
                cell c r) as Hsame.
      { intros c Hin. rewrite !cell_insert_ne; [done|set_solver..]. }
      destruct (Fc "vehicle_id") as (? & ? & ?); [set_solver|].
      destruct (Fc "frame_id") as (? & ? & ?); [set_solver|].
      destruct (Fc "v_vel") as (? & ? & ?); [set_solver|].
      rewrite <- (Hsame "vehicle_id"), <- (Hsame "frame_id"),
        <- (Hsame "v_vel") by set_solver.
      split_and!.
      - apply (Hc "frame_id"); auto.
      - apply (Hc "v_vel"); auto.
      - rewrite Hsame by set_solver. by apply Hi.
      - apply (Hc "vehicle_id"); auto. }
    pose proof (Hkeep _ _ Hq' (λ x y H, proj2 H)) as Hvq.
    eapply Forall2_impl; [exact Hvq|]. by intros x y [? _].
Qed.

End Properties.

Set Warnings "-inexact-float".

(** * Statements on the table of the example *)

(** The first [local_x] cell of the table of the example: in feet, converted
    once, and converted twice. *)
Lemma local_x_converted_twice :
  let t := table_of Example.in_feet in
  let t1 := table_of (unit_converter t) in
  let t2 := table_of (unit_converter t1) in
  Binary64.float_at t 0 "local_x" = Some 16.5%float ∧
  Binary64.float_at t1 0 "local_x" = Some 5.03%float ∧
  Binary64.float_at t2 0 "local_x" = Some 1.53%float.
Proof. split_and!; by vm_compute. Qed.

(** C6.  The unit converter is not idempotent.  Applied to its own result it
    succeeds again, and a number [v] of a listed column has then become
    [round (round (v * 0.3048) 2 * 0.3048) 2]; on the table of the example
    16.5 feet become 5.03 and then 1.53 (16.5 * 0.3048 * 0.3048 = 1.5329...),
    so the second result differs from the first. *)
Theorem unit_converter_not_idempotent :
  (∀ (L : Lib) (t t1 : DataFrame), unit_converter t = Ok t1 →
     ∃ t2, unit_converter t1 = Ok t2 ∧
       Forall2 (λ r r2, ∀ c, c ∈ cols_to_convert_to_metric →
         (cell c r = VNull → cell c r2 = VNull) ∧
         (∀ x, cell c r = VFloat x →
               cell c r2 =
                 VFloat (fround 2 (fmul (fround 2 (fmul x float_0_3048))
                                     float_0_3048))) ∧
         (∀ z, cell c r = VInt z →
               cell c r2 =
                 VFloat (fround 2
                           (fmul (fround 2 (fmul (float_of_int z) float_0_3048))
                              float_0_3048))))
         (rows t) (rows t2)) ∧
  (∃ t t1 t2 : @DataFrame Binary64.lib,
     unit_converter t = Ok t1 ∧ unit_converter t1 = Ok t2 ∧ t2 ≠ t1).
Proof.
  split; [intros L; apply unit_converter_twice|].
  exists (table_of Example.in_feet),
    (table_of (unit_converter (table_of Example.in_feet))),
    (table_of (unit_converter
                 (table_of (unit_converter (table_of Example.in_feet))))).
  split_and!; [apply @table_of_Ok; by vm_compute..|].
  intros Heq. destruct local_x_converted_twice as (_ & H1 & H2).
  pose proof (eq_trans (eq_sym H2)
                (eq_trans
                   (f_equal (λ t, Binary64.float_at t 0 "local_x") Heq) H1))
    as H.
  clear -H.
  apply (f_equal (λ o, match o with
                       | Some x => PrimFloat.eqb x 5.03%float
                       | None => false
                       end)) in H.
  by vm_compute in H.
Qed.

(** * Witnesses

    Each statement with a hypothesis, at the table of the example. *)

(** The run on the table of the example succeeds. *)
Lemma transform_two_vehicles :
  transform Example.two_vehicles =
    Ok (table_of (transform Example.two_vehicles)).
Proof. apply @table_of_Ok. by vm_compute. Qed.

Lemma in_feet_Ok : Example.in_feet = Ok (table_of Example.in_feet).
Proof. apply @table_of_Ok. by vm_compute. Qed.

Lemma pruner_renamer_absent_column_witness :
  (∃ c, c ∈ preceding_names.*1 ++ undesired_columns ∧
        c ∉ columns Example.two_vehicles) ∧
  ∃ e, pruner_renamer Example.two_vehicles = Err e.
Proof.
  assert (∃ c, c ∈ preceding_names.*1 ++ undesired_columns ∧
               c ∉ columns Example.two_vehicles) as H.
  { exists "v_vel_preceding". split; apply (bool_decide_unpack _); by vm_compute. }
  split; [done|].
  destruct (proj1 (pruner_renamer_absent_column Example.two_vehicles) H)
    as (e & He & _).
  by exists e.
Defined.


Lemma local_x_preceding_kept_witness :
  transform Example.two_vehicles =
    Ok (table_of (transform Example.two_vehicles)) ∧
  "local_x_preceding" ∈ columns (table_of (transform Example.two_vehicles)).
Proof.
  split; [apply transform_two_vehicles|].
  exact (proj1 (local_x_preceding_kept _ _ transform_two_vehicles)).
Defined.

(** C4, as the specification has it, fails on the table of the example: the
    run succeeds and [local_x_preceding] is a label of the final table. *)
Lemma local_x_preceding_not_dropped :
  is_ok (transform Example.two_vehicles) = true ∧
  bool_decide
    ("local_x_preceding" ∈ columns (table_of (transform Example.two_vehicles)))
    = true.
Proof. split; by vm_compute. Qed.


Lemma actual_time_from_global_time_witness :
  let t := Example.two_vehicles in
  let t' := table_of (add_actual_time t) in
  add_actual_time t = Ok t' ∧
  columns t' = add_label "actual_time" (columns t) ∧
  Forall2 (λ r r',
    pacific_time (cell "global_time" r) = Some (cell "actual_time" r') ∧
    ∀ c, c ≠ "actual_time" → r' !! c = r !! c)
    (rows t) (rows t').
Proof.
  intros t t'.
  assert (add_actual_time t = Ok t') as H by (apply @table_of_Ok; by vm_compute).
  split; [done|]. exact (actual_time_from_global_time t t' H).
Defined.

Lemma time_is_position_in_vehicle_witness :
  let t := Example.two_vehicles in
  let t' := table_of (time_indexer t) in
  time_indexer t = Ok t' ∧
  Forall (keys_ordered ["vehicle_id"; "frame_id"]) (rows t) ∧
  ∃ g,
    g ≡ₚ group_rows "vehicle_id" (VInt 2) (rows t) ∧
    StronglySorted
      (λ r1 r2, value_compare (cell "frame_id" r1) (cell "frame_id" r2) ≠ Gt)
      g ∧
    group_rows "vehicle_id" (VInt 2) (rows t') =
      imap (λ i r, <["time" := time_at i]> r) g ∧
    (∀ i r', group_rows "vehicle_id" (VInt 2) (rows t') !! i = Some r' →
             cell "time" r' = time_at i) ∧
    (∀ r, g = [r] →
          group_rows "vehicle_id" (VInt 2) (rows t') =
            [<["time" := time_at 0]> r]).
Proof.
  intros t t'.
  assert (time_indexer t = Ok t') as H by (apply @table_of_Ok; by vm_compute).
  assert (Forall (keys_ordered ["vehicle_id"; "frame_id"]) (rows t)) as Ho
    by (apply @keys_ordered_check; by vm_compute).
  split_and!; [done..|].
  exact (time_is_position_in_vehicle t t' (VInt 2) H Ho I eq_refl).
Defined.



Lemma unit_converter_not_idempotent_witness :
  let t := table_of Example.in_feet in
  let t1 := table_of (unit_converter t) in
  unit_converter t = Ok t1 ∧
  ∃ t2, unit_converter t1 = Ok t2 ∧
    Forall2 (λ r r2, ∀ c, c ∈ cols_to_convert_to_metric →
      (cell c r = VNull → cell c r2 = VNull) ∧
      (∀ x, cell c r = VFloat x →
            cell c r2 =
              VFloat (fround 2 (fmul (fround 2 (fmul x float_0_3048))
                                  float_0_3048))) ∧
      (∀ z, cell c r = VInt z →
            cell c r2 =
              VFloat (fround 2
                        (fmul (fround 2 (fmul (float_of_int z) float_0_3048))
                           float_0_3048))))
      (rows t) (rows t2).
Proof.
  intros t t1.
  assert (unit_converter t = Ok t1) as H by (apply @table_of_Ok; by vm_compute).
  split; [done|].
  exact (proj1 unit_converter_not_idempotent Binary64.lib t t1 H).
Defined.

Lemma two_vehicles_end_to_end_witness :
  let o := Example.observations in
  let rows_in := reverse (scenario o 0) in
  rows_in ≡ₚ scenario o 0 ∧
  ∃ final a0 a1 a2 b0 b1 b2,
    transform (mkDataFrame ngsim_columns rows_in) = Ok final ∧
    rows final = [a0; a1; a2; b0; b1; b2] ∧
    map (cell "vehicle_id") (rows final) =
      [VCat "1"; VCat "1"; VCat "1"; VCat "2"; VCat "2"; VCat "2"] ∧
    map (cell "frame_id") (rows final) =
      [VInt 0; VInt 1; VInt 2; VInt 0; VInt 1; VInt 2] ∧
    map (cell "time") (rows final) =
      [time_at 0; time_at 1; time_at 2; time_at 0; time_at 1; time_at 2] ∧
    map (cell "v_vel") [a0; a1; a2] =
      [metres (obs_v_vel (o 1 0)); metres (obs_v_vel (o 1 1));
       metres (obs_v_vel (o 1 2))] ∧
    map (cell "preceding_v_vel") [b0; b1; b2] = map (cell "v_vel") [a0; a1; a2].
Proof.
  intros o rows_in.
  assert (rows_in ≡ₚ scenario o 0) as H by apply reverse_Permutation.
  split; [done|]. exact (two_vehicles_end_to_end o 0 rows_in H).
Defined.

(** ** Witnesses of the further properties *)



Lemma add_actual_time_again_witness :
  let t' := table_of (add_actual_time Example.two_vehicles) in
  add_actual_time Example.two_vehicles = Ok t' ∧ add_actual_time t' = Ok t'.
Proof.
  intros t'.
  assert (add_actual_time Example.two_vehicles = Ok t') as H
    by (apply @table_of_Ok; by vm_compute).
  exact (conj H (add_actual_time_again _ t' H)).
Defined.

Lemma unit_converter_outcomes_witness :
  (∃ c, unit_converter Example.two_vehicles = Err (ColumnNotFoundError c) ∧
        c ∈ cols_to_convert_to_metric ∧ c ∉ columns Example.two_vehicles) ∧
  (∃ c, unit_converter
          (mkDataFrame cols_to_convert_to_metric
             [Binary64.row [("local_x", VStr "left")]]) =
          Err (InvalidOperationError c) ∧
        c ∈ cols_to_convert_to_metric) ∧
  ∃ t', unit_converter (table_of Example.in_feet) = Ok t'.
Proof.
  split_and!.
  - apply (proj1 (unit_converter_outcomes _)). exists "preceding_v_vel".
    split; apply (bool_decide_unpack _); by vm_compute.
  - apply (proj1 (proj2 (unit_converter_outcomes _))); [done|].
    eexists _, "local_x". split_and!; [by left| |by vm_compute].
    apply (bool_decide_unpack _). by vm_compute.
  - apply (proj2 (proj2 (unit_converter_outcomes _))).
    + apply Forall_forall, (bool_decide_unpack _). by vm_compute.
    + apply @cells_check. by vm_compute.
Defined.

Lemma categorical_caster_outcomes_witness :
  (∃ c, categorical_caster Example.two_vehicles = Err (ColumnNotFoundError c) ∧
        c ∈ cols_to_convert_to_categorical ∧
        c ∉ columns Example.two_vehicles) ∧
  ∃ t', categorical_caster (table_of (upto_units Example.two_vehicles)) = Ok t'.
Proof.
  split.
  - apply (proj1 (categorical_caster_outcomes _)). exists "preceding_v_class".
    split; apply (bool_decide_unpack _); by vm_compute.
  - apply (proj2 (categorical_caster_outcomes _)).
    apply Forall_forall, (bool_decide_unpack _). by vm_compute.
Defined.

Lemma categorical_caster_cells_witness :
  let t := table_of (upto_units Example.two_vehicles) in
  let t' := table_of (categorical_caster t) in
  categorical_caster t = Ok t' ∧
  columns t' = columns t ∧
  Forall2 (λ r r',
    (∀ c, c ∈ cols_to_convert_to_categorical →
       (cell c r = VNull → cell c r' = VNull) ∧
       (∀ z, cell c r = VInt z → cell c r' = VCat (pretty z)) ∧
       (∀ s, cell c r = VStr s → cell c r' = VCat s) ∧
       (∀ s, cell c r = VCat s → cell c r' = VCat s)) ∧
    (∀ c, c ∉ cols_to_convert_to_categorical → r' !! c = r !! c))
    (rows t) (rows t').
Proof.
  intros t t'.
  assert (categorical_caster t = Ok t') as H
    by (apply @table_of_Ok; by vm_compute).
  exact (conj H (categorical_caster_cells t t' H)).
Defined.

Lemma categorical_caster_injective_witness :
  let t := table_of (upto_units Example.two_vehicles) in
  let t' := table_of (categorical_caster t) in
  categorical_caster t = Ok t' ∧
  Forall2 (λ r1 r1',
    Forall2 (λ r2 r2',
      ∀ c1 c2 z1 z2,
        c1 ∈ cols_to_convert_to_categorical →
        c2 ∈ cols_to_convert_to_categorical →
        cell c1 r1 = VInt z1 → cell c2 r2 = VInt z2 →
        cell c1 r1' = cell c2 r2' ↔ z1 = z2)
      (rows t) (rows t'))
    (rows t) (rows t').
Proof.
  intros t t'.
  assert (categorical_caster t = Ok t') as H
    by (apply @table_of_Ok; by vm_compute).
  exact (conj H (categorical_caster_injective t t' H)).
Defined.

Lemma categorical_caster_again_witness :
  let t := table_of (upto_units Example.two_vehicles) in
  let t' := table_of (categorical_caster t) in
  categorical_caster t = Ok t' ∧ categorical_caster t' = Ok t'.
Proof.
  intros t t'.
  assert (categorical_caster t = Ok t') as H
    by (apply @table_of_Ok; by vm_compute).
  exact (conj H (categorical_caster_again t t' H)).
Defined.

Lemma final_labels_witness :
  let final := table_of (transform Example.two_vehicles) in
  transform Example.two_vehicles = Ok final ∧
  NoDup (columns final) ∧
  ∀ c, c ∈ columns final →
    c ∉ undesired_columns ∧
    (c ∈ added_columns ∨ c ∈ columns Example.two_vehicles).
Proof.
  intros final.
  assert (transform Example.two_vehicles = Ok final) as H
    by (apply @table_of_Ok; by vm_compute).
  exact (conj H (final_labels _ final H)).
Defined.

Lemma transform_needs_ngsim_columns_witness :
  let final := table_of (transform Example.two_vehicles) in
  transform Example.two_vehicles = Ok final ∧
  ∀ c, c ∈ ngsim_columns → c ∈ columns Example.two_vehicles.
Proof.
  intros final.
  assert (transform Example.two_vehicles = Ok final) as H
    by (apply @table_of_Ok; by vm_compute).
  exact (conj H (transform_needs_ngsim_columns _ final H)).
Defined.

Lemma transformed_schema_witness :
  let final := table_of (transform Example.two_vehicles) in
  columns Example.two_vehicles = ngsim_columns ∧
  Exists (λ r, has_vehicle r) (rows Example.two_vehicles) ∧
  transform Example.two_vehicles = Ok final ∧
  columns final = transformed_columns.
Proof.
  intros final.
  assert (transform Example.two_vehicles = Ok final) as H
    by (apply @table_of_Ok; by vm_compute).
  assert (Exists (λ r, has_vehicle r) (rows Example.two_vehicles)) as Hv
    by (apply Exists_cons_hd; by vm_compute).
  assert (columns Example.two_vehicles = ngsim_columns) as Hc by reflexivity.
  exact (conj Hc (conj Hv (conj H
           (transformed_schema Example.two_vehicles final Hc Hv H)))).
Defined.


Lemma data_py_veh_is_vehicle_2_witness :
  let u := table_of (upto_units Example.two_vehicles) in
  let final := table_of (categorical_caster u) in
  categorical_caster u = Ok final ∧
  Forall (λ r, int_or_null (cell "vehicle_id" r)) (rows u) ∧
  ∃ veh,
    data_py_veh final = Ok veh ∧ columns veh = columns final ∧
    Forall2 (λ r r',
      cell "vehicle_id" r' = VCat "2" ∧
      (∀ c, c ∈ cols_to_convert_to_categorical →
            to_categorical c (cell c r) = Ok (cell c r')) ∧
      (∀ c, c ∉ cols_to_convert_to_categorical → r' !! c = r !! c))
      (filter (λ r, vehicle_is 2 r) (rows u)) (rows veh).
Proof.
  intros u final.
  assert (categorical_caster u = Ok final) as H
    by (apply @table_of_Ok; by vm_compute).
  assert (Forall (λ r, int_or_null (cell "vehicle_id" r)) (rows u)) as Hi
    by (apply forallb_True; by vm_compute).
  exact (conj H (conj Hi (data_py_veh_is_vehicle_2 u final H Hi))).
Defined.

Lemma preceding_path_has_no_column_witness :
  let final := table_of (transform Example.two_vehicles) in
  let veh := table_of (data_py_veh final) in
  transform Example.two_vehicles = Ok final ∧ data_py_veh final = Ok veh ∧
  preceding_path.2 ∉ columns Example.two_vehicles ∧
  subject_path.2 ∈ columns veh ∧ "preceding_v_vel" ∈ columns veh ∧
  preceding_path.2 ∉ columns veh.
Proof.
  intros final veh.
  assert (transform Example.two_vehicles = Ok final) as H
    by (apply @table_of_Ok; by vm_compute).
  assert (data_py_veh final = Ok veh) as Hv
    by (apply @table_of_Ok; by vm_compute).
  assert (preceding_path.2 ∉ columns Example.two_vehicles) as Hn
    by (apply (bool_decide_unpack _); by vm_compute).
  exact (conj H (conj Hv (conj Hn
           (preceding_path_has_no_column _ final veh H Hv Hn)))).
Defined.

Lemma time_indexer_rows_witness :
  let t := table_of (add_actual_time Example.two_vehicles) in
  let t' := table_of (time_indexer t) in
  time_indexer t = Ok t' ∧
  Forall (λ r, ordered (cell "vehicle_id" r)) (rows t) ∧
  ∃ sorted,
    sorted ≡ₚ filter (λ r, has_vehicle r) (rows t) ∧
    (Forall (keys_ordered ["vehicle_id"; "frame_id"]) (rows t) →
       StronglySorted (row_le ["vehicle_id"; "frame_id"]) sorted) ∧
    Forall2 (λ r r', ∃ i, r' = <["time" := time_at i]> r) sorted (rows t').
Proof.
  intros t t'.
  assert (time_indexer t = Ok t') as H by (apply @table_of_Ok; by vm_compute).
  assert (Forall (λ r, ordered (cell "vehicle_id" r)) (rows t)) as Ho
    by (apply forallb_True; by vm_compute).
  exact (conj H (conj Ho (time_indexer_rows t t' H Ho))).
Defined.

Lemma join_of_unique_observations_witness :
  let s := table_of (add_actual_time Example.two_vehicles ≫= time_indexer) in
  let j := table_of (preceding_joiner s) in
  let q := table_of (pl_rename preceding_names j) in
  preceding_joiner s = Ok j ∧ from_pandas j = Ok j ∧
  pl_rename preceding_names j = Ok q ∧
  Forall (keys_ordered ["vehicle_id"; "frame_id"; "preceding"]) (rows s) ∧
  keys_distinct ["vehicle_id"; "frame_id"] (rows s) = true ∧
  Forall (λ l, (length (preceding_rows s l) ≤ 1)%nat) (rows s) ∧
  Forall2 (λ l out, joined s l (head (preceding_rows s l)) out)
    (rows s) (rows q).
Proof.
  intros s j q.
  assert (preceding_joiner s = Ok j) as Hj by (apply @table_of_Ok; by vm_compute).
  assert (from_pandas j = Ok j) as Hp.
  { apply from_pandas_Ok. split; [|done]. apply (bool_decide_unpack _).
    by vm_compute. }
  assert (pl_rename preceding_names j = Ok q) as Hq
    by (apply @table_of_Ok; by vm_compute).
  assert (Forall (keys_ordered ["vehicle_id"; "frame_id"; "preceding"])
            (rows s)) as Ho by (apply @keys_ordered_check; by vm_compute).
  assert (keys_distinct ["vehicle_id"; "frame_id"] (rows s) = true) as Hd
    by by vm_compute.
  exact (conj Hj (conj Hp (conj Hq (conj Ho (conj Hd
           (join_of_unique_observations s j j q Hj Hp Hq Ho Hd)))))).
Defined.

Lemma one_row_per_observation_witness :
  let data_py := Example.two_vehicles in
  let final := table_of (transform data_py) in
  transform data_py = Ok final ∧
  Forall (keys_ordered ["vehicle_id"; "frame_id"; "preceding"])
    (rows data_py) ∧
  Forall (λ r, has_vehicle r) (rows data_py) ∧
  keys_distinct ["vehicle_id"; "frame_id"] (rows data_py) = true ∧
  length (rows final) = length (rows data_py) ∧
  Forall2 (λ r out,
    pacific_time (cell "global_time" r) = Some (cell "actual_time" out) ∧
    ∀ c, c ∈ columns final → c ∉ added_columns →
      (c ∈ cols_to_convert_to_metric →
         to_metric c (cell c r) = Ok (cell c out)) ∧
      (c ∈ cols_to_convert_to_categorical →
         to_categorical c (cell c r) = Ok (cell c out)) ∧
      (c ∉ cols_to_convert_to_metric → c ∉ cols_to_convert_to_categorical →
         cell c out = cell c r))
    (sort_rows ["vehicle_id"; "frame_id"] (rows data_py)) (rows final).
Proof.
  intros data_py final.
  assert (transform data_py = Ok final) as H
    by (apply @table_of_Ok; by vm_compute).
  assert (Forall (keys_ordered ["vehicle_id"; "frame_id"; "preceding"])
            (rows data_py)) as Ho by (apply @keys_ordered_check; by vm_compute).
  assert (Forall (λ r, has_vehicle r) (rows data_py)) as Hv
    by (apply forallb_True; by vm_compute).
  assert (keys_distinct ["vehicle_id"; "frame_id"] (rows data_py) = true) as Hd
    by by vm_compute.
  exact (conj H (conj Ho (conj Hv (conj Hd
           (one_row_per_observation data_py final H Ho Hv Hd))))).
Defined.

Lemma transform_order_independent_witness :
  let rs := rows Example.two_vehicles in
  reverse rs ≡ₚ rs ∧
  Forall (keys_ordered ["vehicle_id"; "frame_id"]) rs ∧
  keys_distinct ["vehicle_id"; "frame_id"] rs = true ∧
  transform (mkDataFrame ngsim_columns (reverse rs)) =
  transform (mkDataFrame ngsim_columns rs).
Proof.
  intros rs.
  assert (reverse rs ≡ₚ rs) as Hp by apply reverse_Permutation.
  assert (Forall (keys_ordered ["vehicle_id"; "frame_id"]) rs) as Ho
    by (apply @keys_ordered_check; by vm_compute).
  assert (keys_distinct ["vehicle_id"; "frame_id"] rs = true) as Hd
    by by vm_compute.
  exact (conj Hp (conj Ho (conj Hd
           (transform_order_independent ngsim_columns (reverse rs) rs
              Hp Ho Hd)))).
Defined.


Lemma preceding_fields_consistent_witness :
  let s := table_of (add_actual_time Example.two_vehicles ≫= time_indexer) in
  let j := table_of (preceding_joiner s) in
  let q := table_of (pruner_renamer j) in
  let u := table_of (unit_converter q) in
  let final := table_of (categorical_caster u) in
  preceding_joiner s = Ok j ∧ from_pandas j = Ok j ∧
  pruner_renamer j = Ok q ∧ unit_converter q = Ok u ∧
  categorical_caster u = Ok final ∧
  Forall (keys_ordered ["vehicle_id"; "frame_id"; "preceding"]) (rows s) ∧
  keys_distinct ["vehicle_id"; "frame_id"] (rows s) = true ∧
  Binary64.float_at final 0 "v_vel" = Some 12.19%float ∧
  Binary64.float_at final 3 "preceding_v_vel" = Some 12.19%float ∧
  Forall2 (λ l out_l,
    Forall2 (λ m out_m,
      head (preceding_rows s l) = Some m →
      ∀ src dst, (src, dst) ∈ preceding_fields →
        dst ∈ cols_to_convert_to_metric →
        cell dst out_l = cell src out_m)
      (rows s) (rows final))
    (rows s) (rows final).
Proof.
  intros s j q u final.
  assert (preceding_joiner s = Ok j) as Hj by (apply @table_of_Ok; by vm_compute).
  assert (from_pandas j = Ok j) as Hp.
  { apply from_pandas_Ok. split; [|done]. apply (bool_decide_unpack _).
    by vm_compute. }
  assert (pruner_renamer j = Ok q) as Hq by (apply @table_of_Ok; by vm_compute).
  assert (unit_converter q = Ok u) as Hu by (apply @table_of_Ok; by vm_compute).
  assert (categorical_caster u = Ok final) as Hf
    by (apply @table_of_Ok; by vm_compute).
  assert (Forall (keys_ordered ["vehicle_id"; "frame_id"; "preceding"])
            (rows s)) as Ho by (apply @keys_ordered_check; by vm_compute).
  assert (keys_distinct ["vehicle_id"; "frame_id"] (rows s) = true) as Hd
    by by vm_compute.
  split_and!; [done..|by vm_compute|by vm_compute|].
  exact (preceding_fields_consistent s j j q u final Hj Hp Hq Hu Hf Ho Hd).
Defined.

Lemma plotted_vehicle_witness :
  let data_py := Example.two_vehicles in
  let final := table_of (transform data_py) in
  let veh := table_of (data_py_veh final) in
  let observations :=
    filter (λ r, vehicle_is 2 r)
      (sort_rows ["vehicle_id"; "frame_id"] (rows data_py)) in
  transform data_py = Ok final ∧ data_py_veh final = Ok veh ∧
  Forall (keys_ordered ["vehicle_id"; "frame_id"; "preceding"])
    (rows data_py) ∧
  Forall (λ r, has_vehicle r) (rows data_py) ∧
  Forall (λ r, int_or_null (cell "vehicle_id" r)) (rows data_py) ∧
  keys_distinct ["vehicle_id"; "frame_id"] (rows data_py) = true ∧
  length observations = 3%nat ∧
  Binary64.float_at veh 2 "time" = Some 0.2%float ∧
  Binary64.float_at veh 2 "v_vel" = Some 13.11%float ∧
  map (cell "time") (rows veh) =
    map time_at (seq 0 (length observations)) ∧
  Forall2 (λ r out,
    cell "frame_id" out = cell "frame_id" r ∧
    to_metric "v_vel" (cell "v_vel" r) = Ok (cell "v_vel" out))
    observations (rows veh).
Proof.
  intros data_py final veh observations.
  assert (transform data_py = Ok final) as H
    by (apply @table_of_Ok; by vm_compute).
  assert (data_py_veh final = Ok veh) as Hveh
    by (apply @table_of_Ok; by vm_compute).
  assert (Forall (keys_ordered ["vehicle_id"; "frame_id"; "preceding"])
            (rows data_py)) as Ho by (apply @keys_ordered_check; by vm_compute).
  assert (Forall (λ r, has_vehicle r) (rows data_py)) as Hv
    by (apply forallb_True; by vm_compute).
  assert (Forall (λ r, int_or_null (cell "vehicle_id" r)) (rows data_py)) as Hi
    by (apply forallb_True; by vm_compute).
  assert (keys_distinct ["vehicle_id"; "frame_id"] (rows data_py) = true) as Hd
    by by vm_compute.
  assert (length observations = 3%nat) as Hn by by vm_compute.
  assert (Binary64.float_at veh 2 "time" = Some 0.2%float) as Ht
    by by vm_compute.
  assert (Binary64.float_at veh 2 "v_vel" = Some 13.11%float) as Hs
    by by vm_compute.
  exact (conj H (conj Hveh (conj Ho (conj Hv (conj Hi (conj Hd (conj Hn
           (conj Ht (conj Hs
              (plotted_vehicle data_py final veh H Hveh Ho Hv Hi Hd)))))))))).
Defined.
